(** * MapComponent: the field-boundary editor of [src/app/components/map/MapComponent.tsx]

    A shallow embedding of the drawing session ([setupAutoClosePolygon]),
    of the completed-polygon wiring ([onPolygonComplete], the [<Polygon>]
    click handler) and of the area effect, followed by the properties of
    the specification that were checked against it.

    JavaScript numbers are IEEE binary64 values, so coordinates and
    distances are primitive floats: [0 / 0], [1 / 0] and NaN propagation
    behave as they do in the browser.  The functions of the Google Maps
    geometry library, the constructor [google.maps.LatLng] where it is
    handed coordinates that may lie outside the map, and [Math.atan2] are
    external to the repository; they are variables of the section that
    holds the component.

    The repository also keeps an earlier revision of the component, which
    rotates each label by the angle of its edge; everything below is about
    [MapComponent.tsx], where the angle is reset to 0. *)

From Stdlib Require Import Floats ZArith QArith Qround Qabs Qpower String Ascii List Lia Lqa.
From stdpp Require Import gmap list strings pretty.

Set Default Proof Using "Type".

(** ** JavaScript numbers and the built-ins the component calls *)

Module JS.

(** The rational a finite binary64 value denotes; [None] for NaN and the
    infinities. *)
Definition exact (x : float) : option Q :=
  match Prim2SF x with
  | S754_zero _ => Some 0%Q
  | S754_finite s m e =>
      Some ((if s then -1 else 1) * inject_Z (Zpos m) * (2 ^ e))%Q
  | S754_infinity _ | S754_nan => None
  end.

Definition isNaN (x : float) : bool := PrimFloat.is_nan x.

(** [x] is a whole number. *)
Definition integral (q : Q) : bool := Qeq_bool (inject_Z (Qfloor q)) q.

(** The nearest integer, ties towards +infinity. *)
Definition nearest (q : Q) : Z := Qfloor (q + (1 # 2)).

Definition of_Z (n : Z) : float :=
  let a := PrimFloat.of_uint63 (Uint63.of_Z (Z.abs n)) in
  if (n <? 0)%Z then PrimFloat.opp a else a.

(** [Math.round]: a value that is not finite or already integral is
    returned as it is; otherwise the closest integral Number, the one
    nearer to +infinity on a tie, and [-0] for [-0.5 <= x < 0]. *)
Definition Math_round (x : float) : float :=
  match exact x with
  | None => x
  | Some q =>
      if integral q then x
      else
        let n := nearest q in
        if (n =? 0)%Z && Qle_bool q 0 then (-0)%float else of_Z n
  end.

Definition Math_PI : float := 0x1.921fb54442d18p+1%float.

Section ToString.

(** [Number::toString] on the values it renders through their shortest
    round-trip digits: with a fraction, with an exponent, or, above 2^53,
    padded with zeros; the component only prints small integral values
    through it, so that part stays abstract. *)
Variable ToString_fraction : float -> string.

(** [Number::toString] in radix 10, as a template literal applies it.  Up
    to 2^53 every integer is a Number, so the shortest digits that
    round-trip are the digits of the integer itself. *)
Definition ToString (x : float) : string :=
  match Prim2SF x with
  | S754_nan => "NaN"
  | S754_zero _ => "0"
  | S754_infinity s => if s then "-Infinity" else "Infinity"
  | S754_finite s _ _ =>
      match exact x with
      | Some q =>
          if integral q && Qle_bool (Qabs q) (inject_Z (2 ^ 53))
          then (if s then "-" else "") ++ pretty (Z.abs (Qfloor q))
          else ToString_fraction x
      | None => ToString_fraction x
      end
  end.

(** [Number.prototype.toFixed(2)]. *)
Definition toFixed2 (x : float) : string :=
  match exact x with
  | None => ToString x
  | Some q =>
      let s := if Qle_bool 0 q then "" else "-" in
      let a := Qabs q in
      if Qle_bool (inject_Z (10 ^ 21)) a then s ++ ToString (PrimFloat.abs x)
      else
        let n := nearest (a * 100) in
        s ++ pretty (n / 100)%Z ++ "."
          ++ pretty (n / 10 mod 10)%Z ++ pretty (n mod 10)%Z
  end.

End ToString.

(** [String.prototype.includes]. *)
Definition includes (s pat : string) : bool :=
  match String.index 0 pat s with Some _ => true | None => false end.

End JS.

(** ** Objects on the map surface *)

Record LatLng := mkLatLng { lat : float; lng : float }.

Inductive SymbolPath := CIRCLE | LOCATION_MARKER_PATH.

(** Which listeners a marker carries; the closures of the source capture
    exactly the values kept here. *)
Inductive MarkerRole :=
| SessionVertex                               (* a vertex of the ring being drawn *)
| EdgeHandle (i : nat)                        (* midpoint handle of edge [i] *)
| DragGhost                                   (* the red pin shown during a drag *)
| PolygonVertex (polygon : nat) (index : nat) (* a vertex of a completed polygon *).

Record Marker := mkMarker {
  position : LatLng;
  onMap : bool;                              (* [false] after [setMap(null)] *)
  opacity : float;
  icon : SymbolPath;
  draggable : bool;
  role : MarkerRole;
  dragMarker : option nat;                   (* the listeners' [dragMarker] variable *)
  tempVertexIndex : option nat;              (* [marker.get('tempVertexIndex')] *)
  originalVertices : option (list LatLng);   (* [marker.get('originalVertices')] *)
  originalPosition : option LatLng
}.

Inductive CssTransform :=
| translate (x y : string)
| rotate (deg : float).

(** The element [onAdd] builds: the transform of the label box and the
    unit printed after the numeric input. *)
Record Div := mkDiv {
  transform : list CssTransform;
  unit : string
}.

Record DistanceOverlay := mkOverlay {
  ov_position : LatLng;
  content : string;
  angle : float;
  (* what [handleDistanceChange] closes over *)
  edge_p1 : LatLng;
  edge_p2 : LatLng;
  edge_i : nat;
  div : option Div                           (* [None] before [onAdd] and after [onRemove] *)
}.

Inductive MapObject :=
| AMarker (m : Marker)
| AnOverlay (o : DistanceOverlay).

Record Polyline := mkPolyline { pl_path : list LatLng; pl_onMap : bool }.

(** A completed polygon: its path (an MVCArray, mutated in place) and the
    two properties [onPolygonComplete] hangs on it. *)
Record Polygon := mkPolygon {
  path : list LatLng;
  pg_vertexMarkers : list nat;
  pg_edgeMarkers : list nat
}.

(** The variables one call of [setupAutoClosePolygon] closes over. *)
Record Session := mkSession {
  tempPolyline : option Polyline;
  vertices : list LatLng;
  vertexMarkers : list nat;
  edgeMarkers : list nat;
  mapClickListener : bool;
  mapDblClickListener : bool
}.

Record World := mkWorld {
  objects : gmap nat MapObject;              (* every marker and overlay made so far *)
  fresh : nat;                               (* identity of the next object *)
  session : Session;
  isDrawingMode : bool;
  fieldPolygons : list Polygon;
  fieldPolygons_ref : nat;                   (* identity of the state array *)
  drawing_committed : bool;                  (* [isDrawingMode] at the last commit *)
  area_committed : nat;                      (* array identity the area effect last saw *)
  hostCalls : list float                     (* arguments of [onAreaUpdate], oldest first *)
}.

(** A listener either returns or throws; the mutations made before the
    throw stay. *)
Inductive Outcome :=
| Returned (w : World)
| Threw (w : World).

Definition world_of (o : Outcome) : World :=
  match o with Returned w | Threw w => w end.

Inductive Event :=
| CreateField
| MapClick (latLng : option LatLng)
| MapDblClick (latLng : option LatLng)
| DragStart (marker : nat)
| Drag (marker : nat) (latLng : option LatLng)
| DragEnd (marker : nat) (latLng : option LatLng)
| InputChange (overlay : nat) (newValue : float)
| PolygonClick (polygon : nat) (edge vertex : option nat) (latLng : option LatLng)
| HostRender  (* the host renders again, with a new function as [onAreaUpdate] *).




(** *** Field updates *)

Definition with_session (f : Session -> Session) (w : World) : World :=
  mkWorld (objects w) (fresh w) (f (session w)) (isDrawingMode w) (fieldPolygons w)
    (fieldPolygons_ref w) (drawing_committed w) (area_committed w) (hostCalls w).

Definition with_objects (f : gmap nat MapObject -> gmap nat MapObject) (w : World) : World :=
  mkWorld (f (objects w)) (fresh w) (session w) (isDrawingMode w) (fieldPolygons w)
    (fieldPolygons_ref w) (drawing_committed w) (area_committed w) (hostCalls w).

Definition set_tempPolyline (p : option Polyline) (s : Session) : Session :=
  mkSession p (vertices s) (vertexMarkers s) (edgeMarkers s)
    (mapClickListener s) (mapDblClickListener s).

Definition set_vertices (v : list LatLng) (s : Session) : Session :=
  mkSession (tempPolyline s) v (vertexMarkers s) (edgeMarkers s)
    (mapClickListener s) (mapDblClickListener s).

Definition set_vertexMarkers (l : list nat) (s : Session) : Session :=
  mkSession (tempPolyline s) (vertices s) l (edgeMarkers s)
    (mapClickListener s) (mapDblClickListener s).

Definition set_edgeMarkers (l : list nat) (s : Session) : Session :=
  mkSession (tempPolyline s) (vertices s) (vertexMarkers s) l
    (mapClickListener s) (mapDblClickListener s).

Definition set_listeners (c d : bool) (s : Session) : Session :=
  mkSession (tempPolyline s) (vertices s) (vertexMarkers s) (edgeMarkers s) c d.

(** [new google.maps.Marker] or [new DistanceOverlay]: the object gets the
    next identity. *)
Definition add_object (o : MapObject) (w : World) : World :=
  mkWorld (<[fresh w := o]> (objects w)) (S (fresh w)) (session w) (isDrawingMode w)
    (fieldPolygons w) (fieldPolygons_ref w) (drawing_committed w) (area_committed w)
    (hostCalls w).

Definition alloc (o : MapObject) (w : World) : nat * World := (fresh w, add_object o w).

Definition update_marker (f : Marker -> Marker) (o : MapObject) : MapObject :=
  match o with AMarker m => AMarker (f m) | AnOverlay _ => o end.

Definition set_position (p : LatLng) (m : Marker) : Marker :=
  mkMarker p (onMap m) (opacity m) (icon m) (draggable m) (role m) (dragMarker m)
    (tempVertexIndex m) (originalVertices m) (originalPosition m).

Definition set_opacity (x : float) (m : Marker) : Marker :=
  mkMarker (position m) (onMap m) x (icon m) (draggable m) (role m) (dragMarker m)
    (tempVertexIndex m) (originalVertices m) (originalPosition m).

Definition set_dragMarker (d : option nat) (m : Marker) : Marker :=
  mkMarker (position m) (onMap m) (opacity m) (icon m) (draggable m) (role m) d
    (tempVertexIndex m) (originalVertices m) (originalPosition m).

Definition set_drag_props (idx : nat) (vs : list LatLng) (p : LatLng) (m : Marker) : Marker :=
  mkMarker (position m) (onMap m) (opacity m) (icon m) (draggable m) (role m) (dragMarker m)
    (Some idx) (Some vs) (Some p).

(** [setMap(null)]: a marker leaves the map, an overlay runs [onRemove]. *)
Definition setMap_null (o : MapObject) : MapObject :=
  match o with
  | AMarker m =>
      AMarker (mkMarker (position m) false (opacity m) (icon m) (draggable m) (role m)
                 (dragMarker m) (tempVertexIndex m) (originalVertices m) (originalPosition m))
  | AnOverlay o =>
      AnOverlay (mkOverlay (ov_position o) (content o) (angle o)
                   (edge_p1 o) (edge_p2 o) (edge_i o) None)
  end.

Definition shown (o : MapObject) : bool :=
  match o with
  | AMarker m => onMap m
  | AnOverlay o => match div o with Some _ => true | None => false end
  end.

(** [ids.forEach(x => x.setMap(null))] *)
Definition dispose_all (ids : list nat) (w : World) : World :=
  with_objects (fun h => foldl (fun h id => alter setMap_null id h) h ids) w.

Definition get_marker (w : World) (id : nat) : option Marker :=
  match objects w !! id with Some (AMarker m) => Some m | _ => None end.

Definition get_overlay (w : World) (id : nat) : option DistanceOverlay :=
  match objects w !! id with Some (AnOverlay o) => Some o | _ => None end.

(** [a.splice(i, 0, x)]: an index past the end appends. *)
Definition splice_in {A} (i : nat) (x : A) (a : list A) : list A :=
  take i a ++ x :: drop i a.

(** [a.indexOf(x)], [None] for [-1]. *)
Fixpoint indexOf (x : nat) (a : list nat) : option nat :=
  match a with
  | [] => None
  | y :: a' => if decide (y = x) then Some 0 else S <$> indexOf x a'
  end.

(** [vertices.slice()] with the first vertex pushed again from three
    vertices on: the path every listener gives the temporary polyline. *)
Definition preview_path (vs : list LatLng) : list LatLng :=
  if decide (3 <= length vs) then vs ++ take 1 vs else vs.

Definition setPath (p : list LatLng) (s : Session) : Session :=
  match tempPolyline s with
  | Some pl => set_tempPolyline (Some (mkPolyline p (pl_onMap pl))) s
  | None => s
  end.

Definition map_polygons (f : list Polygon -> list Polygon) (w : World) : World :=
  mkWorld (objects w) (fresh w) (session w) (isDrawingMode w) (f (fieldPolygons w))
    (fieldPolygons_ref w) (drawing_committed w) (area_committed w) (hostCalls w).

(** [setFieldPolygons(prev => f(prev))]: the state holds a new array. *)
Definition setFieldPolygons (f : list Polygon -> list Polygon) (w : World) : World :=
  mkWorld (objects w) (fresh w) (session w) (isDrawingMode w) (f (fieldPolygons w))
    (S (fieldPolygons_ref w)) (drawing_committed w) (area_committed w) (hostCalls w).

Definition setIsDrawingMode (b : bool) (w : World) : World :=
  mkWorld (objects w) (fresh w) (session w) b (fieldPolygons w)
    (fieldPolygons_ref w) (drawing_committed w) (area_committed w) (hostCalls w).

Definition set_committed (d : bool) (a : nat) (calls : list float) (w : World) : World :=
  mkWorld (objects w) (fresh w) (session w) (isDrawingMode w) (fieldPolygons w)
    (fieldPolygons_ref w) d a calls.

Definition set_path (p : list LatLng) (g : Polygon) : Polygon :=
  mkPolygon p (pg_vertexMarkers g) (pg_edgeMarkers g).

Definition set_pg_vertexMarkers (l : list nat) (g : Polygon) : Polygon :=
  mkPolygon (path g) l (pg_edgeMarkers g).

Definition set_pg_edgeMarkers (l : list nat) (g : Polygon) : Polygon :=
  mkPolygon (path g) (pg_vertexMarkers g) l.

(** The markers the source creates, by icon and wiring. *)
Definition circle_vertex (p : LatLng) : Marker :=
  mkMarker p true 1 CIRCLE true SessionVertex None None None None.

Definition edge_handle (p : LatLng) (i : nat) : Marker :=
  mkMarker p true 1 CIRCLE true (EdgeHandle i) None None None None.

Definition drag_ghost (p : LatLng) : Marker :=
  mkMarker p true 1 LOCATION_MARKER_PATH false DragGhost None None None None.

Definition polygon_vertex (p : LatLng) (k i : nat) : Marker :=
  mkMarker p true 1 LOCATION_MARKER_PATH true (PolygonVertex k i) None None None None.

Definition emptySession : Session := mkSession None [] [] [] false false.

(** The component after its first render: no map objects, no polygon,
    drawing mode off. *)
Definition initial : World :=
  mkWorld ∅ 0 emptySession false [] 0 false 0 [].

(** ** Stand-ins for the external functions

    Closed examples need some value for the functions of the Maps
    library.  The distance and the area are not Google's: a planar distance
    in metres per degree and a planar area, enough to run the component.
    The constructor of a point clamps and wraps as the documentation of
    the library says. *)

Module Standin.

Definition metres_per_degree : float := 111320%float.

Definition computeDistanceBetween (a b : LatLng) : float :=
  (metres_per_degree *
   PrimFloat.sqrt ((lat b - lat a) * (lat b - lat a) + (lng b - lng a) * (lng b - lng a)))%float.

(** Shoelace area of the ring read as planar degrees, in square metres. *)
Fixpoint shoelace (first prev : LatLng) (rest : list LatLng) : float :=
  match rest with
  | [] => (lng prev * lat first - lng first * lat prev)%float
  | p :: rest' =>
      (lng prev * lat p - lng p * lat prev + shoelace first p rest')%float
  end.

Definition computeArea (ring : list LatLng) : float :=
  match ring with
  | [] => 0%float
  | p :: rest =>
      (PrimFloat.abs (shoelace p p rest) / 2 * (metres_per_degree * metres_per_degree))%float
  end.

Definition Math_atan2 (y x : float) : float := 45%float.

(** [x % y] for [0 <= x] and [0 < y]: the multiples [y * 2^k] are taken
    off from the largest below [x] down to [y] itself, each subtraction
    being exact.  NaN and infinity give NaN. *)
Fixpoint climb (fuel : nat) (x t : float) : float :=
  match fuel with
  | 0 => t
  | S fuel' => if (t * 2 <=? x)%float then climb fuel' x (t * 2)%float else t
  end.

Fixpoint descend (fuel : nat) (x t y : float) : float :=
  match fuel with
  | 0 => x
  | S fuel' =>
      let x := if (t <=? x)%float then (x - t)%float else x in
      if (t <=? y)%float then x else descend fuel' x (t / 2)%float y
  end.

(** [x % y] for [0 < y]; the sign is that of [x]. *)
Definition remainder (x y : float) : float :=
  if (x <? 0)%float then (- descend 2200 (- x) (climb 2200 (- x) y) y)%float
  else descend 2200 x (climb 2200 x y) y.

(** The constructor of a point as the library documents it: a latitude
    beyond a pole is clamped to the pole, a longitude outside [-180, 180]
    is wrapped into [-180, 180), and NaN stays NaN. *)
Definition LatLng_new (lat lng : float) : LatLng :=
  let lat := if (lat <? -90)%float then (-90)%float
             else if (90 <? lat)%float then 90%float else lat in
  let lng := if (-180 <=? lng)%float && (lng <=? 180)%float then lng
             else (remainder (remainder (lng + 180) 360 + 360) 360 - 180)%float in
  mkLatLng lat lng.

Definition ToString_fraction (x : float) : string := "?".

End Standin.

(** ** Event sequences used in the closed examples *)

Module Scenario.

Definition a : LatLng := mkLatLng 0 0.
Definition b : LatLng := mkLatLng 0 1.
Definition c : LatLng := mkLatLng 1 1.

(** The middle of the edge from [a] to [b]. *)
Definition ab : LatLng := mkLatLng 0 0.5.


(** Two points either side of the antimeridian. *)
Definition east : LatLng := mkLatLng 0 179.
Definition west : LatLng := mkLatLng 0 (-179).

(** Drawing is switched on and three vertices are clicked. *)
Definition triangle : list Event :=
  [CreateField; MapClick (Some a); MapClick (Some b); MapClick (Some c)].

(** The triangle is closed by a double-click. *)
Definition closed_triangle : list Event := triangle ++ [MapDblClick (Some c)].

Definition one_edge : list Event :=
  [CreateField; MapClick (Some a); MapClick (Some b)].

(** The same point clicked twice: an edge of length zero. *)
Definition same_point_twice : list Event :=
  [CreateField; MapClick (Some a); MapClick (Some a)].


Definition across_antimeridian : list Event :=
  [CreateField; MapClick (Some east); MapClick (Some west)].

(** The midpoint handle of edge 0 of the triangle (object 8) is picked up
    and the drag ends without a geo-point. *)
Definition abandoned_drag : list Event := triangle ++ [DragStart 8; DragEnd 8 None].

(** A vertex is inserted on edge 0 of the completed triangle. *)
Definition edge_click : Event := PolygonClick 0 (Some 0) None (Some ab).


(** The marker of vertex 0 of the completed triangle (object 13) is
    dragged one degree west. *)
Definition vertex_drag : Event := Drag 13 (Some (mkLatLng 0 (-1))).

End Scenario.

(** ** The component *)

Section Component.

(** [new google.maps.LatLng(lat, lng)] as the distance edit calls it: the
    constructor of the Maps library, which brings the latitude into
    [-90, 90] and the longitude into [-180, 180) before it stores them. *)
Variable LatLng_new : float -> float -> LatLng.

(** [google.maps.geometry.spherical.computeDistanceBetween] and
    [computeArea], [Math.atan2], and the part of [Number::toString] left
    abstract in [JS]. *)
Variable computeDistanceBetween : LatLng -> LatLng -> float.
Variable computeArea : list LatLng -> float.
Variable Math_atan2 : float -> float -> float.
Variable ToString_fraction : float -> string.

(** Whether the host passed the optional [onAreaUpdate] prop. *)
Variable onAreaUpdate : bool.

(** *** DistanceOverlay *)

Definition distanceText (distance : float) : string :=
  if (distance <? 1000)%float
  then JS.ToString ToString_fraction (JS.Math_round distance) ++ "m"
  else JS.toFixed2 ToString_fraction (distance / 1000)%float ++ "km".

(** [onAdd], run by [setMap(map)]: the label box is translated above its
    anchor and the unit is read off the content. *)
Definition onAdd (o : DistanceOverlay) : DistanceOverlay :=
  let unit := if JS.includes (content o) "km" then "km" else "m" in
  mkOverlay (ov_position o) (content o) (angle o) (edge_p1 o) (edge_p2 o) (edge_i o)
    (Some (mkDiv [translate "-50%" "-150%"] unit)).

(** *** updateEdgeMarkers *)

Definition push_edgeMarker (id : nat) (w : World) : World :=
  with_session (fun s => set_edgeMarkers (edgeMarkers s ++ [id]) s) w.

(** One turn of the loop, for index [i] and [p1 = vertices[i]].  The
    midpoint is built from the means of two coordinates of the ring, which
    lie between them: within the range of the map when they are, so that
    the constructor has nothing to clamp or wrap. *)
Definition add_edge (w : World) (ip : nat * LatLng) : World :=
  let '(i, p1) := ip in
  let vs := vertices (session w) in
  let p2 := default p1 (vs !! ((i + 1) mod length vs)) in
  let midLat := ((lat p1 + lat p2) / 2)%float in
  let midLng := ((lng p1 + lng p2) / 2)%float in
  let midpoint := mkLatLng midLat midLng in
  let distance := computeDistanceBetween p1 p2 in
  let angle :=
    (Math_atan2 (lng p2 - lng p1) (lat p2 - lat p1) * (180 / JS.Math_PI))%float in
  let angle := 0%float in
  let '(overlay, w) :=
    alloc (AnOverlay (onAdd (mkOverlay midpoint (distanceText distance) angle p1 p2 i None))) w in
  let w := push_edgeMarker overlay w in
  let '(marker, w) := alloc (AMarker (edge_handle midpoint i)) w in
  push_edgeMarker marker w.

Definition updateEdgeMarkers (w : World) : World :=
  let w := dispose_all (edgeMarkers (session w)) w in
  let w := with_session (set_edgeMarkers []) w in
  if decide (2 <= length (vertices (session w)))
  then foldl add_edge w (imap pair (vertices (session w)))
  else w.

Definition refresh_polyline (w : World) : World :=
  with_session (fun s => setPath (preview_path (vertices s)) s) w.

(** *** handleDistanceChange, for the edge an overlay was built for *)

Definition handleDistanceChange (o : DistanceOverlay) (newDistance : float) (w : World)
  : Outcome :=
  let p1 := edge_p1 o in
  let p2 := edge_p2 o in
  let currentDistance := computeDistanceBetween p1 p2 in
  let ratio := (newDistance / currentDistance)%float in
  let lat' := (lat p1 + (lat p2 - lat p1) * ratio)%float in
  let lng' := (lng p1 + (lng p2 - lng p1) * ratio)%float in
  let newPosition := LatLng_new lat' lng' in
  let n := length (vertices (session w)) in
  if decide (n = 0) then Threw w (* the index is NaN: nothing is stored, then a TypeError *)
  else
    let k := (edge_i o + 1) mod n in
    let w := with_session (fun s => set_vertices (<[k := newPosition]> (vertices s)) s) w in
    match vertexMarkers (session w) !! k with
    | None => Threw w              (* [undefined.setPosition]: TypeError *)
    | Some id =>
        let w := with_objects (alter (update_marker (set_position newPosition)) id) w in
        Returned (updateEdgeMarkers (refresh_polyline w))
    end.

(** The [change] listener of the overlay's input; [newValue] is
    [parseFloat(target.value)]. *)
Definition onInputChange (id : nat) (newValue : float) (w : World) : Outcome :=
  match get_overlay w id with
  | Some o =>
      match div o with
      | Some d =>
          if JS.isNaN newValue then Returned w
          else
            let meters :=
              if String.eqb (unit d) "km" then (newValue * 1000)%float else newValue in
            handleDistanceChange o meters w
      | None => Returned w
      end
  | None => Returned w
  end.

(** *** The map click listener of [startDrawing] *)

Definition onMapClick (latLng : option LatLng) (w : World) : World :=
  match latLng, tempPolyline (session w) with
  | Some p, Some _ =>
      let w := with_session (fun s => set_vertices (vertices s ++ [p]) s) w in
      let '(marker, w) := alloc (AMarker (circle_vertex p)) w in
      let w := with_session (fun s => set_vertexMarkers (vertexMarkers s ++ [marker]) s) w in
      updateEdgeMarkers (refresh_polyline w)
  | _, _ => w
  end.

(** *** Listeners of a vertex marker of the session

    The marker made by a map click and the one made when a midpoint
    handle is dropped carry the same three listeners. *)

Definition show_ghost (id : nat) (m : Marker) (w : World) : World :=
  let '(ghost, w) := alloc (AMarker (drag_ghost (position m))) w in
  with_objects
    (alter (update_marker (fun m => set_opacity 0 (set_dragMarker (Some ghost) m))) id) w.

Definition move_ghost (m : Marker) (p : LatLng) (w : World) : World :=
  match dragMarker m with
  | Some ghost => with_objects (alter (update_marker (set_position p)) ghost) w
  | None => w
  end.

Definition hide_ghost (id : nat) (m : Marker) (w : World) : World :=
  let w :=
    match dragMarker m with
    | Some ghost => with_objects (alter setMap_null ghost) w
    | None => w
    end in
  with_objects
    (alter (update_marker (fun m => set_opacity 1 (set_dragMarker None m))) id) w.

Definition vertex_dragstart (id : nat) (m : Marker) (w : World) : World :=
  show_ghost id m w.

Definition vertex_drag (id : nat) (m : Marker) (latLng : option LatLng) (w : World) : World :=
  match latLng with
  | None => w
  | Some p =>
      match indexOf id (vertexMarkers (session w)) with
      | None => w
      | Some index =>
          let w :=
            with_session (fun s => set_vertices (<[index := p]> (vertices s)) s) w in
          let w := move_ghost m p w in
          updateEdgeMarkers (refresh_polyline w)
      end
  end.

Definition vertex_dragend (id : nat) (m : Marker) (w : World) : World :=
  hide_ghost id m w.

(** *** Listeners of the midpoint handle of edge [i] *)

Definition handle_dragstart (id : nat) (m : Marker) (i : nat) (w : World) : World :=
  let position := position m in
  let w := show_ghost id m w in
  let original := vertices (session w) in
  let tempVertices := splice_in (i + 1) position original in
  let w := with_session (set_vertices tempVertices) w in
  with_objects (alter (update_marker (set_drag_props (i + 1) original position)) id) w.

Definition handle_drag (id : nat) (m : Marker) (latLng : option LatLng) (w : World) : World :=
  match latLng, tempPolyline (session w) with
  | Some p, Some _ =>
      let w := move_ghost m p w in
      match tempVertexIndex m with
      | Some tempVertexIndex =>
          let w :=
            with_session
              (fun s => set_vertices (<[tempVertexIndex := p]> (vertices s)) s) w in
          refresh_polyline w
      | None => w
      end
  | _, _ => w
  end.

Definition handle_dragend (id : nat) (m : Marker) (latLng : option LatLng) (w : World)
  : World :=
  let w := hide_ghost id m w in
  match latLng with
  | None => w
  | Some p =>
      match tempVertexIndex m with
      | Some tempVertexIndex =>
          let w :=
            with_session
              (fun s => set_vertices (<[tempVertexIndex := p]> (vertices s)) s) w in
          let '(vertexMarker, w) := alloc (AMarker (circle_vertex p)) w in
          let w :=
            with_session
              (fun s =>
                 set_vertexMarkers (splice_in tempVertexIndex vertexMarker (vertexMarkers s)) s)
              w in
          let w := refresh_polyline w in
          let w := dispose_all (edgeMarkers (session w)) w in
          let w := with_session (set_edgeMarkers []) w in
          let w := with_objects (alter setMap_null id) w in
          updateEdgeMarkers w
      | None => w
      end
  end.

(** *** onPolygonComplete and the listeners it installs *)

Definition update_polygon (k : nat) (f : Polygon -> Polygon) (w : World) : World :=
  map_polygons (fun l => alter f k l) w.

(** The body left in the loop creates nothing: the old markers go and the
    property is set to the empty array. *)
Definition addEdgeMarkers (k : nat) (w : World) : World :=
  match fieldPolygons w !! k with
  | Some g =>
      let w := dispose_all (pg_edgeMarkers g) w in
      update_polygon k (set_pg_edgeMarkers []) w
  | None => w
  end.

Definition add_polygon_vertex (k : nat) (w : World) (ip : nat * LatLng) : World :=
  let '(i, vertex) := ip in
  let '(marker, w) := alloc (AMarker (polygon_vertex vertex k i)) w in
  update_polygon k (fun g => set_pg_vertexMarkers (pg_vertexMarkers g ++ [marker]) g) w.

Definition onPolygonComplete (ring : list LatLng) (w : World) : World :=
  let k := length (fieldPolygons w) in
  let w := setFieldPolygons (fun prev => prev ++ [mkPolygon ring [] []]) w in
  let w := setIsDrawingMode false w in
  let w := foldl (add_polygon_vertex k) w (imap pair ring) in
  addEdgeMarkers k w.

(** The [drag] listener of a polygon vertex marker: [path.setAt(i, latLng)]. *)
Definition polygon_vertex_drag (k i : nat) (latLng : option LatLng) (w : World) : World :=
  match latLng with
  | None => w
  | Some p =>
      let w := update_polygon k (fun g => set_path (<[i := p]> (path g)) g) w in
      addEdgeMarkers k w
  end.

(** The [insert_at] listener on the path. *)
Definition on_insert_at (k index : nat) (w : World) : World :=
  match fieldPolygons w !! k with
  | Some g =>
      match path g !! index with
      | None => w
      | Some vertex =>
          let '(marker, w) := alloc (AMarker (polygon_vertex vertex k index)) w in
          update_polygon k
            (fun g => set_pg_vertexMarkers (splice_in index marker (pg_vertexMarkers g)) g) w
      end
  | None => w
  end.

(** [path.insertAt(index, p)]: the element is spliced in, then the
    [insert_at] listeners run. *)
Definition insertAt (k index : nat) (p : LatLng) (w : World) : World :=
  let w := update_polygon k (fun g => set_path (splice_in index p (path g)) g) w in
  on_insert_at k index w.

(** The [onClick] of the rendered [<Polygon>] number [k]. *)
Definition onPolygonClick (k : nat) (edge vertex : option nat) (latLng : option LatLng)
    (w : World) : World :=
  match edge, vertex, latLng with
  | Some e, None, Some p => insertAt k (e + 1) p w
  | _, _, _ => w
  end.

(** *** The map double-click listener *)

Definition onMapDblClick (w : World) : World :=
  let s := session w in
  if decide (3 <= length (vertices s)) then
    let ring := vertices s in
    let w := with_session (set_tempPolyline None) w in
    let w := dispose_all (vertexMarkers s) w in
    let w := dispose_all (edgeMarkers s) w in
    let w := with_session (fun s => set_edgeMarkers [] (set_vertexMarkers [] s)) w in
    let w := with_session (set_listeners false false) w in
    onPolygonComplete ring w
  else w.

(** *** The effects *)

(** [startDrawing]: a fresh polyline, empty arrays, both listeners. *)
Definition startDrawing : Session :=
  mkSession (Some (mkPolyline [] true)) [] [] [] true true.

(** The effect on [isDrawingMode]: the clean-up of the previous closure
    takes its polyline, markers and listeners off the map, then
    [setupAutoClosePolygon] runs again with fresh variables. *)
Definition drawing_effect (w : World) : World :=
  let s := session w in
  let w := dispose_all (vertexMarkers s) w in
  let w := dispose_all (edgeMarkers s) w in
  let w := with_session (fun _ => if isDrawingMode w then startDrawing else emptySession) w in
  set_committed (isDrawingMode w) (area_committed w) (hostCalls w) w.

Definition totalArea (polygons : list Polygon) : float :=
  foldl (fun sum polygon => (sum + computeArea (path polygon) / 10000)%float) 0%float polygons.

(** The effect on [fieldPolygons]. *)
Definition area_effect (w : World) : World :=
  let calls :=
    if onAreaUpdate && bool_decide (0 < length (fieldPolygons w))
    then hostCalls w ++ [totalArea (fieldPolygons w)]
    else hostCalls w in
  set_committed (drawing_committed w) (fieldPolygons_ref w) calls w.

(** After a listener, React renders and runs the effects whose
    dependencies changed identity: the drawing effect on [isDrawingMode],
    the area effect on [fieldPolygons] and on the function the host passed
    as [onAreaUpdate]. *)
Definition commit (newCallback : bool) (w : World) : World :=
  let w := if Bool.eqb (isDrawingMode w) (drawing_committed w) then w else drawing_effect w in
  if decide (fieldPolygons_ref w = area_committed w)
  then (if newCallback then area_effect w else w)
  else area_effect w.

(** *** Dispatch *)

(** A dragged marker follows the pointer before its listener runs. *)
Definition follow (id : nat) (latLng : option LatLng) (w : World) : World :=
  match latLng with
  | Some p => with_objects (alter (update_marker (set_position p)) id) w
  | None => w
  end.

Definition on_dragstart (id : nat) (m : Marker) (w : World) : World :=
  match role m with
  | SessionVertex => vertex_dragstart id m w
  | EdgeHandle i => handle_dragstart id m i w
  | DragGhost | PolygonVertex _ _ => w
  end.

Definition on_drag (id : nat) (m : Marker) (latLng : option LatLng) (w : World) : World :=
  match role m with
  | SessionVertex => vertex_drag id m latLng w
  | EdgeHandle _ => handle_drag id m latLng w
  | PolygonVertex k i => polygon_vertex_drag k i latLng w
  | DragGhost => w
  end.

Definition on_dragend (id : nat) (m : Marker) (latLng : option LatLng) (w : World) : World :=
  match role m with
  | SessionVertex => vertex_dragend id m w
  | EdgeHandle _ => handle_dragend id m latLng w
  | DragGhost | PolygonVertex _ _ => w
  end.

(** Only a draggable marker that is on the map receives drag events. *)
Definition target (w : World) (id : nat) : option Marker :=
  match get_marker w id with
  | Some m => if onMap m && draggable m then Some m else None
  | None => None
  end.

Definition listener (e : Event) (w : World) : Outcome :=
  match e with
  | CreateField => Returned (setIsDrawingMode true w)
  | MapClick latLng =>
      Returned (if mapClickListener (session w) then onMapClick latLng w else w)
  | MapDblClick _ =>
      Returned (if mapDblClickListener (session w) then onMapDblClick w else w)
  | DragStart id =>
      Returned (match target w id with Some m => on_dragstart id m w | None => w end)
  | Drag id latLng =>
      Returned (match target w id with
                | Some m => on_drag id m latLng (follow id latLng w)
                | None => w
                end)
  | DragEnd id latLng =>
      Returned (match target w id with
                | Some m => on_dragend id m latLng (follow id latLng w)
                | None => w
                end)
  | InputChange id newValue => onInputChange id newValue w
  | PolygonClick k edge vertex latLng =>
      Returned (if decide (k < length (fieldPolygons w))
                then onPolygonClick k edge vertex latLng w else w)
  | HostRender => Returned w
  end.

(** Only a render of the host can bring a new [onAreaUpdate]. *)
Definition new_callback (e : Event) : bool :=
  match e with HostRender => true | _ => false end.

Definition step (w : World) (e : Event) : World :=
  commit (new_callback e) (world_of (listener e w)).

Definition run (es : list Event) : World := foldl step initial es.

(** *** Observations used in the statements *)


Definition is_shown (w : World) (id : nat) : bool :=
  match objects w !! id with Some o => shown o | None => false end.

(** The far end of edge [i]: [vertices[(i + 1) % vertices.length]]. *)
Definition far_end (vs : list LatLng) (i : nat) (p1 : LatLng) : LatLng :=
  default p1 (vs !! ((i + 1) mod length vs)).

Definition mean_point (p1 p2 : LatLng) : LatLng :=
  mkLatLng ((lat p1 + lat p2) / 2)%float ((lng p1 + lng p2) / 2)%float.

(** The label and the handle one turn of the loop puts on the map. *)
Definition label_for (vs : list LatLng) (i : nat) (p1 : LatLng) : DistanceOverlay :=
  let p2 := far_end vs i p1 in
  onAdd (mkOverlay (mean_point p1 p2) (distanceText (computeDistanceBetween p1 p2))
           0%float p1 p2 i None).

Definition handle_for (vs : list LatLng) (i : nat) (p1 : LatLng) : Marker :=
  edge_handle (mean_point p1 (far_end vs i p1)) i.

(** Identities handed out by [n] turns of the loop, starting at [base]. *)
Fixpoint edge_ids (base n : nat) : list nat :=
  match n with
  | 0 => []
  | S n' => base :: S base :: edge_ids (S (S base)) n'
  end.

(** The number of edges [updateEdgeMarkers] draws for [n] vertices. *)
Definition edges_drawn (n : nat) : nat := if decide (2 <= n) then n else 0.

(** Object [id], if there is one, is off the map. *)
Definition hidden (h : gmap nat MapObject) (id : nat) : Prop :=
  forall o, h !! id = Some o -> shown o = false.


(** Listeners only, without the render that follows them. *)
Definition listeners (es : list Event) (w : World) : World :=
  foldl (fun w e => world_of (listener e w)) w es.







(** Every object carries an identity handed out earlier. *)
Definition well_formed (w : World) : Prop :=
  map_Forall (fun id _ => id < fresh w) (objects w).

(** Edge handle [h] of edge [i] is being dragged: it is on the map and
    remembers where its provisional vertex sits. *)
Definition in_flight (w : World) (h i : nat) : Prop :=
  exists m, get_marker w h = Some m /\ onMap m = true /\ draggable m = true /\
            role m = EdgeHandle i /\ tempVertexIndex m = Some (i + 1).

(** Updates of a marker that leave its wiring alone. *)
Definition keeps_wiring (f : Marker -> Marker) : Prop :=
  forall m, onMap (f m) = onMap m /\ draggable (f m) = draggable m /\
            role (f m) = role m /\ tempVertexIndex (f m) = tempVertexIndex m.

(** Every object satisfies [P] and carries an identity handed out
    earlier. *)
Definition good (P : MapObject -> Prop) (w : World) : Prop :=
  map_Forall (fun id o => id < fresh w /\ P o) (objects w).

(** A label is drawn straight: angle 0 and no rotation on its box. *)
Definition upright (o : MapObject) : Prop :=
  match o with
  | AnOverlay o =>
      angle o = 0%float /\
      forall d, div o = Some d -> forall deg, rotate deg ∉ transform d
  | AMarker _ => True
  end.


(** The point a distance edit stores for the far end of edge [A, B]: the
    difference of the coordinates scaled by [desired / current], handed to
    the constructor of the Maps library. *)
Definition scaled_far_end (A B : LatLng) (desired : float) : LatLng :=
  let ratio := (desired / computeDistanceBetween A B)%float in
  LatLng_new (lat A + (lat B - lat A) * ratio)%float
             (lng A + (lng B - lng A) * ratio)%float.


(** The React state and what the effects remember of it are the same in
    both worlds. *)
Definition same_react_state (w w' : World) : Prop :=
  isDrawingMode w' = isDrawingMode w /\ drawing_committed w' = drawing_committed w /\
  fieldPolygons_ref w' = fieldPolygons_ref w /\ area_committed w' = area_committed w /\
  hostCalls w' = hostCalls w.

(** Nothing is waiting for the next render. *)
Definition rendered (w : World) : Prop :=
  isDrawingMode w = drawing_committed w /\ fieldPolygons_ref w = area_committed w.

(** *** What the session keeps track of *)

(** A vertex marker of the drawing session. *)
Definition is_session_vertex (o : MapObject) : bool :=
  match o with
  | AMarker m => match role m with SessionVertex => true | _ => false end
  | AnOverlay _ => false
  end.

(** A distance label or a midpoint handle. *)
Definition is_edge_visual (o : MapObject) : bool :=
  match o with
  | AMarker m => match role m with EdgeHandle _ => true | _ => false end
  | AnOverlay _ => true
  end.

(** Every vertex marker, label and handle that is on the map is held in
    the session's arrays. *)
Definition tracked (w : World) : Prop :=
  forall id o, objects w !! id = Some o -> shown o = true ->
    (is_session_vertex o = true -> id ∈ vertexMarkers (session w)) /\
    (is_edge_visual o = true -> id ∈ edgeMarkers (session w)).

(** Updates of a marker that neither change its wiring nor put it back on
    the map. *)
Definition keeps_kind (f : Marker -> Marker) : Prop :=
  forall m, role (f m) = role m /\ onMap (f m) = onMap m.

(** *** What most listeners leave alone *)

Definition has_polyline (s : Session) : bool :=
  match tempPolyline s with Some _ => true | None => false end.

(** The React state, what the effects remember, the host's log, the number
    of registered polygons, and whether the session listens and has its
    polyline. *)
Definition summary (w : World)
  : bool * bool * nat * nat * list float * nat * bool * bool * bool :=
  (isDrawingMode w, drawing_committed w, fieldPolygons_ref w, area_committed w,
   hostCalls w, length (fieldPolygons w),
   mapClickListener (session w), mapDblClickListener (session w),
   has_polyline (session w)).

(** The drawing session is in step with [isDrawingMode]: off, the closure
    holds nothing and listens to nothing; on, both listeners are registered
    and the polyline exists. *)
Definition in_step (w : World) : Prop :=
  rendered w /\
  (isDrawingMode w = false -> session w = emptySession) /\
  (isDrawingMode w = true ->
     mapClickListener (session w) = true /\ mapDblClickListener (session w) = true /\
     has_polyline (session w) = true).


(** The host has heard one total per registered polygon, and the identity
    of the state array counts the registrations. *)
Definition accounted (w : World) (n : nat) : Prop :=
  fieldPolygons_ref w = length (fieldPolygons w) /\
  length (hostCalls w) = (if onAreaUpdate then length (fieldPolygons w) + n else 0).

(** Event [e] is a render with a new [onAreaUpdate] while at least one
    polygon is registered. *)
Definition hears (w : World) (e : Event) : nat :=
  if new_callback e && bool_decide (0 < length (fieldPolygons w)) then 1 else 0.

(** How many events of [es] were such renders. *)
Definition heard (es : list Event) : nat :=
  fst (foldl (fun nw e => (fst nw + hears (snd nw) e, step (snd nw) e)) (0, initial) es).

(** A label shows the length of the edge its closure captured, sits at the
    mean of the two endpoints, and the unit beside its input is read off
    the text. *)
Definition faithful_label (o : MapObject) : Prop :=
  match o with
  | AnOverlay o =>
      content o = distanceText (computeDistanceBetween (edge_p1 o) (edge_p2 o)) /\
      ov_position o = mean_point (edge_p1 o) (edge_p2 o) /\
      forall d, div o = Some d ->
        unit d = if JS.includes (content o) "km" then "km" else "m"
  | AMarker _ => True
  end.

(** *** What the session's arrays hold *)

(** [id] is a vertex marker of the session, on the map and draggable. *)
Definition vertex_ok (w : World) (id : nat) : Prop :=
  exists m, objects w !! id = Some (AMarker m) /\ role m = SessionVertex /\
            onMap m = true /\ draggable m = true.

(** [id] is a label or a handle, on the map. *)
Definition edge_ok (w : World) (id : nat) : Prop :=
  exists o, objects w !! id = Some o /\ is_edge_visual o = true /\ shown o = true.

(** [g] is a red pin made for a drag. *)
Definition ghost_at (w : World) (g : nat) : Prop :=
  exists mg, objects w !! g = Some (AMarker mg) /\ role mg = DragGhost.

(** The session's arrays hold live objects of the right kind, no vertex
    marker twice; a marker's [dragMarker] variable holds a red pin; and no
    registered polygon carries edge markers. *)
Definition listed (w : World) : Prop :=
  well_formed w /\
  NoDup (vertexMarkers (session w)) /\
  (forall id, id ∈ vertexMarkers (session w) -> vertex_ok w id) /\
  (forall id, id ∈ edgeMarkers (session w) -> edge_ok w id) /\
  (forall id m g, objects w !! id = Some (AMarker m) -> dragMarker m = Some g ->
                  ghost_at w g) /\
  (forall k g, fieldPolygons w !! k = Some g -> pg_edgeMarkers g = []).

(** Updates of a marker that keep what [listed] looks at; a new
    [dragMarker] must be a red pin of [w]. *)
Definition keeps_listing (w : World) (f : Marker -> Marker) : Prop :=
  forall m, role (f m) = role m /\ onMap (f m) = onMap m /\
            draggable (f m) = draggable m /\
            forall g, dragMarker (f m) = Some g -> dragMarker m = Some g \/ ghost_at w g.

(** Every polygon of [l] is still at its place in [l'], with at least as
    many vertices and vertex markers. *)
Definition kept (l l' : list Polygon) : Prop :=
  forall k g, l !! k = Some g ->
    exists g', l' !! k = Some g' /\ length (path g) <= length (path g') /\
               length (pg_vertexMarkers g) <= length (pg_vertexMarkers g').

(** ** Properties *)

(** *** The loop of [updateEdgeMarkers] *)

Lemma edge_ids_length base n : length (edge_ids base n) = 2 * n.
Proof. revert base; induction n as [|n IH]; intros base; simpl; [done|]. rewrite IH. lia. Qed.

Lemma edge_ids_lookup base n j :
  j < n ->
  edge_ids base n !! (2 * j) = Some (base + 2 * j) /\
  edge_ids base n !! (2 * j + 1) = Some (base + 2 * j + 1).
Proof.
  revert base j; induction n as [|n IH]; intros base j Hj; [lia|].
  destruct j as [|j].
  - simpl. split; f_equal; lia.
  - destruct (IH (S (S base)) j) as [E1 E2]; [lia|].
    replace (2 * S j + 1) with (S (S (2 * j + 1))) by lia.
    replace (2 * S j) with (S (S (2 * j))) by lia.
    change (edge_ids base (S n) !! S (S (2 * j)))
      with (edge_ids (S (S base)) n !! (2 * j)).
    change (edge_ids base (S n) !! S (S (2 * j + 1)))
      with (edge_ids (S (S base)) n !! (2 * j + 1)).
    rewrite E1, E2. split; f_equal; lia.
Qed.


Lemma add_edge_unfold w i p1 :
  add_edge w (i, p1) =
  mkWorld
    (<[S (fresh w) := AMarker (handle_for (vertices (session w)) i p1)]>
       (<[fresh w := AnOverlay (label_for (vertices (session w)) i p1)]> (objects w)))
    (S (S (fresh w)))
    (set_edgeMarkers ((edgeMarkers (session w) ++ [fresh w]) ++ [S (fresh w)]) (session w))
    (isDrawingMode w) (fieldPolygons w) (fieldPolygons_ref w)
    (drawing_committed w) (area_committed w) (hostCalls w).
Proof. reflexivity. Qed.

Lemma foldl_add_edge_shape l w :
  foldl add_edge w l =
  mkWorld (objects (foldl add_edge w l)) (fresh w + 2 * length l)
    (set_edgeMarkers (edgeMarkers (session w) ++ edge_ids (fresh w) (length l)) (session w))
    (isDrawingMode w) (fieldPolygons w) (fieldPolygons_ref w)
    (drawing_committed w) (area_committed w) (hostCalls w).
Proof.
  revert w; induction l as [|[i p1] l IH]; intros w.
  - destruct w as [? ? [] ? ? ? ? ? ?]; simpl. unfold set_edgeMarkers; simpl.
    rewrite app_nil_r. f_equal. lia.
  - change (foldl add_edge w ((i, p1) :: l)) with (foldl add_edge (add_edge w (i, p1)) l).
    rewrite IH at 1. rewrite add_edge_unfold. simpl.
    unfold set_edgeMarkers; simpl. f_equal; [lia|].
    f_equal. rewrite <- !app_assoc. reflexivity.
Qed.

Lemma foldl_add_edge_old l w id :
  id < fresh w -> objects (foldl add_edge w l) !! id = objects w !! id.
Proof.
  revert w; induction l as [|[i p1] l IH]; intros w Hid; [done|].
  change (foldl add_edge w ((i, p1) :: l)) with (foldl add_edge (add_edge w (i, p1)) l).
  rewrite IH by (rewrite add_edge_unfold; simpl; lia).
  rewrite add_edge_unfold; simpl.
  rewrite !lookup_insert_ne by lia. reflexivity.
Qed.

Lemma foldl_add_edge_new l w j i p1 :
  l !! j = Some (i, p1) ->
  objects (foldl add_edge w l) !! (fresh w + 2 * j)
    = Some (AnOverlay (label_for (vertices (session w)) i p1)) /\
  objects (foldl add_edge w l) !! (fresh w + 2 * j + 1)
    = Some (AMarker (handle_for (vertices (session w)) i p1)).
Proof.
  revert w j; induction l as [|[i' p1'] l IH]; intros w j Hj; [done|].
  change (foldl add_edge w ((i', p1') :: l)) with (foldl add_edge (add_edge w (i', p1')) l).
  destruct j as [|j].
  - simpl in Hj. injection Hj as -> ->.
    rewrite !foldl_add_edge_old by (rewrite add_edge_unfold; simpl; lia).
    rewrite add_edge_unfold; simpl.
    replace (fresh w + 0) with (fresh w) by lia.
    replace (fresh w + 1) with (S (fresh w)) by lia.
    rewrite lookup_insert_eq.
    rewrite lookup_insert_ne by lia. rewrite lookup_insert_eq. done.
  - simpl in Hj. destruct (IH (add_edge w (i', p1')) j Hj) as [E1 E2].
    rewrite add_edge_unfold in E1, E2 at 2 3. simpl in E1, E2.
    replace (fresh w + 2 * S j) with (S (S (fresh w)) + 2 * j) by lia.
    split; assumption.
Qed.

(** *** Disposal *)

Lemma disposal_elsewhere ids (h : gmap nat MapObject) id :
  id ∉ ids -> foldl (fun h id => alter setMap_null id h) h ids !! id = h !! id.
Proof.
  revert h; induction ids as [|a ids IH]; intros h Hid; [done|].
  apply not_elem_of_cons in Hid as [Hne Hid]. simpl.
  rewrite IH by done. by rewrite lookup_alter_ne.
Qed.

Lemma disposal_keeps_hidden ids (h : gmap nat MapObject) id :
  hidden h id -> hidden (foldl (fun h id => alter setMap_null id h) h ids) id.
Proof.
  revert h; induction ids as [|a ids IH]; intros h Hh; [done|].
  simpl. apply IH. intros o Ho.
  destruct (decide (a = id)) as [->|Hne].
  - rewrite lookup_alter_eq in Ho.
    destruct (h !! id) as [o'|]; [|done]. injection Ho as <-.
    by destruct o'.
  - rewrite lookup_alter_ne in Ho by done. by apply Hh.
Qed.

Lemma disposal_hides ids (h : gmap nat MapObject) id :
  id ∈ ids -> hidden (foldl (fun h id => alter setMap_null id h) h ids) id.
Proof.
  revert h; induction ids as [|a ids IH]; intros h Hid.
  - by apply elem_of_nil in Hid.
  - simpl. destruct (decide (a = id)) as [->|Hne].
    + apply disposal_keeps_hidden. intros o Ho.
      rewrite lookup_alter_eq in Ho.
      destruct (h !! id) as [o'|]; [|done]. injection Ho as <-.
      by destruct o'.
    + apply IH. apply elem_of_cons in Hid as [->|Hid]; [done|exact Hid].
Qed.

Lemma hidden_not_shown w id : hidden (objects w) id -> is_shown w id = false.
Proof.
  unfold hidden, is_shown. intros H.
  destruct (objects w !! id) as [o|]; [by apply H|done].
Qed.

(** *** What one rebuild leaves behind *)

Lemma updateEdgeMarkers_shape w :
  updateEdgeMarkers w =
  mkWorld (objects (updateEdgeMarkers w))
    (fresh w + 2 * edges_drawn (length (vertices (session w))))
    (set_edgeMarkers
       (edge_ids (fresh w) (edges_drawn (length (vertices (session w))))) (session w))
    (isDrawingMode w) (fieldPolygons w) (fieldPolygons_ref w)
    (drawing_committed w) (area_committed w) (hostCalls w).
Proof.
  unfold updateEdgeMarkers, edges_drawn. simpl.
  destruct (decide (2 <= length (vertices (session w)))) as [Hn|Hn].
  - rewrite foldl_add_edge_shape at 1. simpl. rewrite length_imap.
    destruct w as [? ? [] ? ? ? ? ? ?]; reflexivity.
  - destruct w as [? ? [] ? ? ? ? ? ?].
    unfold with_session, dispose_all, with_objects, set_edgeMarkers; simpl.
    f_equal. lia.
Qed.


Lemma updateEdgeMarkers_edge w i p1 :
  2 <= length (vertices (session w)) ->
  vertices (session w) !! i = Some p1 ->
  let w' := updateEdgeMarkers w in
  edgeMarkers (session w') !! (2 * i) = Some (fresh w + 2 * i) /\
  edgeMarkers (session w') !! (2 * i + 1) = Some (fresh w + 2 * i + 1) /\
  objects w' !! (fresh w + 2 * i)
    = Some (AnOverlay (label_for (vertices (session w)) i p1)) /\
  objects w' !! (fresh w + 2 * i + 1)
    = Some (AMarker (handle_for (vertices (session w)) i p1)).
Proof.
  intros Hn Hi w'.
  assert (Hlt : i < length (vertices (session w))) by (eapply lookup_lt_Some; eauto).
  subst w'. rewrite updateEdgeMarkers_shape. simpl.
  unfold edges_drawn. rewrite decide_True by done.
  destruct (edge_ids_lookup (fresh w) _ i Hlt) as [E1 E2].
  split; [exact E1|]. split; [exact E2|].
  unfold updateEdgeMarkers. simpl. rewrite decide_True by done.
  apply (foldl_add_edge_new (imap pair (vertices (session w)))
           (with_session (set_edgeMarkers []) (dispose_all (edgeMarkers (session w)) w))).
  rewrite list_lookup_imap, Hi. reflexivity.
Qed.

Lemma updateEdgeMarkers_old w id :
  id < fresh w ->
  objects (updateEdgeMarkers w) !! id
    = objects (dispose_all (edgeMarkers (session w)) w) !! id.
Proof.
  intros Hid. unfold updateEdgeMarkers. simpl.
  destruct (decide _); [|done].
  by rewrite foldl_add_edge_old.
Qed.

(** *** Session arithmetic of the listeners *)

Lemma refresh_polyline_shape w :
  exists pl, refresh_polyline w = with_session (set_tempPolyline pl) w.
Proof.
  unfold refresh_polyline, setPath.
  destruct (tempPolyline (session w)) as [pl|] eqn:E.
  - eexists. unfold with_session. rewrite E. reflexivity.
  - exists None. unfold with_session. rewrite E.
    destruct w as [? ? [] ? ? ? ? ? ?]; simpl in *. by subst.
Qed.

Lemma splice_in_length {A} i (x : A) l : length (splice_in i x l) = S (length l).
Proof.
  unfold splice_in. rewrite length_app. simpl. rewrite length_take, length_drop. lia.
Qed.

Lemma splice_in_lookup {A} i (x : A) l : i <= length l -> splice_in i x l !! i = Some x.
Proof.
  intros Hi. unfold splice_in.
  rewrite lookup_app_r by (rewrite length_take; lia).
  rewrite length_take. replace (i - i `min` length l) with 0 by lia. reflexivity.
Qed.


(** *** A midpoint handle from pick-up to drop *)

Lemma target_Some w h m :
  target w h = Some m ->
  objects w !! h = Some (AMarker m) /\ onMap m = true /\ draggable m = true.
Proof.
  unfold target, get_marker. intros H.
  destruct (objects w !! h) as [[m'|]|]; try done.
  destruct (onMap m') eqn:E1, (draggable m') eqn:E2; try done.
  injection H as <-. done.
Qed.

Lemma in_flight_target w h i :
  in_flight w h i ->
  exists m, target w h = Some m /\ role m = EdgeHandle i /\ tempVertexIndex m = Some (i + 1).
Proof.
  intros (m & Hm & H1 & H2 & H3 & H4). exists m.
  unfold target. rewrite Hm, H1, H2. done.
Qed.

Lemma in_flight_alter w h i f id :
  keeps_wiring f -> in_flight w h i ->
  in_flight (with_objects (alter (update_marker f) id) w) h i.
Proof.
  intros Hf (m & Hm & H1 & H2 & H3 & H4).
  unfold in_flight, get_marker in *. cbn [with_objects objects].
  destruct (objects w !! h) as [[m'|]|] eqn:E; try done. injection Hm as ->.
  destruct (decide (id = h)) as [->|Hne].
  - exists (f m). rewrite lookup_alter_eq, E. simpl.
    destruct (Hf m) as (-> & -> & -> & ->). done.
  - exists m. rewrite lookup_alter_ne, E by done. done.
Qed.

Lemma in_flight_session w h i f : in_flight w h i -> in_flight (with_session f w) h i.
Proof. done. Qed.

Lemma keeps_wiring_set_position p : keeps_wiring (set_position p).
Proof. by intros m. Qed.

Lemma dragstart_handle w h m i :
  well_formed w -> target w h = Some m -> role m = EdgeHandle i ->
  let w1 := world_of (listener (DragStart h) w) in
  in_flight w1 h i /\
  vertices (session w1) = splice_in (i + 1) (position m) (vertices (session w)) /\
  vertexMarkers (session w1) = vertexMarkers (session w).
Proof.
  intros Hwf Ht Hr. cbn [listener world_of new_callback]. rewrite Ht.
  unfold on_dragstart. rewrite Hr.
  apply target_Some in Ht as (Hm & Hon & Hdr).
  assert (Hne : fresh w <> h) by (apply Hwf in Hm; lia).
  unfold handle_dragstart, show_ghost.
  cbn [alloc add_object with_objects with_session session objects vertices vertexMarkers
         set_vertices].
  split; [|done].
  unfold in_flight, get_marker. cbn [objects with_objects with_session add_object].
  rewrite !lookup_alter_eq, lookup_insert_ne, Hm by done. simpl.
  eexists; split; [reflexivity|]. simpl. done.
Qed.

Lemma drag_handle w h i q :
  in_flight w h i ->
  let w1 := world_of (listener (Drag h q) w) in
  in_flight w1 h i /\
  length (vertices (session w1)) = length (vertices (session w)) /\
  vertexMarkers (session w1) = vertexMarkers (session w).
Proof.
  intros Hin. cbn [listener world_of new_callback].
  destruct (in_flight_target _ _ _ Hin) as (m & -> & Hr & Hidx).
  unfold on_drag. rewrite Hr. unfold handle_drag.
  assert (Hin' : in_flight (follow h q w) h i).
  { unfold follow. destruct q; [|done].
    apply in_flight_alter; [apply keeps_wiring_set_position|done]. }
  assert (Hs : session (follow h q w) = session w) by (unfold follow; by destruct q).
  destruct q as [p|]; [|by rewrite Hs].
  rewrite Hs. destruct (tempPolyline (session w)) eqn:Hpl;
    [|change (session (follow h (Some p) w)) with (session w); done].
  rewrite Hidx.
  match goal with |- context [refresh_polyline ?x] => set (w1 := x) end.
  destruct (refresh_polyline_shape w1) as [pl' ->].
  assert (Hin1 : in_flight w1 h i).
  { subst w1. apply in_flight_session. unfold move_ghost.
    destruct (dragMarker m); [|done].
    apply in_flight_alter; [apply keeps_wiring_set_position|done]. }
  split; [by apply in_flight_session|].
  subst w1. unfold move_ghost.
  destruct (dragMarker m); cbn; rewrite length_insert; done.
Qed.

Lemma hide_ghost_session id m w : session (hide_ghost id m w) = session w.
Proof. unfold hide_ghost. by destruct (dragMarker m). Qed.

Lemma hide_ghost_fresh id m w : fresh (hide_ghost id m w) = fresh w.
Proof. unfold hide_ghost. by destruct (dragMarker m). Qed.


(** *** A click on an edge of a completed polygon *)

Lemma onPolygonClick_edge w k g e p :
  fieldPolygons w !! k = Some g -> e < length (path g) ->
  let w' := onPolygonClick k (Some e) None (Some p) w in
  fieldPolygons w' !! k
    = Some (mkPolygon (splice_in (e + 1) p (path g))
              (splice_in (e + 1) (fresh w) (pg_vertexMarkers g)) (pg_edgeMarkers g)) /\
  objects w' = <[fresh w := AMarker (polygon_vertex p k (e + 1))]> (objects w) /\
  session w' = session w /\ hostCalls w' = hostCalls w /\
  fieldPolygons_ref w' = fieldPolygons_ref w.
Proof.
  intros Hk He. cbn [onPolygonClick]. unfold insertAt, on_insert_at, update_polygon.
  cbn [map_polygons fieldPolygons].
  rewrite list_lookup_alter_eq, Hk. cbn [fmap option_fmap option_map set_path path].
  rewrite splice_in_lookup by lia.
  cbn [alloc add_object map_polygons fieldPolygons objects session hostCalls
         fieldPolygons_ref].
  rewrite list_lookup_alter_eq, list_lookup_alter_eq, Hk. done.
Qed.

Lemma drags_handle qs : forall w h i,
  in_flight w h i ->
  let w1 := listeners (map (Drag h) qs) w in
  in_flight w1 h i /\
  length (vertices (session w1)) = length (vertices (session w)) /\
  vertexMarkers (session w1) = vertexMarkers (session w).
Proof.
  induction qs as [|q qs IH]; intros w h i Hin; [done|].
  destruct (drag_handle w h i q Hin) as (Hin1 & Hl1 & Hm1).
  destruct (IH _ h i Hin1) as (Hin2 & Hl2 & Hm2).
  change (listeners (map (Drag h) (q :: qs)) w)
    with (listeners (map (Drag h) qs) (world_of (listener (Drag h q) w))).
  cbv zeta in *. rewrite Hl2, Hm2. done.
Qed.

(** *** Invariants of the object store *)

Section Invariant.

Variable P : MapObject -> Prop.
Hypothesis P_marker : forall m, P (AMarker m).
Hypothesis P_label : forall vs i p1, P (AnOverlay (label_for vs i p1)).
Hypothesis P_removed : forall o, P o -> P (setMap_null o).

Lemma P_update_marker f o : P o -> P (update_marker f o).
Proof using P_marker. destruct o; [intros _; apply P_marker|done]. Qed.

Lemma good_add_object o w : P o -> good P w -> good P (add_object o w).
Proof.
  intros Ho Hw. unfold good, add_object; cbn [objects fresh].
  apply map_Forall_insert_2; [split; [lia|done]|].
  eapply map_Forall_impl; [exact Hw|]. intros id o' [? ?]. split; [lia|done].
Qed.

Lemma good_alter f id w :
  (forall o, P o -> P (f o)) -> good P w -> good P (with_objects (alter f id) w).
Proof.
  intros Hf Hw k o. cbn [with_objects objects fresh].
  rewrite lookup_alter_Some. intros [(-> & o' & Ho' & ->)|[Hne Ho]].
  - destruct (Hw _ _ Ho'). split; [done|by apply Hf].
  - by apply Hw.
Qed.

Lemma good_with_session f w : good P w -> good P (with_session f w).
Proof. done. Qed.

Lemma good_map_polygons f w : good P w -> good P (map_polygons f w).
Proof. done. Qed.

Lemma good_setFieldPolygons f w : good P w -> good P (setFieldPolygons f w).
Proof. done. Qed.

Lemma good_setIsDrawingMode b w : good P w -> good P (setIsDrawingMode b w).
Proof. done. Qed.

Lemma good_set_committed d a c w : good P w -> good P (set_committed d a c w).
Proof. done. Qed.

Lemma good_dispose_all ids w : good P w -> good P (dispose_all ids w).
Proof using P_removed.
  unfold dispose_all. revert w. induction ids as [|a ids IH]; intros w Hw.
  - exact Hw.
  - apply (IH (with_objects (alter setMap_null a) w)). by apply good_alter.
Qed.

Lemma good_refresh_polyline w : good P w -> good P (refresh_polyline w).
Proof. done. Qed.

Lemma good_add_edge w ip : good P w -> good P (add_edge w ip).
Proof using P_marker P_label.
  destruct ip as [i p1]. intros Hw. rewrite add_edge_unfold.
  change (good P (with_session
                    (set_edgeMarkers
                       ((edgeMarkers (session w) ++ [fresh w]) ++ [S (fresh w)]))
                    (add_object (AMarker (handle_for (vertices (session w)) i p1))
                       (add_object (AnOverlay (label_for (vertices (session w)) i p1))
                          w)))).
  apply good_with_session. apply good_add_object; [apply P_marker|].
  apply good_add_object; [apply P_label|done].
Qed.

Lemma good_updateEdgeMarkers w : good P w -> good P (updateEdgeMarkers w).
Proof using P_marker P_label P_removed.
  intros Hw. unfold updateEdgeMarkers. cbv zeta.
  assert (H0 : good P (with_session (set_edgeMarkers [])
                         (dispose_all (edgeMarkers (session w)) w)))
    by (apply good_with_session, good_dispose_all, Hw).
  destruct (decide _) as [Hn|Hn]; [|exact H0].
  set (w0 := with_session (set_edgeMarkers [])
               (dispose_all (edgeMarkers (session w)) w)) in *.
  set (l := imap pair (vertices (session w0))).
  clearbody l. clearbody w0. clear Hn. revert w0 H0.
  induction l as [|ip l IH]; intros w0 H0; [done|].
  simpl. apply IH. by apply good_add_edge.
Qed.

Ltac good_prim :=
  repeat first
    [ assumption
    | match goal with
      | |- good _ (with_session _ _) => apply good_with_session
      | |- good _ (map_polygons _ _) => apply good_map_polygons
      | |- good _ (setFieldPolygons _ _) => apply good_setFieldPolygons
      | |- good _ (setIsDrawingMode _ _) => apply good_setIsDrawingMode
      | |- good _ (set_committed _ _ _ _) => apply good_set_committed
      | |- good _ (refresh_polyline _) => apply good_refresh_polyline
      | |- good _ (dispose_all _ _) => apply good_dispose_all
      | |- good _ (updateEdgeMarkers _) => apply good_updateEdgeMarkers
      | |- good _ (add_object _ _) =>
          apply good_add_object; [first [apply P_marker | apply P_label]|]
      | |- good _ (with_objects (alter _ _) _) =>
          apply good_alter;
          [first [exact P_removed | intros ? ?; apply P_update_marker; assumption]|]
      end ].

Ltac good_handler := intros; cbn [alloc]; repeat case_match; cbn [alloc]; good_prim.

Lemma good_show_ghost id m w : good P w -> good P (show_ghost id m w).
Proof using P_marker. unfold show_ghost. good_handler. Qed.

Lemma good_move_ghost m p w : good P w -> good P (move_ghost m p w).
Proof using P_marker. unfold move_ghost. good_handler. Qed.

Lemma good_hide_ghost id m w : good P w -> good P (hide_ghost id m w).
Proof using P_marker P_removed. unfold hide_ghost. good_handler. Qed.

Lemma good_follow id q w : good P w -> good P (follow id q w).
Proof using P_marker. unfold follow. good_handler. Qed.

Lemma good_onMapClick q w : good P w -> good P (onMapClick q w).
Proof using P_marker P_label P_removed. unfold onMapClick. good_handler. Qed.

Lemma good_on_dragstart id m w : good P w -> good P (on_dragstart id m w).
Proof using P_marker.
  unfold on_dragstart, vertex_dragstart, handle_dragstart. intros.
  repeat case_match; good_prim; by apply good_show_ghost.
Qed.

Lemma good_addEdgeMarkers k w : good P w -> good P (addEdgeMarkers k w).
Proof using P_removed. unfold addEdgeMarkers, update_polygon. good_handler. Qed.

Lemma good_on_drag id m q w : good P w -> good P (on_drag id m q w).
Proof using P_marker P_label P_removed.
  unfold on_drag, vertex_drag, handle_drag, polygon_vertex_drag, update_polygon. intros.
  repeat case_match; good_prim;
    first [by apply good_move_ghost | apply good_addEdgeMarkers; good_prim].
Qed.

Lemma good_on_dragend id m q w : good P w -> good P (on_dragend id m q w).
Proof using P_marker P_label P_removed.
  unfold on_dragend, vertex_dragend, handle_dragend. intros.
  cbn [alloc]. repeat case_match; good_prim; by apply good_hide_ghost.
Qed.

Lemma good_onPolygonComplete ring w : good P w -> good P (onPolygonComplete ring w).
Proof using P_marker P_removed.
  intros Hw. unfold onPolygonComplete. cbv zeta. apply good_addEdgeMarkers.
  set (k := length (fieldPolygons w)).
  assert (H0 : good P (setIsDrawingMode false
                         (setFieldPolygons (fun prev => prev ++ [mkPolygon ring [] []]) w)))
    by good_prim.
  revert H0. generalize (setIsDrawingMode false
                           (setFieldPolygons (fun prev => prev ++ [mkPolygon ring [] []]) w)).
  generalize (imap pair ring). clearbody k.
  induction l as [|[i v] l IH]; intros w0 H0; [done|].
  simpl. apply IH. unfold update_polygon. good_prim.
Qed.

Lemma good_onMapDblClick w : good P w -> good P (onMapDblClick w).
Proof using P_marker P_removed.
  unfold onMapDblClick. intros. cbv zeta. case_match; [|done].
  apply good_onPolygonComplete. good_prim.
Qed.

Lemma good_onPolygonClick k e v q w : good P w -> good P (onPolygonClick k e v q w).
Proof using P_marker.
  unfold onPolygonClick, insertAt, on_insert_at, update_polygon. good_handler.
Qed.

Lemma good_onInputChange id x w : good P w -> good P (world_of (onInputChange id x w)).
Proof using P_marker P_label P_removed.
  unfold onInputChange, handleDistanceChange. intros.
  repeat case_match; cbn [world_of]; good_prim.
Qed.

Lemma good_commit b w : good P w -> good P (commit b w).
Proof using P_removed.
  unfold commit, drawing_effect, area_effect. intros.
  repeat case_match; good_prim.
Qed.

Lemma good_listener e w : good P w -> good P (world_of (listener e w)).
Proof using P_marker P_label P_removed.
  intros Hw. destruct e; cbn [listener world_of]; repeat case_match; try done;
    first [ by apply good_setIsDrawingMode
          | by apply good_onMapClick
          | by apply good_onMapDblClick
          | by apply good_on_dragstart
          | by apply good_on_drag, good_follow
          | by apply good_on_dragend, good_follow
          | by apply good_onInputChange
          | by apply good_onPolygonClick ].
Qed.

Lemma good_run es : good P (run es).
Proof using P_marker P_label P_removed.
  unfold run. induction es as [|e es IH] using rev_ind.
  - apply map_Forall_empty.
  - rewrite foldl_app. simpl. unfold step. by apply good_commit, good_listener.
Qed.

End Invariant.

Lemma well_formed_run es : well_formed (run es).
Proof.
  pose proof (good_run (fun _ => True)) as H.
  specialize (H (fun _ => I) (fun _ _ _ => I) (fun _ _ => I) es).
  intros id o Ho. by destruct (H id o Ho).
Qed.

(** *** Labels *)

(** C9.  Whatever the user did, every distance label was constructed with
    angle 0, whatever [Math.atan2] returned for its edge, and the box
    [onAdd] builds for it carries no rotation. *)
Theorem labels_are_horizontal (es : list Event) (id : nat) (o : DistanceOverlay) :
  get_overlay (run es) id = Some o ->
  angle o = 0%float /\
  forall d, div o = Some d -> forall deg, rotate deg ∉ transform d.
Proof.
  intros Ho.
  assert (H : good upright (run es)).
  { apply good_run.
    - done.
    - intros vs i p1. split; [reflexivity|].
      intros d [= <-] deg Hin. cbn in Hin.
      apply list_elem_of_singleton in Hin. discriminate.
    - intros [m|o']; [done|]. intros [Ha _]. split; [exact Ha|]. intros d [=]. }
  unfold get_overlay in Ho.
  destruct (objects (run es) !! id) as [[m|o']|] eqn:E; try done.
  injection Ho as ->. by destruct (H _ _ E) as [_ ?].
Qed.

(** C10.  For every edge of the ring, from [vertices[i]] to
    [vertices[(i + 1) % n]], a rebuild anchors the distance label and the
    midpoint handle at the point whose latitude and longitude are the
    arithmetic means of the endpoints' latitudes and longitudes. *)
Theorem edge_anchor_is_arithmetic_mean (w : World) (i : nat) (p1 p2 : LatLng) :
  2 <= length (vertices (session w)) ->
  vertices (session w) !! i = Some p1 ->
  vertices (session w) !! ((i + 1) mod length (vertices (session w))) = Some p2 ->
  let w' := updateEdgeMarkers w in
  let anchor :=
    mkLatLng ((lat p1 + lat p2) / 2)%float ((lng p1 + lng p2) / 2)%float in
  exists label handle o m,
    edgeMarkers (session w') !! (2 * i) = Some label /\
    edgeMarkers (session w') !! (2 * i + 1) = Some handle /\
    get_overlay w' label = Some o /\
    get_marker w' handle = Some m /\
    edge_p1 o = p1 /\ edge_p2 o = p2 /\ role m = EdgeHandle i /\
    ov_position o = anchor /\ position m = anchor.
Proof.
  intros Hn H1 H2 w' anchor.
  destruct (updateEdgeMarkers_edge w i p1 Hn H1) as (E1 & E2 & O1 & O2).
  exists (fresh w + 2 * i), (fresh w + 2 * i + 1),
    (label_for (vertices (session w)) i p1), (handle_for (vertices (session w)) i p1).
  subst w'. unfold get_overlay, get_marker. rewrite O1, O2.
  unfold label_for, handle_for, far_end. rewrite H2. cbn.
  repeat split; assumption.
Qed.

(** *** Editing a completed polygon *)

(** C5.  A click on the boundary of completed polygon [k] that hits edge
    [e] and no vertex, at geo-point [p], puts [p] into the path at index
    [e + 1]; the path is one longer, and the polygon's vertex markers get
    a new marker at that index, on the map at [p]. *)
Theorem edge_click_inserts_vertex (w : World) (k : nat) (g : Polygon) (e : nat) (p : LatLng) :
  fieldPolygons w !! k = Some g ->
  e < length (path g) ->
  length (pg_vertexMarkers g) = length (path g) ->
  let w' := world_of (listener (PolygonClick k (Some e) None (Some p)) w) in
  exists g' id m,
    fieldPolygons w' !! k = Some g' /\
    path g' = take (e + 1) (path g) ++ p :: drop (e + 1) (path g) /\
    path g' !! (e + 1) = Some p /\
    length (path g') = S (length (path g)) /\
    length (pg_vertexMarkers g') = length (path g') /\
    pg_vertexMarkers g' !! (e + 1) = Some id /\
    get_marker w' id = Some m /\ position m = p /\ onMap m = true.
Proof.
  intros Hk He Hlen w'.
  assert (Hlt : k < length (fieldPolygons w)) by (eapply lookup_lt_Some; eauto).
  subst w'. cbn [listener world_of new_callback]. rewrite decide_True by exact Hlt.
  destruct (onPolygonClick_edge w k g e p Hk He) as (Hg & Ho & _).
  eexists _, (fresh w), (polygon_vertex p k (e + 1)).
  split; [exact Hg|]. cbn [path pg_vertexMarkers].
  split; [reflexivity|].
  split; [apply splice_in_lookup; lia|].
  rewrite !splice_in_length.
  split; [reflexivity|]. split; [by rewrite Hlen|].
  split; [apply splice_in_lookup; lia|].
  unfold get_marker. rewrite Ho, lookup_insert_eq. done.
Qed.

(** *** Closing the ring *)

Lemma alter_at_end {A} (f : A -> A) (F : list A) (g : A) :
  alter f (length F) (F ++ [g]) = F ++ [f g].
Proof.
  replace (length F) with (length F + 0) at 1 by lia. by rewrite alter_app_r.
Qed.

Lemma add_polygon_vertices l : forall w F g,
  fieldPolygons w = F ++ [g] ->
  let w' := foldl (add_polygon_vertex (length F)) w l in
  (exists g', fieldPolygons w' = F ++ [g'] /\ path g' = path g /\
              length (pg_vertexMarkers g') = length (pg_vertexMarkers g) + length l /\
              pg_edgeMarkers g' = pg_edgeMarkers g) /\
  session w' = session w /\ isDrawingMode w' = isDrawingMode w /\
  fieldPolygons_ref w' = fieldPolygons_ref w /\ hostCalls w' = hostCalls w /\
  fresh w <= fresh w' /\
  (forall id, id < fresh w -> objects w' !! id = objects w !! id).
Proof.
  induction l as [|[i v] l IH]; intros w F g HF.
  - simpl. split; [exists g; repeat split; [done|lia]|]. done.
  - cbn [foldl]. set (w1 := add_polygon_vertex (length F) w (i, v)).
    assert (HF1 : fieldPolygons w1
                  = F ++ [set_pg_vertexMarkers (pg_vertexMarkers g ++ [fresh w]) g]).
    { subst w1. unfold add_polygon_vertex, update_polygon.
      cbn [alloc add_object map_polygons fieldPolygons]. rewrite HF.
      replace (length F) with (length F + 0) at 1 by lia.
      rewrite alter_app_r. reflexivity. }
    destruct (IH w1 F _ HF1) as ((g' & E1 & E2 & E3 & E4) & Hs & Hd & Hr & Hh & Hf & Ho).
    split.
    + exists g'. split; [exact E1|]. split; [exact E2|]. split; [|exact E4].
      rewrite E3. cbn. rewrite length_app. simpl. lia.
    + rewrite Hs, Hd, Hr, Hh. repeat split; try reflexivity.
      * etrans; [|exact Hf]. subst w1. cbn. lia.
      * intros id Hid. rewrite Ho by (subst w1; cbn; lia).
        subst w1. cbn. by rewrite lookup_insert_ne by lia.
Qed.

Lemma onPolygonComplete_spec ring w :
  let w' := onPolygonComplete ring w in
  (exists g, fieldPolygons w' = fieldPolygons w ++ [g] /\ path g = ring /\
             length (pg_vertexMarkers g) = length ring /\ pg_edgeMarkers g = []) /\
  session w' = session w /\ isDrawingMode w' = false /\
  fieldPolygons_ref w' = S (fieldPolygons_ref w) /\ hostCalls w' = hostCalls w /\
  (forall id, id < fresh w -> objects w' !! id = objects w !! id).
Proof.
  unfold onPolygonComplete. cbv zeta.
  set (w1 := setIsDrawingMode false
               (setFieldPolygons (fun prev => prev ++ [mkPolygon ring [] []]) w)).
  assert (HF : fieldPolygons w1 = fieldPolygons w ++ [mkPolygon ring [] []]) by done.
  destruct (add_polygon_vertices (imap pair ring) w1 _ _ HF)
    as ((g & E1 & E2 & E3 & E4) & Hs & Hd & Hr & Hh & Hf & Ho).
  set (w2 := foldl (add_polygon_vertex (length (fieldPolygons w))) w1 (imap pair ring)) in *.
  assert (Hk : fieldPolygons w2 !! length (fieldPolygons w) = Some g).
  { rewrite E1. rewrite lookup_app_r by lia.
    replace (length (fieldPolygons w) - length (fieldPolygons w)) with 0 by lia. done. }
  unfold addEdgeMarkers. rewrite Hk. cbn in E4. rewrite E4.
  unfold update_polygon, dispose_all.
  cbn [map_polygons with_objects fieldPolygons session isDrawingMode fieldPolygons_ref
         hostCalls objects foldl].
  rewrite E1, alter_at_end.
  split.
  - eexists. split; [reflexivity|]. cbn [path pg_vertexMarkers pg_edgeMarkers set_pg_edgeMarkers].
    split; [exact E2|]. split; [|done].
    rewrite E3. cbn. rewrite length_imap. lia.
  - rewrite Hs, Hd, Hr, Hh. repeat split; try done.
Qed.

(** C3.  A double-click on the surface while the session listens.  With
    three vertices or more: a polygon whose path is exactly the current
    vertex list joins the registered polygons, the temporary polyline is
    gone, every temporary vertex and edge marker is off the map and out of
    the session's lists, and both listeners are removed.  With fewer than
    three nothing changes at all. *)
Theorem double_click_closes_ring (w : World) (q : option LatLng) :
  well_formed w ->
  mapDblClickListener (session w) = true ->
  let s := session w in
  let w' := world_of (listener (MapDblClick q) w) in
  (3 <= length (vertices s) ->
     (exists g, fieldPolygons w' = fieldPolygons w ++ [g] /\ path g = vertices s) /\
     tempPolyline (session w') = None /\
     vertexMarkers (session w') = [] /\ edgeMarkers (session w') = [] /\
     mapClickListener (session w') = false /\
     mapDblClickListener (session w') = false /\
     (forall id, id ∈ vertexMarkers s ++ edgeMarkers s ->
        is_Some (objects w !! id) -> is_shown w' id = false)) /\
  (length (vertices s) < 3 -> w' = w).
Proof.
  intros Hwf Hl s w'. subst w'. cbn [listener world_of new_callback]. rewrite Hl.
  unfold onMapDblClick. fold s. split.
  - intros Hn. rewrite decide_True by exact Hn.
    match goal with |- context [onPolygonComplete _ ?x] => set (w1 := x) end.
    destruct (onPolygonComplete_spec (vertices s) w1)
      as ((g & E1 & E2 & _) & Hs & _ & _ & _ & Ho).
    rewrite Hs. split; [exists g; split; [exact E1|exact E2]|].
    do 5 (split; [reflexivity|]).
    intros id Hin [o Hid]. apply hidden_not_shown.
    assert (Hlt : id < fresh w1) by (apply Hwf in Hid; exact Hid).
    unfold hidden. rewrite Ho by exact Hlt.
    subst w1. unfold dispose_all.
    cbn [with_session with_objects objects].
    apply elem_of_app in Hin as [Hin|Hin].
    + apply disposal_keeps_hidden. by apply disposal_hides.
    + by apply disposal_hides.
  - intros Hn. rewrite decide_False by lia. reflexivity.
Qed.

(** *** Editing a distance label *)

Lemma disposal_position ids (h : gmap nat MapObject) id m :
  h !! id = Some (AMarker m) ->
  exists m', foldl (fun h id => alter setMap_null id h) h ids !! id = Some (AMarker m') /\
             position m' = position m.
Proof.
  revert h m; induction ids as [|a ids IH]; intros h m Hm; [by exists m|].
  simpl. destruct (decide (a = id)) as [->|Hne].
  - destruct (IH (alter setMap_null id h)
                (mkMarker (position m) false (opacity m) (icon m) (draggable m) (role m)
                   (dragMarker m) (tempVertexIndex m) (originalVertices m)
                   (originalPosition m)))
      as (m' & E & Hp); [by rewrite lookup_alter_eq, Hm|].
    exists m'. done.
  - apply IH. by rewrite lookup_alter_ne.
Qed.


(** *** The area reported to the host *)

(** Scenario 5 of the specification: two registered rings of 10000 square
    metres each total 2 hectares. *)
Lemma totalArea_two_hectares (g1 g2 : Polygon) :
  computeArea (path g1) = 10000%float -> computeArea (path g2) = 10000%float ->
  totalArea [g1; g2] = 2%float.
Proof. intros H1 H2. unfold totalArea. simpl. rewrite H1, H2. reflexivity. Qed.

(** A registration is followed by one call of the host's callback, with
    the sum over all registered paths. *)
Lemma registration_notifies_host w ring :
  onAreaUpdate = true ->
  fieldPolygons_ref w = area_committed w ->
  isDrawingMode w = drawing_committed w ->
  let w' := commit false (setFieldPolygons (fun prev => prev ++ [mkPolygon ring [] []]) w) in
  hostCalls w' = hostCalls w ++ [totalArea (fieldPolygons w ++ [mkPolygon ring [] []])].
Proof.
  intros Hcb Href Hdm. unfold commit.
  cbn [setFieldPolygons isDrawingMode drawing_committed fieldPolygons_ref area_committed].
  rewrite Hdm, eqb_reflx.
  cbn [setFieldPolygons isDrawingMode drawing_committed fieldPolygons_ref area_committed].
  rewrite decide_False by lia.
  unfold area_effect. cbn. rewrite Hcb, length_app. simpl.
  rewrite bool_decide_true by lia. reflexivity.
Qed.

(** *** The text of a label *)

Lemma digits_bounds m :
  (2 ^ (Zpos (digits2_pos m) - 1) <= Zpos m < 2 ^ Zpos (digits2_pos m))%Z.
Proof.
  induction m as [p IH|p IH|]; cbn [digits2_pos].
  - rewrite Pos2Z.inj_succ.
    replace (Z.succ (Z.pos (digits2_pos p)) - 1)%Z with (Z.succ (Z.pos (digits2_pos p) - 1))%Z by lia.
    rewrite !Z.pow_succ_r by lia. lia.
  - rewrite Pos2Z.inj_succ.
    replace (Z.succ (Z.pos (digits2_pos p)) - 1)%Z with (Z.succ (Z.pos (digits2_pos p) - 1))%Z by lia.
    rewrite !Z.pow_succ_r by lia. lia.
  - simpl. lia.
Qed.

Lemma valid_mantissa m e :
  bounded prec emax m e = true ->
  (Zpos m < 2 ^ 53)%Z /\ ((-1074 < e)%Z -> (2 ^ 52 <= Zpos m)%Z).
Proof.
  unfold bounded, canonical_mantissa, fexp, SpecFloat.emin, prec, emax.
  intros H. apply andb_prop in H as [H _]. apply Z.eqb_eq in H.
  pose proof (digits_bounds m) as [Hlo Hhi].
  split.
  - eapply Z.lt_le_trans; [exact Hhi|]. apply Z.pow_le_mono_r; lia.
  - intros He. assert (E : (Z.pos (digits2_pos m) = 53)%Z) by lia.
    rewrite E in Hlo. exact Hlo.
Qed.

Lemma finite_value_sign (s : bool) (m : positive) (e : Z) :
  (0 <= (if s then -1 else 1) * inject_Z (Zpos m) * 2 ^ e)%Q -> s = false.
Proof.
  destruct s; [|done]. intros H. exfalso.
  assert (0 < inject_Z (Z.pos m))%Q by (unfold Qlt; simpl; lia).
  assert (0 < 2 ^ e)%Q by (apply Qpower_0_lt; lra).
  nra.
Qed.


Lemma scaled_lt (a : positive) (k : positive) (c : Z) :
  (1 * inject_Z (Zpos a) * (1 # k) < inject_Z c)%Q <-> (Zpos a < c * Zpos k)%Z.
Proof. unfold Qlt, Qmult, inject_Z; cbn [Qnum Qden]. rewrite Pos2Z.inj_mul. lia. Qed.

Lemma scaled_mono (a : positive) (x y : Q) :
  (x <= y)%Q -> (1 * inject_Z (Zpos a) * x <= 1 * inject_Z (Zpos a) * y)%Q.
Proof.
  intros H. apply Qmult_le_l; [|exact H].
  unfold Qlt, Qmult, inject_Z; cbn [Qnum Qden]. lia.
Qed.

Lemma below_1000 d q :
  JS.exact d = Some q -> (0 <= q)%Q -> ((d <? 1000)%float = true <-> (q < 1000)%Q).
Proof.
  unfold JS.exact. intros Hq Hpos. rewrite ltb_spec.
  pose proof (Prim2SF_valid d) as Hv.
  change (Prim2SF 1000) with (S754_finite false 8796093022208000 (-43)).
  destruct (Prim2SF d) as [s|s| |s m e]; try discriminate.
  - injection Hq as <-. destruct s; split; done.
  - injection Hq as <-. apply finite_value_sign in Hpos as ->.
    cbv [valid_binary] in Hv. apply valid_mantissa in Hv as [Hhi Hlo].
    change (2 ^ 53)%Z with 9007199254740992%Z in Hhi.
    change (2 ^ 52)%Z with 4503599627370496%Z in Hlo.
    cbv [SFltb SFcompare].
    rewrite Pos.compare_cont_spec.
    change 1000%Q with (inject_Z 1000).
    destruct (Z.compare_spec e (-43)) as [->|He|He].
    + change (2 ^ (-43))%Q with (1 # 8796093022208)%Q. rewrite scaled_lt.
      destruct (Pos.compare_spec m 8796093022208000) as [->|Hm|Hm];
        cbn [Pos.switch_Eq]; split; try done; lia.
    + split; [intros _|done].
      eapply Qle_lt_trans.
      * apply scaled_mono. apply (Qpower_le_compat_l 2 e (-44)); [lia|done].
      * change (2 ^ (-44))%Q with (1 # 17592186044416)%Q. rewrite scaled_lt. lia.
    + split; [done|intros H; exfalso].
      apply Qlt_not_le in H. apply H. clear H.
      eapply Qle_trans; [|apply scaled_mono, (Qpower_le_compat_l 2 (-42) e); [lia|done]].
      change (2 ^ (-42))%Q with (1 # 4398046511104)%Q.
      apply Qnot_lt_le. rewrite scaled_lt. specialize (Hlo ltac:(lia)). lia.
Qed.

Lemma nearest_spec q :
  (inject_Z (JS.nearest q) - (1 # 2) <= q)%Q /\ (q < inject_Z (JS.nearest q) + (1 # 2))%Q.
Proof.
  unfold JS.nearest.
  pose proof (Qfloor_le (q + (1 # 2))) as H1.
  pose proof (Qlt_floor (q + (1 # 2))) as H2.
  rewrite inject_Z_plus in H2. change (inject_Z 1) with 1%Q in H2.
  split; lra.
Qed.

Lemma nearest_bounds q (lo hi : Z) :
  (inject_Z lo <= q)%Q -> (q < inject_Z hi)%Q -> (lo <= JS.nearest q <= hi)%Z.
Proof.
  intros Hlo Hhi. destruct (nearest_spec q) as [H1 H2]. split.
  - apply Z.lt_succ_r. rewrite Zlt_Qlt. unfold Z.succ. rewrite inject_Z_plus.
    change (inject_Z 1) with 1%Q. lra.
  - apply Z.lt_succ_r. rewrite Zlt_Qlt. unfold Z.succ. rewrite inject_Z_plus.
    change (inject_Z 1) with 1%Q. lra.
Qed.

Lemma nearest_integral q : JS.integral q = true -> JS.nearest q = Qfloor q.
Proof.
  unfold JS.integral, JS.nearest. intros H. apply Qeq_bool_iff in H.
  rewrite <- H at 1.
  assert (E : (inject_Z (Qfloor q) + (1 # 2) == inject_Z (Qfloor q) + (1 # 2))%Q) by reflexivity.
  apply Z.le_antisymm.
  - apply Z.lt_succ_r. rewrite Zlt_Qlt.
    eapply Qle_lt_trans; [apply Qfloor_le|].
    unfold Z.succ. rewrite inject_Z_plus. change (inject_Z 1) with 1%Q. lra.
  - rewrite <- (Qfloor_Z (Qfloor q)) at 1. apply Qfloor_resp_le. lra.
Qed.

Lemma small_integers_print :
  forallb (fun n => String.eqb (JS.ToString ToString_fraction (JS.of_Z (Z.of_nat n)))
                      (pretty (Z.of_nat n)))
          (seq 0 1001) = true.
Proof. vm_compute. reflexivity. Qed.

Lemma floor_nonneg q : (0 <= q)%Q -> (0 <= Qfloor q)%Z.
Proof. intros H. change 0%Z with (Qfloor 0). by apply Qfloor_resp_le. Qed.

Lemma round_prints_nearest d q :
  JS.exact d = Some q -> (0 <= q)%Q -> (q < 1000)%Q ->
  JS.ToString ToString_fraction (JS.Math_round d) = pretty (JS.nearest q).
Proof.
  intros Hq Hpos Hlt. unfold JS.Math_round. rewrite Hq.
  destruct (JS.integral q) eqn:Hi.
  - unfold JS.ToString. rewrite Hq. unfold JS.exact in Hq.
    destruct (Prim2SF d) as [s|s| |s m e]; try discriminate.
    + injection Hq as <-. reflexivity.
    + assert (Hs : s = false).
      { injection Hq as <-. by apply finite_value_sign in Hpos. }
      subst s. rewrite Hi.
      assert (Hb : Qle_bool (Qabs q) (inject_Z (2 ^ 53)) = true).
      { apply Qle_bool_iff. rewrite Qabs_pos by exact Hpos.
        apply Qle_trans with 1000%Q; [lra|]. by vm_compute. }
      rewrite Hb. cbn [andb]. rewrite nearest_integral by exact Hi.
      rewrite Z.abs_eq by (by apply floor_nonneg). reflexivity.
  - assert (Hq0 : Qle_bool q 0 = false).
    { destruct (Qle_bool q 0) eqn:E; [|done]. apply Qle_bool_iff in E.
      assert (Hz : (q == 0)%Q) by lra.
      unfold JS.integral in Hi. rewrite (Qfloor_comp _ _ Hz) in Hi.
      assert (Qeq_bool (inject_Z (Qfloor 0)) q = true)
        by (apply Qeq_bool_iff; rewrite Hz; reflexivity).
      congruence. }
    rewrite Hq0, andb_false_r.
    destruct (nearest_bounds q 0 1000) as [Hn0 Hn1]; [exact Hpos|exact Hlt|].
    pose proof small_integers_print as Hall.
    rewrite forallb_forall in Hall.
    specialize (Hall (Z.to_nat (JS.nearest q))).
    rewrite Z2Nat.id in Hall by exact Hn0.
    apply String.eqb_eq, Hall, in_seq. lia.
Qed.

Lemma toFixed2_spec x q :
  JS.exact x = Some q -> (0 <= q)%Q -> (q < inject_Z (10 ^ 21))%Q ->
  JS.toFixed2 ToString_fraction x =
  let n := JS.nearest (q * 100) in
  (pretty (n / 100)%Z ++ "." ++ pretty (n / 10 mod 10)%Z ++ pretty (n mod 10)%Z)%string.
Proof.
  intros Hq Hpos Hlt. unfold JS.toFixed2. rewrite Hq.
  assert (H0 : Qle_bool 0 q = true) by (by apply Qle_bool_iff).
  assert (H1 : Qle_bool (inject_Z (10 ^ 21)) (Qabs q) = false).
  { destruct (Qle_bool (inject_Z (10 ^ 21)) (Qabs q)) eqn:E; [|done].
    apply Qle_bool_iff in E.
    pose proof (Qabs_pos q Hpos) as Ha. exfalso.
    apply (Qlt_not_le _ _ Hlt). rewrite <- Ha. exact E. }
  rewrite H0, H1. cbv zeta.
  assert (Hn : JS.nearest (Qabs q * 100) = JS.nearest (q * 100)).
  { unfold JS.nearest. apply Qfloor_comp. rewrite Qabs_pos by exact Hpos. reflexivity. }
  rewrite Hn. reflexivity.
Qed.

Lemma two_decimals (n : Z) :
  (0 <= n)%Z ->
  (0 <= n / 10 mod 10 <= 9)%Z /\ (0 <= n mod 10 <= 9)%Z /\
  (100 * (n / 100) + 10 * (n / 10 mod 10) + n mod 10 = n)%Z.
Proof.
  intros Hn.
  pose proof (Z.mod_pos_bound (n / 10) 10 ltac:(lia)).
  pose proof (Z.mod_pos_bound n 10 ltac:(lia)).
  split; [lia|]. split; [lia|].
  pose proof (Z.div_mod n 10 ltac:(lia)).
  pose proof (Z.div_mod (n / 10) 10 ltac:(lia)).
  replace (n / 100)%Z with (n / 10 / 10)%Z by (rewrite Z.div_div by lia; reflexivity).
  lia.
Qed.

(** C8.  For an edge of length [d] metres, a finite non-negative number
    of value [q]: below 1000 the label is the integer nearest to [q]
    followed by "m"; otherwise it is [d / 1000], of value [x], printed as
    the nearest multiple of 1/100 with exactly two digits after the point,
    followed by "km". *)
Theorem distance_label_format (d : float) (q : Q) :
  JS.exact d = Some q -> (0 <= q)%Q ->
  ((q < 1000)%Q ->
     exists n : Z,
       (inject_Z n - (1 # 2) <= q)%Q /\ (q < inject_Z n + (1 # 2))%Q /\
       distanceText d = (pretty n ++ "m")%string) /\
  ((1000 <= q)%Q ->
     forall x : Q,
       JS.exact (d / 1000)%float = Some x -> (0 <= x)%Q -> (x < inject_Z (10 ^ 21))%Q ->
       exists n whole tenths hundredths : Z,
         (inject_Z n - (1 # 2) <= x * 100)%Q /\ (x * 100 < inject_Z n + (1 # 2))%Q /\
         (0 <= tenths <= 9)%Z /\ (0 <= hundredths <= 9)%Z /\
         (100 * whole + 10 * tenths + hundredths = n)%Z /\
         distanceText d =
         ((pretty whole ++ "." ++ pretty tenths ++ pretty hundredths) ++ "km")%string).
Proof.
  intros Hq Hpos. pose proof (below_1000 d q Hq Hpos) as Hcmp. split.
  - intros Hlt. exists (JS.nearest q).
    destruct (nearest_spec q) as [H1 H2]. split; [exact H1|]. split; [exact H2|].
    unfold distanceText. rewrite (proj2 Hcmp Hlt).
    by rewrite (round_prints_nearest d q Hq Hpos Hlt).
  - intros Hge x Hx Hx0 Hx1.
    assert (Hf : (d <? 1000)%float = false).
    { destruct (d <? 1000)%float eqn:E; [|done].
      exfalso. exact (Qlt_not_le _ _ (proj1 Hcmp eq_refl) Hge). }
    set (n := JS.nearest (x * 100)).
    assert (Hn : (0 <= n)%Z).
    { apply (nearest_bounds (x * 100) 0 (Z.succ n)).
      - change (inject_Z 0) with 0%Q. apply Qmult_le_0_compat; [exact Hx0|done].
      - destruct (nearest_spec (x * 100)) as [_ H2]. fold n in H2.
        unfold Z.succ. rewrite inject_Z_plus. change (inject_Z 1) with 1%Q. lra. }
    destruct (two_decimals n Hn) as (Ht & Hh & Hsum).
    exists n, (n / 100)%Z, (n / 10 mod 10)%Z, (n mod 10)%Z.
    destruct (nearest_spec (x * 100)) as [H1 H2].
    split; [exact H1|]. split; [exact H2|].
    split; [exact Ht|]. split; [exact Hh|]. split; [exact Hsum|].
    unfold distanceText. rewrite Hf.
    by rewrite (toFixed2_spec (d / 1000)%float x Hx Hx0 Hx1).
Qed.

(** *** Where the component departs from the specification *)

(** A drop that carries no geo-point leaves the provisional vertex in the
    ring and adds no marker for it. *)
Lemma dragend_without_point w h i :
  in_flight w h i ->
  let w1 := world_of (listener (DragEnd h None) w) in
  vertices (session w1) = vertices (session w) /\
  vertexMarkers (session w1) = vertexMarkers (session w).
Proof.
  intros Hin. cbn [listener world_of new_callback].
  destruct (in_flight_target _ _ _ Hin) as (m & -> & Hr & _).
  unfold on_dragend. rewrite Hr. unfold handle_dragend, follow.
  by rewrite hide_ghost_session.
Qed.

Lemma commit_silent w w' :
  rendered w -> same_react_state w w' -> hostCalls (commit false w') = hostCalls w.
Proof.
  intros [H1 H2] (E1 & E2 & E3 & E4 & E5). unfold commit.
  rewrite E1, E2, H1, eqb_reflx, E3, E4, decide_True by exact H2. exact E5.
Qed.

(** Inserting a vertex into a registered polygon, or dragging one of its
    vertex markers, mutates the path in place: the state array keeps its
    identity, no effect runs, and the host hears nothing. *)
Lemma polygon_edits_are_silent w k e v q i :
  rendered w ->
  hostCalls (commit false (onPolygonClick k e v q w)) = hostCalls w /\
  hostCalls (commit false (polygon_vertex_drag k i q w)) = hostCalls w.
Proof.
  intros Hr. split; apply commit_silent; try exact Hr.
  - unfold onPolygonClick, insertAt, on_insert_at, update_polygon.
    cbn [alloc]. repeat case_match; done.
  - unfold polygon_vertex_drag, addEdgeMarkers, update_polygon.
    repeat case_match; done.
Qed.


(** *** Nothing of the session is left on the map untracked *)

Lemma tracked_session f w :
  vertexMarkers (session w) ⊆ vertexMarkers (f (session w)) ->
  edgeMarkers (session w) ⊆ edgeMarkers (f (session w)) ->
  tracked w -> tracked (with_session f w).
Proof.
  intros Hv He Hw id o Ho Hs. destruct (Hw id o Ho Hs) as [H1 H2].
  split; intros H; [apply Hv, H1, H|apply He, H2, H].
Qed.

Lemma tracked_alter_marker f id w :
  keeps_kind f -> tracked w -> tracked (with_objects (alter (update_marker f) id) w).
Proof.
  intros Hf Hw k o. cbn [with_objects objects session].
  rewrite lookup_alter_Some. intros [(-> & o' & Ho' & ->)|[Hne Ho]] Hs.
  - destruct o' as [m|ov]; cbn in *.
    + destruct (Hf m) as [Hr Hm]. rewrite Hm in Hs. rewrite Hr.
      exact (Hw _ _ Ho' Hs).
    + exact (Hw _ _ Ho' Hs).
  - exact (Hw _ _ Ho Hs).
Qed.

Lemma shown_setMap_null o : shown (setMap_null o) = false.
Proof. by destruct o. Qed.

Lemma tracked_remove id w : tracked w -> tracked (with_objects (alter setMap_null id) w).
Proof.
  intros Hw k o. cbn [with_objects objects session].
  rewrite lookup_alter_Some. intros [(-> & o' & Ho' & ->)|[Hne Ho]] Hs.
  - by rewrite shown_setMap_null in Hs.
  - exact (Hw _ _ Ho Hs).
Qed.

Lemma tracked_dispose_all ids w : tracked w -> tracked (dispose_all ids w).
Proof.
  unfold dispose_all. revert w. induction ids as [|a ids IH]; intros w Hw.
  - exact Hw.
  - apply (IH (with_objects (alter setMap_null a) w)). by apply tracked_remove.
Qed.

Lemma tracked_add_other o w :
  is_session_vertex o = false -> is_edge_visual o = false ->
  tracked w -> tracked (add_object o w).
Proof.
  intros H1 H2 Hw k o'. cbn [add_object objects session].
  rewrite lookup_insert_Some. intros [[<- <-]|[Hne Ho]] Hs.
  - rewrite H1, H2. split; discriminate.
  - exact (Hw _ _ Ho Hs).
Qed.

Lemma tracked_add_vertex m (l : Session -> list nat) w :
  is_edge_visual (AMarker m) = false ->
  fresh w ∈ l (session w) -> vertexMarkers (session w) ⊆ l (session w) ->
  tracked w ->
  tracked (with_session (fun s => set_vertexMarkers (l s) s) (add_object (AMarker m) w)).
Proof.
  intros H2 Hin Hsub Hw k o'. cbn [with_session add_object objects session].
  rewrite lookup_insert_Some.
  intros [[<- <-]|[Hne Ho]] Hs; cbn [vertexMarkers edgeMarkers set_vertexMarkers].
  - rewrite H2. split; [intros _; exact Hin|discriminate].
  - destruct (Hw _ _ Ho Hs) as [E1 E2]. split; [intros H; apply Hsub, E1, H|exact E2].
Qed.

Lemma tracked_clear_edges w :
  tracked w ->
  tracked (with_session (set_edgeMarkers []) (dispose_all (edgeMarkers (session w)) w)).
Proof.
  intros Hw k o Ho Hs. cbn [with_session objects session] in *.
  unfold dispose_all in Ho. cbn [with_objects objects] in Ho.
  destruct (decide (k ∈ edgeMarkers (session w))) as [Hin|Hout].
  - pose proof (disposal_hides _ (objects w) k Hin o Ho). congruence.
  - rewrite disposal_elsewhere in Ho by exact Hout.
    destruct (Hw _ _ Ho Hs) as [E1 E2]. split; [exact E1|].
    intros H. by apply E2 in H.
Qed.

Lemma tracked_add_edge w ip : tracked w -> tracked (add_edge w ip).
Proof.
  destruct ip as [i p1]. intros Hw k o. rewrite add_edge_unfold.
  cbn [objects session edgeMarkers vertexMarkers set_edgeMarkers].
  rewrite lookup_insert_Some. intros [[<- <-]|[Hne Ho]] Hs.
  - split; [discriminate|]. intros _. apply elem_of_app. right. by apply list_elem_of_singleton.
  - revert Ho. rewrite lookup_insert_Some. intros [[<- <-]|[Hne' Ho]].
    + split; [discriminate|]. intros _.
      apply elem_of_app. left. apply elem_of_app. right. by apply list_elem_of_singleton.
    + destruct (Hw _ _ Ho Hs) as [E1 E2]. split; [exact E1|].
      intros H. apply elem_of_app. left. apply elem_of_app. left. by apply E2.
Qed.

Lemma tracked_updateEdgeMarkers w : tracked w -> tracked (updateEdgeMarkers w).
Proof.
  intros Hw. unfold updateEdgeMarkers. cbv zeta.
  pose proof (tracked_clear_edges w Hw) as H0.
  destruct (decide _) as [Hn|Hn]; [|exact H0].
  set (w0 := with_session (set_edgeMarkers [])
               (dispose_all (edgeMarkers (session w)) w)) in *.
  set (l := imap pair (vertices (session w0))).
  clearbody l. clearbody w0. clear Hn. revert w0 H0.
  induction l as [|ip l IH]; intros w0 H0; [done|].
  simpl. apply IH. by apply tracked_add_edge.
Qed.

Lemma tracked_cleared (s' : Session) w :
  tracked w ->
  tracked (with_session (fun _ => s')
             (dispose_all (edgeMarkers (session w))
                (dispose_all (vertexMarkers (session w)) w))).
Proof.
  intros Hw k o Ho Hs.
  cbn [with_session objects] in Ho. unfold dispose_all in Ho.
  cbn [with_objects objects] in Ho.
  set (h1 := foldl (fun h id => alter setMap_null id h) (objects w)
               (vertexMarkers (session w))) in *.
  destruct (decide (k ∈ edgeMarkers (session w))) as [Hin|Hout].
  { pose proof (disposal_hides _ h1 k Hin o Ho). congruence. }
  rewrite disposal_elsewhere in Ho by exact Hout. subst h1.
  destruct (decide (k ∈ vertexMarkers (session w))) as [Hin|Hout'].
  { pose proof (disposal_hides _ (objects w) k Hin o Ho). congruence. }
  rewrite disposal_elsewhere in Ho by exact Hout'.
  destruct (Hw _ _ Ho Hs) as [E1 E2].
  split; intros H; [by destruct Hout'; apply E1|by destruct Hout; apply E2].
Qed.

Lemma tracked_refresh_polyline w : tracked w -> tracked (refresh_polyline w).
Proof.
  intros Hw. destruct (refresh_polyline_shape w) as [pl ->].
  by apply tracked_session.
Qed.

Lemma tracked_map_polygons f w : tracked w -> tracked (map_polygons f w).
Proof. done. Qed.

Lemma tracked_setFieldPolygons f w : tracked w -> tracked (setFieldPolygons f w).
Proof. done. Qed.

Lemma tracked_setIsDrawingMode b w : tracked w -> tracked (setIsDrawingMode b w).
Proof. done. Qed.

Lemma tracked_set_committed d a c w : tracked w -> tracked (set_committed d a c w).
Proof. done. Qed.

Lemma keeps_kind_position p : keeps_kind (set_position p).
Proof. by intros m. Qed.

Lemma splice_in_elem {A} i (x : A) l : x ∈ splice_in i x l.
Proof. unfold splice_in. set_solver. Qed.

Lemma splice_in_subseteq {A} i (x : A) l : l ⊆ splice_in i x l.
Proof.
  unfold splice_in. intros y Hy. rewrite <- (take_drop i l) in Hy.
  apply elem_of_app in Hy as [Hy|Hy]; apply elem_of_app; [by left|right].
  apply elem_of_cons. by right.
Qed.

Ltac tracked_prim :=
  repeat first
    [ assumption
    | match goal with
      | |- tracked (updateEdgeMarkers _) => apply tracked_updateEdgeMarkers
      | |- tracked (refresh_polyline _) => apply tracked_refresh_polyline
      | |- tracked (map_polygons _ _) => apply tracked_map_polygons
      | |- tracked (setFieldPolygons _ _) => apply tracked_setFieldPolygons
      | |- tracked (setIsDrawingMode _ _) => apply tracked_setIsDrawingMode
      | |- tracked (set_committed _ _ _ _) => apply tracked_set_committed
      | |- tracked (dispose_all _ _) => apply tracked_dispose_all
      | |- tracked (with_objects (alter setMap_null _) _) => apply tracked_remove
      | |- tracked (with_objects (alter (update_marker _) _) _) =>
          apply tracked_alter_marker; [by intros ?|]
      | |- tracked (with_session _ (add_object (AMarker (circle_vertex _)) _)) =>
          apply (tracked_add_vertex _ (fun s => _));
          [reflexivity
          |cbn [with_session session vertexMarkers set_vertices fresh];
           first [apply splice_in_elem | try clear LatLng_new; set_solver]
          |cbn [with_session session vertexMarkers set_vertices fresh];
           first [apply splice_in_subseteq | try clear LatLng_new; set_solver]|]
      | |- tracked (add_object (AMarker (drag_ghost _)) _) =>
          apply tracked_add_other; [reflexivity|reflexivity|]
      | |- tracked (add_object (AMarker (polygon_vertex _ _ _)) _) =>
          apply tracked_add_other; [reflexivity|reflexivity|]
      | |- tracked (with_session (set_edgeMarkers [])
                      (dispose_all (edgeMarkers (session ?x)) ?x)) =>
          apply tracked_clear_edges
      | |- tracked (with_session _ _) => apply tracked_session; [done|done|]
      end ].

Lemma tracked_show_ghost id m w : tracked w -> tracked (show_ghost id m w).
Proof. unfold show_ghost. intros. cbn [alloc]. tracked_prim. Qed.

Lemma tracked_move_ghost m p w : tracked w -> tracked (move_ghost m p w).
Proof. unfold move_ghost. intros. case_match; tracked_prim. Qed.

Lemma tracked_hide_ghost id m w : tracked w -> tracked (hide_ghost id m w).
Proof. unfold hide_ghost. intros. case_match; tracked_prim. Qed.

Lemma tracked_follow id q w : tracked w -> tracked (follow id q w).
Proof. unfold follow. intros. case_match; tracked_prim. Qed.

Lemma tracked_onMapClick q w : tracked w -> tracked (onMapClick q w).
Proof. unfold onMapClick. intros. cbn [alloc]. repeat case_match; tracked_prim. Qed.

Lemma tracked_on_dragstart id m w : tracked w -> tracked (on_dragstart id m w).
Proof.
  unfold on_dragstart, vertex_dragstart, handle_dragstart. intros.
  repeat case_match; tracked_prim; by apply tracked_show_ghost.
Qed.

Lemma tracked_addEdgeMarkers k w : tracked w -> tracked (addEdgeMarkers k w).
Proof. unfold addEdgeMarkers, update_polygon. intros. case_match; tracked_prim. Qed.

Lemma tracked_on_drag id m q w : tracked w -> tracked (on_drag id m q w).
Proof.
  unfold on_drag, vertex_drag, handle_drag, polygon_vertex_drag, update_polygon. intros.
  repeat case_match; tracked_prim;
    first [by apply tracked_move_ghost | apply tracked_addEdgeMarkers; tracked_prim].
Qed.

Lemma tracked_on_dragend id m q w : tracked w -> tracked (on_dragend id m q w).
Proof.
  unfold on_dragend, vertex_dragend, handle_dragend. intros.
  cbn [alloc]. repeat case_match; tracked_prim; by apply tracked_hide_ghost.
Qed.

Lemma tracked_onPolygonComplete ring w : tracked w -> tracked (onPolygonComplete ring w).
Proof.
  intros Hw. unfold onPolygonComplete. cbv zeta. apply tracked_addEdgeMarkers.
  set (k := length (fieldPolygons w)).
  assert (H0 : tracked (setIsDrawingMode false
                          (setFieldPolygons (fun prev => prev ++ [mkPolygon ring [] []]) w)))
    by tracked_prim.
  revert H0. generalize (setIsDrawingMode false
                           (setFieldPolygons (fun prev => prev ++ [mkPolygon ring [] []]) w)).
  generalize (imap pair ring). clearbody k.
  induction l as [|[i v] l IH]; intros w0 H0; [done|].
  simpl. apply IH. unfold update_polygon. tracked_prim.
Qed.

Lemma tracked_onMapDblClick w : tracked w -> tracked (onMapDblClick w).
Proof.
  unfold onMapDblClick. intros Hw. cbv zeta. case_match; [|done].
  apply tracked_onPolygonComplete. apply tracked_session; [done|done|].
  match goal with
  | |- tracked (with_session ?f (dispose_all ?e (dispose_all ?v ?x))) =>
      change (tracked (with_session
                         (fun _ => f (session x))
                         (dispose_all (edgeMarkers (session x))
                            (dispose_all (vertexMarkers (session x)) x))))
  end.
  apply tracked_cleared. by apply tracked_session.
Qed.

Lemma tracked_onPolygonClick k e v q w : tracked w -> tracked (onPolygonClick k e v q w).
Proof.
  unfold onPolygonClick, insertAt, on_insert_at, update_polygon. intros.
  cbn [alloc]. repeat case_match; tracked_prim.
Qed.

Lemma tracked_onInputChange id x w : tracked w -> tracked (world_of (onInputChange id x w)).
Proof.
  unfold onInputChange, handleDistanceChange. intros.
  repeat case_match; cbn [world_of]; tracked_prim.
Qed.

Lemma tracked_commit b w : tracked w -> tracked (commit b w).
Proof.
  unfold commit, drawing_effect, area_effect. intros Hw. cbv zeta.
  assert (H1 : tracked (if Bool.eqb (isDrawingMode w) (drawing_committed w) then w
                        else set_committed (isDrawingMode w) (area_committed w) (hostCalls w)
                               (with_session
                                  (fun _ => if isDrawingMode w then startDrawing
                                            else emptySession)
                                  (dispose_all (edgeMarkers (session w))
                                     (dispose_all (vertexMarkers (session w)) w))))).
  { case_match; [exact Hw|]. apply tracked_set_committed. by apply tracked_cleared. }
  repeat case_match; tracked_prim.
Qed.

Lemma tracked_listener e w : tracked w -> tracked (world_of (listener e w)).
Proof.
  intros Hw. destruct e; cbn [listener world_of]; repeat case_match; try done;
    first [ by apply tracked_setIsDrawingMode
          | by apply tracked_onMapClick
          | by apply tracked_onMapDblClick
          | by apply tracked_on_dragstart
          | by apply tracked_on_drag, tracked_follow
          | by apply tracked_on_dragend, tracked_follow
          | by apply tracked_onInputChange
          | by apply tracked_onPolygonClick ].
Qed.

Lemma tracked_initial : tracked initial.
Proof. intros id o H. cbn in H. by rewrite lookup_empty in H. Qed.

Lemma tracked_run es : tracked (run es).
Proof.
  unfold run. induction es as [|e es IH] using rev_ind.
  - apply tracked_initial.
  - rewrite foldl_app. simpl. unfold step. by apply tracked_commit, tracked_listener.
Qed.

(** *** What most listeners leave alone *)

Lemma summary_updateEdgeMarkers w : summary (updateEdgeMarkers w) = summary w.
Proof. rewrite updateEdgeMarkers_shape. reflexivity. Qed.

Lemma summary_refresh_polyline w : summary (refresh_polyline w) = summary w.
Proof.
  unfold refresh_polyline, setPath, summary, has_polyline.
  destruct (tempPolyline (session w)) eqn:E; cbn; rewrite ?E; reflexivity.
Qed.

Lemma summary_show_ghost id m w : summary (show_ghost id m w) = summary w.
Proof. reflexivity. Qed.

Lemma summary_move_ghost m p w : summary (move_ghost m p w) = summary w.
Proof. unfold move_ghost. by destruct (dragMarker m). Qed.

Lemma summary_hide_ghost id m w : summary (hide_ghost id m w) = summary w.
Proof. unfold hide_ghost. by destruct (dragMarker m). Qed.

Lemma summary_follow id q w : summary (follow id q w) = summary w.
Proof. unfold follow. by destruct q. Qed.

Lemma summary_onMapClick q w : summary (onMapClick q w) = summary w.
Proof.
  unfold onMapClick. cbn [alloc]. repeat case_match; try reflexivity.
  rewrite summary_updateEdgeMarkers, summary_refresh_polyline. reflexivity.
Qed.

Lemma summary_on_dragstart id m w : summary (on_dragstart id m w) = summary w.
Proof. unfold on_dragstart. repeat case_match; reflexivity. Qed.

Lemma summary_update_polygon k f w : summary (update_polygon k f w) = summary w.
Proof.
  unfold update_polygon, summary.
  cbn [map_polygons isDrawingMode drawing_committed fieldPolygons_ref area_committed
         hostCalls fieldPolygons session].
  by rewrite length_alter.
Qed.

Lemma summary_addEdgeMarkers k w : summary (addEdgeMarkers k w) = summary w.
Proof.
  unfold addEdgeMarkers. case_match; [|done]. by rewrite summary_update_polygon.
Qed.

Lemma summary_on_drag id m q w : summary (on_drag id m q w) = summary w.
Proof.
  unfold on_drag, vertex_drag, handle_drag, polygon_vertex_drag.
  repeat case_match; try reflexivity;
    rewrite ?summary_updateEdgeMarkers, ?summary_refresh_polyline, ?summary_addEdgeMarkers,
      ?summary_update_polygon, ?summary_move_ghost;
    try reflexivity.
  all: match goal with
       | |- summary (with_session ?f (move_ghost ?m ?p ?w)) = _ =>
           transitivity (summary (move_ghost m p w)); [reflexivity|apply summary_move_ghost]
       end.
Qed.

Lemma summary_on_dragend id m q w : summary (on_dragend id m q w) = summary w.
Proof.
  unfold on_dragend, vertex_dragend, handle_dragend.
  cbn [alloc]. repeat case_match; rewrite ?summary_updateEdgeMarkers;
    try apply summary_hide_ghost; try reflexivity.
  match goal with |- context [refresh_polyline ?x] => set (w1 := x) end.
  transitivity (summary (refresh_polyline w1)); [reflexivity|].
  rewrite summary_refresh_polyline. subst w1.
  transitivity (summary (hide_ghost id m w)); [reflexivity|apply summary_hide_ghost].
Qed.

Lemma summary_onPolygonClick k e v q w : summary (onPolygonClick k e v q w) = summary w.
Proof.
  unfold onPolygonClick, insertAt, on_insert_at.
  cbn [alloc]. repeat case_match; rewrite ?summary_update_polygon; try reflexivity.
  match goal with
  | |- summary (add_object ?o ?x) = _ => transitivity (summary x); [reflexivity|]
  end.
  apply summary_update_polygon.
Qed.

Lemma summary_onInputChange id x w : summary (world_of (onInputChange id x w)) = summary w.
Proof.
  unfold onInputChange, handleDistanceChange.
  repeat case_match; cbn [world_of];
    rewrite ?summary_updateEdgeMarkers, ?summary_refresh_polyline; reflexivity.
Qed.

(** *** The render after a listener *)

Lemma commit_spec b w :
  isDrawingMode (commit b w) = isDrawingMode w /\
  fieldPolygons (commit b w) = fieldPolygons w /\
  fieldPolygons_ref (commit b w) = fieldPolygons_ref w /\
  drawing_committed (commit b w) = isDrawingMode w /\
  area_committed (commit b w) = fieldPolygons_ref w /\
  session (commit b w)
    = (if Bool.eqb (isDrawingMode w) (drawing_committed w) then session w
       else if isDrawingMode w then startDrawing else emptySession) /\
  hostCalls (commit b w)
    = (if bool_decide (fieldPolygons_ref w = area_committed w) && negb b then hostCalls w
       else if onAreaUpdate && bool_decide (0 < length (fieldPolygons w))
            then hostCalls w ++ [totalArea (fieldPolygons w)] else hostCalls w).
Proof.
  unfold commit, drawing_effect, area_effect.
  destruct (Bool.eqb (isDrawingMode w) (drawing_committed w)) eqn:E.
  - apply eqb_prop in E.
    destruct (decide (fieldPolygons_ref w = area_committed w)) as [Hr|Hr];
      [rewrite (bool_decide_true _ Hr)|rewrite (bool_decide_false _ Hr)];
      destruct b; cbn; repeat split; auto.
  - cbn. destruct (decide (fieldPolygons_ref w = area_committed w)) as [Hr|Hr];
      [rewrite (bool_decide_true _ Hr)|rewrite (bool_decide_false _ Hr)];
      destruct b; cbn; repeat split; auto.
Qed.

Lemma commit_rendered b w : rendered (commit b w).
Proof. destruct (commit_spec b w) as (H1 & _ & H3 & H4 & H5 & _). split; congruence. Qed.

Lemma commit_idle w : rendered w -> commit false w = w.
Proof.
  intros [H1 H2]. unfold commit. rewrite H1, eqb_reflx. by rewrite decide_True.
Qed.

Lemma summary_rendered w w' : summary w' = summary w -> rendered w -> rendered w'.
Proof. unfold summary, rendered. intros [= -> -> -> -> _ _ _ _ _]. done. Qed.

(** Every listener but the two that change the React state leaves the
    summary alone. *)
Lemma listener_summary e w :
  e <> CreateField -> (forall q, e <> MapDblClick q) ->
  summary (world_of (listener e w)) = summary w.
Proof.
  intros H1 H2. destruct e; cbn [listener world_of new_callback]; try done.
  - case_match; [apply summary_onMapClick|done].
  - by destruct (H2 latLng).
  - case_match; [apply summary_on_dragstart|done].
  - case_match; [|done]. by rewrite summary_on_drag, summary_follow.
  - case_match; [|done]. by rewrite summary_on_dragend, summary_follow.
  - apply summary_onInputChange.
  - case_match; [apply summary_onPolygonClick|done].
Qed.

(** With no session drawing, nothing a marker or a label could still
    deliver reaches the closure: no handle and no label is on the map. *)
Lemma idle_session_stays e w :
  tracked w -> session w = emptySession -> e <> CreateField ->
  session (world_of (listener e w)) = emptySession.
Proof.
  intros Ht Hs He.
  assert (Hno : forall id o, objects w !! id = Some o -> shown o = true ->
                             is_edge_visual o = false).
  { intros id o Ho Hsh. destruct (is_edge_visual o) eqn:E; [|done].
    destruct (Ht id o Ho Hsh) as [_ H]. apply H in E. rewrite Hs in E.
    by apply elem_of_nil in E. }
  destruct e; cbn [listener world_of new_callback]; try done.
  - by rewrite Hs.
  - by rewrite Hs.
  - destruct (target w marker) as [m|] eqn:Hm; [|done].
    apply target_Some in Hm as (Ho & Hon & _).
    specialize (Hno _ _ Ho Hon). unfold on_dragstart.
    destruct (role m) eqn:Hr; try done. cbn in Hno. by rewrite Hr in Hno.
  - destruct (target w marker) as [m|] eqn:Hm; [|done].
    unfold on_drag, vertex_drag, handle_drag, polygon_vertex_drag.
    assert (Hf : session (follow marker latLng w) = emptySession)
      by (unfold follow; by destruct latLng).
    destruct (role m); try done.
    + destruct latLng; [|done]. rewrite Hf. done.
    + destruct latLng; [|done]. rewrite Hf. done.
    + destruct latLng; [|done].
      unfold addEdgeMarkers, update_polygon. by case_match.
  - destruct (target w marker) as [m|] eqn:Hm; [|done].
    apply target_Some in Hm as (Ho & Hon & _).
    specialize (Hno _ _ Ho Hon). unfold on_dragend.
    assert (Hf : session (follow marker latLng w) = emptySession)
      by (unfold follow; by destruct latLng).
    destruct (role m) eqn:Hr; try done.
    + unfold vertex_dragend. by rewrite hide_ghost_session.
    + cbn in Hno. by rewrite Hr in Hno.
  - unfold onInputChange. destruct (get_overlay w overlay) as [o|] eqn:Ho; [|done].
    destruct (div o) as [d|] eqn:Hd; [|done]. exfalso.
    unfold get_overlay in Ho.
    destruct (objects w !! overlay) as [[m|o']|] eqn:E; try done. injection Ho as ->.
    specialize (Hno _ _ E). cbn in Hno. rewrite Hd in Hno. by specialize (Hno eq_refl).
  - case_match; [|done].
    unfold onPolygonClick, insertAt, on_insert_at, update_polygon.
    cbn [alloc]. by repeat case_match.
Qed.

Lemma foldl_preserves {A B} (f : A -> B -> A) (P : A -> Prop) (l : list B) :
  (forall a b, P a -> P (f a b)) -> forall a, P a -> P (foldl f a l).
Proof. intros Hf. induction l as [|b l IH]; intros a Ha; simpl; auto. Qed.

Lemma committed_onPolygonComplete ring w :
  drawing_committed (onPolygonComplete ring w) = drawing_committed w /\
  area_committed (onPolygonComplete ring w) = area_committed w.
Proof.
  unfold onPolygonComplete. cbv zeta.
  match goal with |- context [foldl ?f ?a ?l] => set (w2 := foldl f a l) end.
  assert (H2 : drawing_committed w2 = drawing_committed w /\
               area_committed w2 = area_committed w).
  { subst w2. apply foldl_preserves; [|done].
    intros a [i v] Ha. unfold add_polygon_vertex. cbn [alloc]. exact Ha. }
  unfold addEdgeMarkers. case_match; [|exact H2]. exact H2.
Qed.

(** The closing double-click, before the render that follows it. *)
Lemma onMapDblClick_closes w :
  3 <= length (vertices (session w)) ->
  let w' := onMapDblClick w in
  session w' = mkSession None (vertices (session w)) [] [] false false /\
  isDrawingMode w' = false /\
  fieldPolygons_ref w' = S (fieldPolygons_ref w) /\
  hostCalls w' = hostCalls w /\
  drawing_committed w' = drawing_committed w /\
  area_committed w' = area_committed w /\
  exists g, fieldPolygons w' = fieldPolygons w ++ [g] /\ path g = vertices (session w) /\
            length (pg_vertexMarkers g) = length (vertices (session w)).
Proof.
  intros Hn. unfold onMapDblClick. rewrite decide_True by exact Hn. cbv zeta.
  match goal with |- context [onPolygonComplete ?r ?x] => set (w1 := x) end.
  destruct (onPolygonComplete_spec (vertices (session w)) w1)
    as ((g & E1 & E2 & E3 & _) & Hs & Hd & Hr & Hh & _).
  destruct (committed_onPolygonComplete (vertices (session w)) w1) as [Hc Ha].
  rewrite Hs, Hd, Hr, Hh, Hc, Ha. repeat split; try done.
  exists g. split; [exact E1|]. split; [exact E2|exact E3].
Qed.

Lemma summary_fields w w' :
  summary w' = summary w ->
  isDrawingMode w' = isDrawingMode w /\ fieldPolygons_ref w' = fieldPolygons_ref w /\
  hostCalls w' = hostCalls w /\ length (fieldPolygons w') = length (fieldPolygons w) /\
  mapClickListener (session w') = mapClickListener (session w) /\
  mapDblClickListener (session w') = mapDblClickListener (session w) /\
  has_polyline (session w') = has_polyline (session w).
Proof. unfold summary. intros [= E1 _ E3 _ E5 E6 E7 E8 E9]. done. Qed.

(** A listener that changes no React state is followed by a render that
    runs no effect. *)
Lemma quiet_step e w :
  rendered w -> e <> CreateField -> (forall q, e <> MapDblClick q) -> e <> HostRender ->
  step w e = world_of (listener e w).
Proof.
  intros Hr H1 H2 H3. unfold step.
  replace (new_callback e) with false by (by destruct e).
  apply commit_idle.
  eapply summary_rendered; [|exact Hr]. by apply listener_summary.
Qed.

Lemma setIsDrawingMode_same w : setIsDrawingMode (isDrawingMode w) w = w.
Proof. by destruct w. Qed.

Lemma in_step_listening w :
  in_step w -> mapDblClickListener (session w) = true -> isDrawingMode w = true.
Proof.
  intros (_ & Hoff & _) Hl. destruct (isDrawingMode w); [done|].
  rewrite Hoff in Hl by done. done.
Qed.

Lemma in_step_step e w : tracked w -> in_step w -> in_step (step w e).
Proof.
  intros Ht Hin. pose proof Hin as (Hr & Hoff & Hon).
  assert (Hother : e <> CreateField -> (forall q, e <> MapDblClick q) -> e <> HostRender ->
                   in_step (step w e)).
  { intros H1 H2 H3. rewrite quiet_step by done.
    pose proof (listener_summary e w H1 H2) as Hs.
    split; [eapply summary_rendered; eauto|].
    apply summary_fields in Hs as (E1 & _ & _ & _ & E7 & E8 & E9).
    split; intros Hd; rewrite E1 in Hd.
    - apply idle_session_stays; auto.
    - rewrite E7, E8, E9. auto. }
  destruct e; try (apply Hother; done).
  - unfold step. cbn [listener world_of new_callback].
    destruct (isDrawingMode w) eqn:Hd.
    + rewrite <- Hd, setIsDrawingMode_same, commit_idle by done. exact Hin.
    + destruct (commit_spec false (setIsDrawingMode true w))
        as (C1 & _ & _ & _ & _ & C6 & _).
      split; [apply commit_rendered|]. rewrite C1, C6.
      destruct Hr as [R1 _]. cbn. rewrite <- R1, Hd. cbn. done.
  - unfold step. cbn [listener world_of new_callback].
    destruct (mapDblClickListener (session w)) eqn:Hl; [|by rewrite commit_idle].
    destruct (decide (3 <= length (vertices (session w)))) as [Hn|Hn].
    + destruct (onMapDblClick_closes w Hn) as (_ & Hd & _ & _ & Hc & _).
      pose proof (in_step_listening w Hin Hl) as Hdm.
      destruct (commit_spec false (onMapDblClick w)) as (C1 & _ & _ & _ & _ & C6 & _).
      split; [apply commit_rendered|]. rewrite C1, C6, Hd, Hc.
      destruct Hr as [R1 _]. rewrite <- R1, Hdm. cbn. done.
    + unfold onMapDblClick. rewrite decide_False by exact Hn. by rewrite commit_idle.
  - unfold step. cbn [listener world_of new_callback].
    destruct (commit_spec true w) as (C1 & _ & _ & _ & _ & C6 & _).
    split; [apply commit_rendered|]. rewrite C1, C6.
    destruct Hr as [R1 _]. rewrite <- R1, eqb_reflx. split; [exact Hoff|exact Hon].
Qed.

Lemma in_step_initial : in_step initial.
Proof. by repeat split. Qed.

Lemma in_step_run es : in_step (run es).
Proof.
  induction es as [|e es IH] using rev_ind.
  - apply in_step_initial.
  - unfold run. rewrite foldl_app. simpl. apply in_step_step; [apply tracked_run|exact IH].
Qed.

Lemma run_snoc es e : run (es ++ [e]) = step (run es) e.
Proof. unfold run. by rewrite foldl_app. Qed.

Lemma heard_run es :
  snd (foldl (fun nw e => (fst nw + hears (snd nw) e, step (snd nw) e)) (0, initial) es)
  = run es.
Proof.
  induction es as [|e es IH] using rev_ind; [done|].
  rewrite foldl_app, run_snoc. cbn [foldl snd]. by rewrite IH.
Qed.

Lemma heard_snoc es e : heard (es ++ [e]) = heard es + hears (run es) e.
Proof. unfold heard. rewrite foldl_app. cbn [foldl fst]. by rewrite heard_run. Qed.

Lemma accounted_step e w n :
  in_step w -> accounted w n -> accounted (step w e) (n + hears w e).
Proof.
  intros Hin [A1 A2]. pose proof Hin as (Hr & _).
  assert (Hother : e <> CreateField -> (forall q, e <> MapDblClick q) -> e <> HostRender ->
                   accounted (step w e) (n + hears w e)).
  { intros H1 H2 H3. rewrite quiet_step by done.
    pose proof (listener_summary e w H1 H2) as Hs.
    apply summary_fields in Hs as (_ & E3 & E5 & E6 & _).
    replace (hears w e) with 0 by (by destruct e). rewrite Nat.add_0_r.
    split; [congruence|]. by rewrite E5, E6. }
  destruct e; try (apply Hother; done); unfold step, hears;
    cbn [listener world_of new_callback andb]; rewrite ?Nat.add_0_r.
  - destruct (commit_spec false (setIsDrawingMode true w))
      as (_ & C2 & C3 & _ & _ & _ & C7).
    destruct Hr as [_ R2]. cbn in C2, C3, C7. rewrite bool_decide_true in C7 by exact R2.
    split; [by rewrite C2, C3|by rewrite C2, C7].
  - destruct (mapDblClickListener (session w)) eqn:Hl; [|by rewrite commit_idle].
    destruct (decide (3 <= length (vertices (session w)))) as [Hn|Hn].
    + destruct (onMapDblClick_closes w Hn) as (_ & _ & Hf & Hh & _ & Ha & g & Hg & _).
      destruct (commit_spec false (onMapDblClick w)) as (_ & C2 & C3 & _ & _ & _ & C7).
      destruct Hr as [_ R2].
      rewrite Hf, Ha, Hh, Hg, bool_decide_false in C7 by lia.
      rewrite length_app in C7. simpl in C7.
      rewrite bool_decide_true, andb_true_r in C7 by lia.
      split.
      * rewrite C2, C3, Hf, Hg, length_app. simpl. lia.
      * rewrite C2, C7, Hg, length_app. simpl.
        destruct onAreaUpdate; [rewrite length_app; simpl; lia|lia].
    + unfold onMapDblClick. rewrite decide_False by exact Hn. by rewrite commit_idle.
  - destruct (commit_spec true w) as (_ & C2 & C3 & _ & _ & _ & C7).
    rewrite andb_false_r in C7.
    split; [by rewrite C2, C3|]. rewrite C2, C7.
    destruct onAreaUpdate; [|done]. cbn [andb].
    destruct (bool_decide (0 < length (fieldPolygons w)));
      [rewrite length_app; simpl; lia|lia].
Qed.

Lemma accounted_run es : accounted (run es) (heard es).
Proof.
  induction es as [|e es IH] using rev_ind.
  - split; [done|]. by destruct onAreaUpdate.
  - rewrite run_snoc, heard_snoc. apply accounted_step; [apply in_step_run|exact IH].
Qed.

(** *** The unit of a label *)

Lemma includes_km_suffix (s : string) : JS.includes (s ++ "km") "km" = true.
Proof.
  unfold JS.includes. induction s as [|a s IH].
  - reflexivity.
  - change (String a s ++ "km")%string with (String a (s ++ "km")).
    cbn [String.index].
    destruct (String.prefix "km" (String a (s ++ "km"))); [done|].
    destruct (String.index 0 "km" (s ++ "km")); done.
Qed.

Lemma no_km_in_metres :
  forallb (fun n => negb (JS.includes (pretty (Z.of_nat n) ++ "m") "km")) (seq 0 1001) = true.
Proof. vm_compute. reflexivity. Qed.

Lemma distanceText_unit (d : float) :
  ((d <? 1000)%float = false -> JS.includes (distanceText d) "km" = true) /\
  (forall q, JS.exact d = Some q -> (0 <= q)%Q -> (d <? 1000)%float = true ->
             JS.includes (distanceText d) "km" = false).
Proof.
  unfold distanceText. split.
  - intros ->. apply includes_km_suffix.
  - intros q Hq Hpos Hlt. rewrite Hlt.
    assert (Hq1 : (q < 1000)%Q) by (by apply (below_1000 d q Hq Hpos)).
    rewrite (round_prints_nearest d q Hq Hpos Hq1).
    destruct (nearest_bounds q 0 1000) as [Hn0 Hn1]; [exact Hpos|exact Hq1|].
    pose proof no_km_in_metres as Hall. rewrite forallb_forall in Hall.
    specialize (Hall (Z.to_nat (JS.nearest q))).
    rewrite Z2Nat.id in Hall by exact Hn0.
    apply negb_true_iff, Hall, in_seq. lia.
Qed.

Lemma faithful_run es : good faithful_label (run es).
Proof.
  apply good_run.
  - done.
  - intros vs i p1. split; [reflexivity|]. split; [reflexivity|].
    by intros d [= <-].
  - intros [m|o]; [done|]. intros (H1 & H2 & _). split; [exact H1|].
    split; [exact H2|]. intros d [=].
Qed.

(** *** The session's arrays hold live objects *)

Lemma disposal_lookup ids (h : gmap nat MapObject) id :
  foldl (fun h id => alter setMap_null id h) h ids !! id
  = if decide (id ∈ ids) then setMap_null <$> h !! id else h !! id.
Proof.
  revert h; induction ids as [|a ids IH]; intros h; cbn [foldl].
  - rewrite decide_False; [done|]. apply not_elem_of_nil.
  - rewrite IH. destruct (decide (a = id)) as [->|Hne].
    + rewrite lookup_alter_eq. rewrite (decide_True (P := id ∈ id :: ids)) by left.
      destruct (decide (id ∈ ids)); [|done].
      destruct (h !! id) as [o|]; [|done]. simpl. f_equal. by destruct o.
    + rewrite lookup_alter_ne by done. destruct (decide (id ∈ ids)) as [Hin|Hout].
      * rewrite decide_True; [done|]. by right.
      * rewrite decide_False; [done|]. intros [->|?]%elem_of_cons; done.
Qed.

Lemma listed_below w id :
  listed w -> id ∈ vertexMarkers (session w) \/ id ∈ edgeMarkers (session w) ->
  id < fresh w.
Proof.
  intros (Hwf & _ & HV & HE & _) [H|H].
  - destruct (HV id H) as (m & Hm & _). exact (Hwf _ _ Hm).
  - destruct (HE id H) as (o & Ho & _). exact (Hwf _ _ Ho).
Qed.

Lemma listed_disjoint w id :
  listed w -> id ∈ vertexMarkers (session w) -> id ∈ edgeMarkers (session w) -> False.
Proof.
  intros (_ & _ & HV & HE & _) H1 H2.
  destruct (HV id H1) as (m & Hm & Hr & _). destruct (HE id H2) as (o & Ho & He & _).
  rewrite Hm in Ho. injection Ho as <-. cbn in He. by rewrite Hr in He.
Qed.

Lemma ghost_unlisted w g :
  listed w -> ghost_at w g ->
  (g ∉ vertexMarkers (session w)) /\ (g ∉ edgeMarkers (session w)).
Proof.
  intros (_ & _ & HV & HE & _) (mg & Hg & Hr). split; intros H.
  - destruct (HV g H) as (m & Hm & Hr' & _). rewrite Hg in Hm. injection Hm as <-.
    congruence.
  - destruct (HE g H) as (o & Ho & He & _). rewrite Hg in Ho. injection Ho as <-.
    cbn in He. by rewrite Hr in He.
Qed.

(** Objects are kept or taken off the map, the arrays shrink. *)
Lemma listed_hide w w' :
  listed w -> fresh w' = fresh w -> fieldPolygons w' = fieldPolygons w ->
  (forall id, objects w' !! id = objects w !! id \/
              ((id ∉ vertexMarkers (session w')) /\ (id ∉ edgeMarkers (session w')) /\
               objects w' !! id = setMap_null <$> objects w !! id)) ->
  NoDup (vertexMarkers (session w')) ->
  vertexMarkers (session w') ⊆ vertexMarkers (session w) ->
  edgeMarkers (session w') ⊆ edgeMarkers (session w) ->
  listed w'.
Proof.
  intros (Hwf & Hnd & HV & HE & HG & HP) Hfr Hpg Hobj Hnd' Hv He.
  assert (Hgh : forall g, ghost_at w g -> ghost_at w' g).
  { intros g (mg & Hg & Hr). destruct (Hobj g) as [E|(_ & _ & E)].
    - exists mg. by rewrite E.
    - rewrite Hg in E. cbn in E. eexists. split; [exact E|exact Hr]. }
  split; [|split; [exact Hnd'|split; [|split; [|split]]]].
  - intros k o Ho. rewrite Hfr. destruct (Hobj k) as [E|(_ & _ & E)]; rewrite E in Ho.
    + exact (Hwf _ _ Ho).
    + destruct (objects w !! k) as [o'|] eqn:E'; [|done]. exact (Hwf _ _ E').
  - intros id Hin. destruct (HV id (Hv _ Hin)) as (m & Hm & H).
    exists m. destruct (Hobj id) as [E|(Hout & _)]; [by rewrite E|done].
  - intros id Hin. destruct (HE id (He _ Hin)) as (o & Ho & H).
    exists o. destruct (Hobj id) as [E|(_ & Hout & _)]; [by rewrite E|done].
  - intros id m g Ho Hd. apply Hgh.
    destruct (Hobj id) as [E|(_ & _ & E)]; rewrite E in Ho.
    + exact (HG _ _ _ Ho Hd).
    + destruct (objects w !! id) as [[m0|o0]|] eqn:E'; try done.
      cbn in Ho. injection Ho as <-. cbn in Hd. exact (HG _ _ _ E' Hd).
  - intros k g. rewrite Hpg. apply HP.
Qed.

Lemma ghost_at_alter f id w g :
  (forall m, role (f m) = role m) ->
  ghost_at w g -> ghost_at (with_objects (alter (update_marker f) id) w) g.
Proof.
  intros Hf (mg & Hg & Hr). unfold ghost_at. cbn [with_objects objects].
  destruct (decide (id = g)) as [->|Hne].
  - exists (f mg). rewrite lookup_alter_eq, Hg. split; [done|]. by rewrite Hf.
  - exists mg. by rewrite lookup_alter_ne.
Qed.

Lemma listed_alter f id w :
  keeps_listing w f -> listed w -> listed (with_objects (alter (update_marker f) id) w).
Proof.
  intros Hf (Hwf & Hnd & HV & HE & HG & HP).
  assert (Hr : forall m, role (f m) = role m) by (intros m; by destruct (Hf m)).
  split; [|split; [exact Hnd|split; [|split; [|split; [|exact HP]]]]].
  - intros k o. cbn [with_objects objects fresh].
    rewrite lookup_alter_Some. intros [(-> & o' & Ho' & _)|[_ Ho]].
    + exact (Hwf _ _ Ho').
    + exact (Hwf _ _ Ho).
  - intros k Hin. destruct (HV k Hin) as (m & Hm & H1 & H2 & H3).
    unfold vertex_ok. cbn [with_objects objects].
    destruct (decide (id = k)) as [->|Hne].
    + exists (f m). rewrite lookup_alter_eq, Hm. destruct (Hf m) as (F1 & F2 & F3 & _).
      split; [done|]. by rewrite F1, F2, F3.
    + exists m. by rewrite lookup_alter_ne.
  - intros k Hin. destruct (HE k Hin) as (o & Ho & H1 & H2).
    unfold edge_ok. cbn [with_objects objects].
    destruct (decide (id = k)) as [->|Hne].
    + exists (update_marker f o). rewrite lookup_alter_eq, Ho. split; [done|].
      destruct o as [m|a]; [|done]. cbn in *. destruct (Hf m) as (F1 & F2 & _).
      by rewrite F1, F2.
    + exists o. by rewrite lookup_alter_ne.
  - intros k m g. cbn [with_objects objects]. rewrite lookup_alter_Some.
    intros [(-> & o' & Ho' & E)|[_ Ho]] Hd.
    + destruct o' as [m0|a]; [|done]. injection E as ->.
      destruct (Hf m0) as (_ & _ & _ & F4). destruct (F4 g Hd) as [Hd0|Hg].
      * apply ghost_at_alter; [exact Hr|]. exact (HG _ _ _ Ho' Hd0).
      * apply ghost_at_alter; [exact Hr|exact Hg].
    + apply ghost_at_alter; [exact Hr|]. exact (HG _ _ _ Ho Hd).
Qed.

(** A new object; the arrays may take its identity in. *)
Lemma listed_add w w' o :
  listed w -> objects w' = <[fresh w := o]> (objects w) -> fresh w' = S (fresh w) ->
  fieldPolygons w' = fieldPolygons w ->
  (forall m, o = AMarker m -> dragMarker m = None) ->
  NoDup (vertexMarkers (session w')) ->
  (forall id, id ∈ vertexMarkers (session w') ->
     id ∈ vertexMarkers (session w) \/ vertex_ok w' id) ->
  (forall id, id ∈ edgeMarkers (session w') ->
     id ∈ edgeMarkers (session w) \/ edge_ok w' id) ->
  listed w'.
Proof.
  intros Hw Hobj Hfr Hpg Hd Hnd' Hv He.
  pose proof Hw as (Hwf & Hnd & HV & HE & HG & HP).
  assert (Hold : forall id x, objects w !! id = Some x -> objects w' !! id = Some x).
  { intros id x Hx. rewrite Hobj, lookup_insert_ne; [done|].
    pose proof (Hwf _ _ Hx) as Hlt. cbn in Hlt. lia. }
  split; [|split; [exact Hnd'|split; [|split; [|split]]]].
  - intros k x. rewrite Hobj, Hfr, lookup_insert_Some. intros [[<- _]|[_ Hx]]; [lia|].
    pose proof (Hwf _ _ Hx) as Hlt. cbn in Hlt. lia.
  - intros id Hin. destruct (Hv id Hin) as [H|H]; [|exact H].
    destruct (HV id H) as (m & Hm & H'). exists m. split; [by apply Hold|exact H'].
  - intros id Hin. destruct (He id Hin) as [H|H]; [|exact H].
    destruct (HE id H) as (x & Hx & H'). exists x. split; [by apply Hold|exact H'].
  - intros id m g. rewrite Hobj, lookup_insert_Some. intros [[<- Ho]|[_ Hx]] Hdm.
    + by rewrite (Hd m Ho) in Hdm.
    + destruct (HG _ _ _ Hx Hdm) as (mg & Hg & Hr). exists mg. split; [by apply Hold|exact Hr].
  - intros k g. rewrite Hpg. apply HP.
Qed.

(** The polygons change, nothing else. *)
Lemma listed_polygons w w' :
  listed w -> objects w' = objects w -> fresh w' = fresh w -> session w' = session w ->
  (forall k g, fieldPolygons w' !! k = Some g -> pg_edgeMarkers g = []) ->
  listed w'.
Proof.
  intros (Hwf & Hnd & HV & HE & HG & HP) Ho Hf Hs Hp.
  unfold listed, well_formed, vertex_ok, edge_ok, ghost_at. rewrite Ho, Hf, Hs. done.
Qed.

Lemma listed_update_polygon k f w :
  (forall g, pg_edgeMarkers g = [] -> pg_edgeMarkers (f g) = []) ->
  listed w -> listed (update_polygon k f w).
Proof.
  intros Hf Hw. apply (listed_polygons w); try done.
  destruct Hw as (_ & _ & _ & _ & _ & HP).
  intros k' g'. unfold update_polygon. cbn [map_polygons fieldPolygons].
  rewrite list_lookup_alter. destruct (decide _) as [->|Hne]; [|apply HP].
  destruct (fieldPolygons w !! k') as [g|] eqn:E; cbn; [|done].
  intros [= <-]. apply Hf. exact (HP _ _ E).
Qed.

(** Frames that touch neither the objects nor the two arrays. *)
Lemma listed_session f w :
  vertexMarkers (f (session w)) = vertexMarkers (session w) ->
  edgeMarkers (f (session w)) = edgeMarkers (session w) ->
  listed w -> listed (with_session f w).
Proof.
  intros Hv He Hw. apply (listed_hide w); try done.
  - intros id. by left.
  - cbn. rewrite Hv. by destruct Hw as (_ & ? & _).
  - cbn. by rewrite Hv.
  - cbn. by rewrite He.
Qed.

Lemma listed_refresh_polyline w : listed w -> listed (refresh_polyline w).
Proof.
  intros Hw. destruct (refresh_polyline_shape w) as [pl ->]. by apply listed_session.
Qed.

Lemma listed_react w w' :
  listed w -> objects w' = objects w -> fresh w' = fresh w -> session w' = session w ->
  fieldPolygons w' = fieldPolygons w -> listed w'.
Proof.
  intros Hw Ho Hf Hs Hp. apply (listed_polygons w); try done.
  rewrite Hp. by destruct Hw as (_ & _ & _ & _ & _ & ?).
Qed.

Lemma listed_remove id w :
  id ∉ vertexMarkers (session w) -> id ∉ edgeMarkers (session w) ->
  listed w -> listed (with_objects (alter setMap_null id) w).
Proof.
  intros Hv He Hw. apply (listed_hide w); try done.
  - intros k. cbn [with_objects objects session].
    destruct (decide (id = k)) as [->|Hne].
    + right. by rewrite lookup_alter_eq.
    + left. by rewrite lookup_alter_ne.
  - by destruct Hw as (_ & ? & _).
Qed.

Lemma listed_clear_edges w :
  listed w ->
  listed (with_session (set_edgeMarkers []) (dispose_all (edgeMarkers (session w)) w)).
Proof.
  intros Hw. apply (listed_hide w); try done.
  - intros k. unfold dispose_all.
    cbn [with_session with_objects objects session set_edgeMarkers vertexMarkers
           edgeMarkers].
    rewrite disposal_lookup. destruct (decide (k ∈ edgeMarkers (session w))) as [Hin|Hout].
    + right. split; [|split; [apply not_elem_of_nil|done]].
      intros Hk. exact (listed_disjoint w k Hw Hk Hin).
    + by left.
  - cbn. by destruct Hw as (_ & ? & _).
  - cbn. intros x Hx. by apply elem_of_nil in Hx.
Qed.

Lemma listed_cleared (s' : Session) w :
  vertexMarkers s' = [] -> edgeMarkers s' = [] ->
  listed w ->
  listed (with_session (fun _ => s')
            (dispose_all (edgeMarkers (session w))
               (dispose_all (vertexMarkers (session w)) w))).
Proof.
  intros Hv He Hw. apply (listed_hide w); try done;
    cbn [with_session session]; rewrite ?Hv, ?He.
  - intros k. unfold dispose_all. cbn [with_session with_objects objects session].
    rewrite !disposal_lookup.
    destruct (decide (k ∈ edgeMarkers (session w))) as [Hin|Hout];
      destruct (decide (k ∈ vertexMarkers (session w))) as [Hin'|Hout'].
    + destruct (listed_disjoint w k Hw Hin' Hin).
    + right. split; [apply not_elem_of_nil|]. split; [apply not_elem_of_nil|done].
    + right. split; [apply not_elem_of_nil|]. split; [apply not_elem_of_nil|done].
    + by left.
  - constructor.
  - intros x Hx. by apply elem_of_nil in Hx.
  - intros x Hx. by apply elem_of_nil in Hx.
Qed.

Lemma listed_add_edge w ip : listed w -> listed (add_edge w ip).
Proof.
  destruct ip as [i p1]. intros Hw. rewrite add_edge_unfold.
  set (label := AnOverlay (label_for (vertices (session w)) i p1)).
  set (handle := AMarker (handle_for (vertices (session w)) i p1)).
  set (w1 := mkWorld (<[fresh w := label]> (objects w)) (S (fresh w))
               (set_edgeMarkers (edgeMarkers (session w) ++ [fresh w]) (session w))
               (isDrawingMode w) (fieldPolygons w) (fieldPolygons_ref w)
               (drawing_committed w) (area_committed w) (hostCalls w)).
  assert (H1 : listed w1).
  { apply (listed_add w w1 label); [exact Hw|reflexivity|reflexivity|reflexivity|..].
    - subst label. by intros m.
    - by destruct Hw as (_ & ? & _).
    - intros id Hin. by left.
    - intros id Hin. cbn in Hin. apply elem_of_app in Hin as [Hin|Hin]; [by left|].
      apply list_elem_of_singleton in Hin as ->. right.
      exists label. cbn. by rewrite lookup_insert_eq. }
  apply (listed_add w1 _ handle); [exact H1|reflexivity|reflexivity|reflexivity|..].
  - subst handle. by intros m [= <-].
  - by destruct Hw as (_ & ? & _).
  - intros id Hin. by left.
  - intros id Hin. cbn in Hin. apply elem_of_app in Hin as [Hin|Hin]; [by left|].
    apply list_elem_of_singleton in Hin as ->. right.
    exists handle. cbn. by rewrite lookup_insert_eq.
Qed.

Lemma listed_updateEdgeMarkers w : listed w -> listed (updateEdgeMarkers w).
Proof.
  intros Hw. unfold updateEdgeMarkers. cbv zeta.
  pose proof (listed_clear_edges w Hw) as H0.
  destruct (decide _) as [Hn|Hn]; [|exact H0].
  set (w0 := with_session (set_edgeMarkers [])
               (dispose_all (edgeMarkers (session w)) w)) in *.
  set (l := imap pair (vertices (session w0))).
  clearbody l. clearbody w0. clear Hn. revert w0 H0.
  induction l as [|ip l IH]; intros w0 H0; [done|].
  simpl. apply IH. by apply listed_add_edge.
Qed.

Lemma NoDup_splice_in (i x : nat) (l : list nat) :
  x ∉ l -> NoDup l -> NoDup (splice_in i x l).
Proof.
  intros Hx Hl. unfold splice_in. rewrite <- (take_drop i l) in Hx, Hl.
  apply NoDup_app in Hl as (H1 & H2 & H3).
  apply NoDup_app. split; [exact H1|]. split.
  - intros y Hy [->|Hy']%elem_of_cons.
    + apply Hx, elem_of_app. by left.
    + by apply (H2 y).
  - apply NoDup_cons. split; [|exact H3]. intros H. apply Hx, elem_of_app. by right.
Qed.

Lemma elem_of_splice_in (i x y : nat) (l : list nat) :
  y ∈ splice_in i x l -> y = x \/ y ∈ l.
Proof.
  unfold splice_in. intros [H|[->|H]%elem_of_cons]%elem_of_app; [right|by left|right].
  - by apply (subseteq_take i l).
  - by apply (subseteq_drop i l).
Qed.

(** A new vertex marker, taken into [vertexMarkers] at the end or in the
    middle. *)
Lemma listed_add_vertex p (l : list nat) w :
  (forall y, y ∈ l -> y = fresh w \/ y ∈ vertexMarkers (session w)) ->
  NoDup l ->
  listed w ->
  listed (with_session (set_vertexMarkers l) (add_object (AMarker (circle_vertex p)) w)).
Proof.
  intros Hl Hnd Hw. apply (listed_add w _ (AMarker (circle_vertex p))); try done.
  - by intros m [= <-].
  - intros id Hin. cbn in Hin. destruct (Hl id Hin) as [->|H]; [right|by left].
    exists (circle_vertex p). cbn. by rewrite lookup_insert_eq.
  - intros id Hin. by left.
Qed.

Lemma listed_show_ghost id m w : listed w -> listed (show_ghost id m w).
Proof.
  intros Hw. unfold show_ghost. cbn [alloc].
  assert (H1 : listed (add_object (AMarker (drag_ghost (position m))) w)).
  { apply (listed_add w _ (AMarker (drag_ghost (position m)))); try done.
    - by intros m' [= <-].
    - by destruct Hw as (_ & ? & _).
    - intros k Hk. by left.
    - intros k Hk. by left. }
  apply listed_alter; [|exact H1].
  intros m0. repeat split. intros g [= <-]. right.
  exists (drag_ghost (position m)). cbn. by rewrite lookup_insert_eq.
Qed.

Lemma keeps_listing_position w p : keeps_listing w (set_position p).
Proof. intros m. repeat split. intros g Hg. by left. Qed.

Lemma listed_move_ghost m p w : listed w -> listed (move_ghost m p w).
Proof.
  intros Hw. unfold move_ghost. destruct (dragMarker m); [|done].
  apply listed_alter; [apply keeps_listing_position|exact Hw].
Qed.

Lemma listed_follow id q w : listed w -> listed (follow id q w).
Proof.
  intros Hw. unfold follow. destruct q; [|done].
  apply listed_alter; [apply keeps_listing_position|exact Hw].
Qed.

Lemma listed_hide_ghost id m w :
  (forall g, dragMarker m = Some g -> ghost_at w g) ->
  listed w -> listed (hide_ghost id m w).
Proof.
  intros Hg Hw. unfold hide_ghost. apply listed_alter.
  - intros m0. repeat split. intros g [=].
  - destruct (dragMarker m) as [g|]; [|exact Hw].
    destruct (ghost_unlisted w g Hw (Hg g eq_refl)) as [H1 H2].
    by apply listed_remove.
Qed.

Lemma listed_onMapClick q w : listed w -> listed (onMapClick q w).
Proof.
  intros Hw. unfold onMapClick. destruct q as [p|]; [|done].
  destruct (tempPolyline (session w)); [|done]. cbn [alloc].
  apply listed_updateEdgeMarkers, listed_refresh_polyline.
  set (w1 := with_session (fun s => set_vertices (vertices s ++ [p]) s) w).
  assert (H1 : listed w1) by (by apply listed_session).
  apply (listed_add_vertex p (vertexMarkers (session w1) ++ [fresh w1]) w1); [| |exact H1].
  - intros y [Hy|Hy]%elem_of_app; [by right|].
    apply list_elem_of_singleton in Hy. by left.
  - apply NoDup_app. split; [by destruct H1 as (_ & ? & _)|]. split; [|apply NoDup_singleton].
    intros y Hy Hy'. apply list_elem_of_singleton in Hy' as ->.
    pose proof (listed_below w1 _ H1 (or_introl Hy)). lia.
Qed.

Lemma listed_on_dragstart id m w : listed w -> listed (on_dragstart id m w).
Proof.
  intros Hw. unfold on_dragstart, vertex_dragstart, handle_dragstart.
  destruct (role m); try done; [by apply listed_show_ghost|]. cbv zeta.
  apply listed_alter.
  - intros m0. repeat split. intros g Hg. by left.
  - apply listed_session; [done|done|]. by apply listed_show_ghost.
Qed.

Lemma listed_addEdgeMarkers k w : listed w -> listed (addEdgeMarkers k w).
Proof.
  intros Hw. unfold addEdgeMarkers.
  destruct (fieldPolygons w !! k) as [g|] eqn:E; [|done].
  pose proof Hw as (_ & _ & _ & _ & _ & HP). rewrite (HP _ _ E).
  apply listed_update_polygon; [done|].
  apply (listed_react w); done.
Qed.

Lemma listed_on_drag id m q w : listed w -> listed (on_drag id m q w).
Proof.
  intros Hw. unfold on_drag, vertex_drag, handle_drag, polygon_vertex_drag.
  destruct (role m); try done.
  - destruct q as [p|]; [|done]. destruct (indexOf _ _); [|done].
    apply listed_updateEdgeMarkers, listed_refresh_polyline, listed_move_ghost.
    by apply listed_session.
  - destruct q as [p|]; [|done]. destruct (tempPolyline (session w)); [|done].
    destruct (tempVertexIndex m); [|by apply listed_move_ghost].
    apply listed_refresh_polyline, listed_session; [done|done|].
    by apply listed_move_ghost.
  - destruct q as [p|]; [|done].
    apply listed_addEdgeMarkers, listed_update_polygon; done.
Qed.

Lemma vertexMarkers_refresh_polyline w :
  vertexMarkers (session (refresh_polyline w)) = vertexMarkers (session w).
Proof. destruct (refresh_polyline_shape w) as [pl ->]. done. Qed.

Lemma vertices_refresh_polyline w :
  vertices (session (refresh_polyline w)) = vertices (session w).
Proof. destruct (refresh_polyline_shape w) as [pl ->]. done. Qed.

Lemma edgeMarkers_refresh_polyline w :
  edgeMarkers (session (refresh_polyline w)) = edgeMarkers (session w).
Proof. destruct (refresh_polyline_shape w) as [pl ->]. done. Qed.

Lemma hide_ghost_vertexMarkers id m w :
  vertexMarkers (session (hide_ghost id m w)) = vertexMarkers (session w).
Proof. by rewrite hide_ghost_session. Qed.

Lemma listed_on_dragend id m q w :
  (forall g, dragMarker m = Some g -> ghost_at w g) ->
  (role m <> SessionVertex -> id ∉ vertexMarkers (session w)) ->
  id < fresh w ->
  listed w -> listed (on_dragend id m q w).
Proof.
  intros Hg Hid Hlt Hw. unfold on_dragend, vertex_dragend, handle_dragend.
  pose proof (listed_hide_ghost id m w Hg Hw) as H1.
  destruct (role m) eqn:Hr; try done. cbv zeta.
  destruct q as [p|]; [|done]. destruct (tempVertexIndex m) as [t|]; [|done].
  cbn [alloc].
  set (w1 := hide_ghost id m w) in *.
  set (w2 := with_session (fun s => set_vertices (<[t := p]> (vertices s)) s) w1).
  assert (H2 : listed w2) by (by apply listed_session).
  set (l := splice_in t (fresh w2) (vertexMarkers (session w2))).
  assert (H4 : listed (with_session (set_vertexMarkers l)
                         (add_object (AMarker (circle_vertex p)) w2))).
  { apply listed_add_vertex; [| |exact H2].
    - intros y Hy. by apply elem_of_splice_in in Hy.
    - apply NoDup_splice_in; [|by destruct H2 as (_ & ? & _)].
      intros Hy. pose proof (listed_below w2 _ H2 (or_introl Hy)). lia. }
  apply listed_updateEdgeMarkers.
  match goal with
  | |- listed (with_objects _ (with_session _ (dispose_all _ ?x))) => set (w5 := x)
  end.
  assert (H5 : listed w5) by (subst w5; by apply listed_refresh_polyline).
  apply listed_remove; [| |by apply listed_clear_edges].
  - cbn [with_session session set_edgeMarkers vertexMarkers dispose_all with_objects].
    subst w5. rewrite vertexMarkers_refresh_polyline.
    cbn [with_session session set_vertexMarkers vertexMarkers add_object].
    subst l. intros [Hy|Hy]%elem_of_splice_in.
    + subst w2 w1. cbn [with_session fresh] in Hy.
      rewrite hide_ghost_fresh in Hy. lia.
    + subst w2 w1. cbn [with_session session set_vertices vertexMarkers] in Hy.
      rewrite hide_ghost_vertexMarkers in Hy. apply Hid; [done|exact Hy].
  - cbn. apply not_elem_of_nil.
Qed.

Lemma listed_add_polygon_vertex k w ip : listed w -> listed (add_polygon_vertex k w ip).
Proof.
  destruct ip as [i v]. intros Hw. unfold add_polygon_vertex. cbn [alloc].
  apply listed_update_polygon; [done|].
  apply (listed_add w _ (AMarker (polygon_vertex v k i))); try done.
  - by intros m [= <-].
  - by destruct Hw as (_ & ? & _).
  - intros id Hin. by left.
  - intros id Hin. by left.
Qed.

Lemma listed_onPolygonComplete ring w : listed w -> listed (onPolygonComplete ring w).
Proof.
  intros Hw. unfold onPolygonComplete. cbv zeta. apply listed_addEdgeMarkers.
  apply foldl_preserves; [intros a b Ha; by apply listed_add_polygon_vertex|].
  apply (listed_polygons w); try done.
  destruct Hw as (_ & _ & _ & _ & _ & HP).
  intros k g. cbn [setIsDrawingMode setFieldPolygons fieldPolygons].
  rewrite lookup_app_Some. intros [H|[_ H]]; [exact (HP _ _ H)|].
  apply list_lookup_singleton_Some in H as [_ <-]. done.
Qed.

Lemma listed_onMapDblClick w : listed w -> listed (onMapDblClick w).
Proof.
  intros Hw. unfold onMapDblClick. cbv zeta. destruct (decide _); [|done].
  apply listed_onPolygonComplete. apply listed_session; [done|done|].
  match goal with
  | |- listed (with_session ?f (dispose_all ?e (dispose_all ?v ?x))) =>
      change (listed (with_session
                        (fun _ => f (session x))
                        (dispose_all (edgeMarkers (session x))
                           (dispose_all (vertexMarkers (session x)) x))))
  end.
  apply listed_cleared; [done|done|]. by apply listed_session.
Qed.

Lemma listed_onPolygonClick k e v q w : listed w -> listed (onPolygonClick k e v q w).
Proof.
  intros Hw. unfold onPolygonClick, insertAt, on_insert_at.
  destruct e as [e|]; [|done]. destruct v; [done|]. destruct q as [p|]; [|done].
  set (w1 := update_polygon k (fun g => set_path (splice_in (e + 1) p (path g)) g) w).
  assert (H1 : listed w1) by (by apply listed_update_polygon).
  destruct (fieldPolygons w1 !! k) as [g|]; [|done].
  destruct (path g !! (e + 1)) as [vertex|]; [|done]. cbn [alloc].
  apply listed_update_polygon; [done|].
  apply (listed_add w1 _ (AMarker (polygon_vertex vertex k (e + 1)))); try done.
  - by intros m [= <-].
  - by destruct H1 as (_ & ? & _).
  - intros id Hin. by left.
  - intros id Hin. by left.
Qed.

Lemma listed_onInputChange id x w : listed w -> listed (world_of (onInputChange id x w)).
Proof.
  intros Hw. unfold onInputChange, handleDistanceChange.
  destruct (get_overlay w id) as [o|]; [|done].
  destruct (div o) as [d|]; [|done].
  destruct (JS.isNaN x); [done|]. cbv zeta.
  destruct (decide _); [done|].
  set (w1 := with_session _ w).
  assert (H1 : listed w1) by (by apply listed_session).
  destruct (vertexMarkers (session w1) !! _); cbn [world_of]; [|exact H1].
  apply listed_updateEdgeMarkers, listed_refresh_polyline, listed_alter;
    [apply keeps_listing_position|exact H1].
Qed.

Lemma listed_commit b w : listed w -> listed (commit b w).
Proof.
  intros Hw. unfold commit.
  set (w1 := if Bool.eqb (isDrawingMode w) (drawing_committed w) then w
             else drawing_effect w).
  assert (H1 : listed w1).
  { subst w1. destruct (Bool.eqb _ _); [exact Hw|]. unfold drawing_effect. cbv zeta.
    match goal with |- listed (set_committed _ _ _ ?x) => apply (listed_react x) end;
      try done.
    apply listed_cleared; [by destruct (isDrawingMode _)|by destruct (isDrawingMode _)|done]. }
  clearbody w1. cbv zeta.
  assert (H2 : listed (area_effect w1)) by (by apply (listed_react w1)).
  destruct (decide _); [destruct b|]; assumption.
Qed.

Lemma listed_target w id m :
  listed w -> target w id = Some m ->
  (forall g, dragMarker m = Some g -> ghost_at w g) /\
  (role m <> SessionVertex -> id ∉ vertexMarkers (session w)) /\ id < fresh w.
Proof.
  intros Hw Hm. apply target_Some in Hm as (Ho & _).
  pose proof Hw as (Hwf & _ & HV & _ & HG & _). split; [|split].
  - intros g Hg. exact (HG _ _ _ Ho Hg).
  - intros Hr Hin. destruct (HV id Hin) as (m' & Hm' & Hr' & _).
    rewrite Ho in Hm'. injection Hm' as <-. done.
  - exact (Hwf _ _ Ho).
Qed.

Lemma listed_listener e w : listed w -> listed (world_of (listener e w)).
Proof.
  intros Hw. destruct e; cbn [listener world_of new_callback].
  - by apply (listed_react w).
  - destruct (mapClickListener _); [by apply listed_onMapClick|done].
  - destruct (mapDblClickListener _); [by apply listed_onMapDblClick|done].
  - destruct (target w marker); [by apply listed_on_dragstart|done].
  - destruct (target w marker); [by apply listed_on_drag, listed_follow|done].
  - destruct (target w marker) as [m|] eqn:Hm; [|done].
    destruct (listed_target w marker m Hw Hm) as (H1 & H2 & H3).
    apply listed_on_dragend; [| | |by apply listed_follow].
    + intros g Hg. destruct latLng; [|by apply H1].
      apply ghost_at_alter; [done|by apply H1].
    + intros Hr. destruct latLng; by apply H2.
    + by destruct latLng.
  - by apply listed_onInputChange.
  - destruct (decide _); [by apply listed_onPolygonClick|done].
  - done.
Qed.

Lemma listed_run es : listed (run es).
Proof.
  induction es as [|e es IH] using rev_ind.
  - unfold run. cbn. repeat split; try done.
    + constructor.
    + intros id H. by apply elem_of_nil in H.
    + intros id H. by apply elem_of_nil in H.
  - rewrite run_snoc. unfold step. by apply listed_commit, listed_listener.
Qed.

(** *** Drags in a state the component can reach *)

Lemma indexOf_lookup (l : list nat) k id :
  NoDup l -> l !! k = Some id -> indexOf id l = Some k.
Proof.
  revert k. induction l as [|a l IH]; intros k Hnd Hk; [done|].
  apply NoDup_cons in Hnd as [Ha Hnd]. destruct k as [|k]; cbn [indexOf].
  - injection Hk as ->. by rewrite decide_True.
  - cbn in Hk. rewrite decide_False.
    + by rewrite (IH k Hnd Hk).
    + intros ->. apply Ha. by eapply list_elem_of_lookup_2.
Qed.

Lemma move_ghost_session m p w : session (move_ghost m p w) = session w.
Proof. unfold move_ghost. by destruct (dragMarker m). Qed.

Lemma move_ghost_fresh m p w : fresh (move_ghost m p w) = fresh w.
Proof. unfold move_ghost. by destruct (dragMarker m). Qed.

Lemma move_ghost_position m p w id m0 :
  objects w !! id = Some (AMarker m0) -> position m0 = p ->
  exists m1, objects (move_ghost m p w) !! id = Some (AMarker m1) /\ position m1 = p.
Proof.
  intros Hm Hp. unfold move_ghost. destruct (dragMarker m) as [g|]; [|by exists m0].
  cbn [with_objects objects]. destruct (decide (g = id)) as [->|Hne].
  - exists (set_position p m0). by rewrite lookup_alter_eq, Hm.
  - exists m0. by rewrite lookup_alter_ne.
Qed.

Lemma listed_vertex_target w k id :
  listed w -> vertexMarkers (session w) !! k = Some id ->
  exists m, target w id = Some m /\ objects w !! id = Some (AMarker m) /\
            role m = SessionVertex /\ indexOf id (vertexMarkers (session w)) = Some k /\
            id < fresh w.
Proof.
  intros Hw Hk. pose proof Hw as (Hwf & Hnd & HV & _).
  destruct (HV id (list_elem_of_lookup_2 _ _ _ Hk)) as (m & Hm & Hr & Hon & Hdr).
  exists m. unfold target, get_marker. rewrite Hm, Hon, Hdr.
  repeat split; try done.
  - by apply indexOf_lookup.
  - exact (Hwf _ _ Hm).
Qed.

Lemma drawing_when_listed es k id :
  vertexMarkers (session (run es)) !! k = Some id ->
  exists pl, tempPolyline (session (run es)) = Some pl.
Proof.
  intros Hk. destruct (in_step_run es) as (_ & Hoff & Hon).
  destruct (isDrawingMode (run es)).
  - destruct Hon as (_ & _ & Hp); [done|]. unfold has_polyline in Hp.
    destruct (tempPolyline (session (run es))) as [pl|]; [by exists pl|done].
  - rewrite Hoff in Hk by done. done.
Qed.

(** Events that change no React state. *)
Lemma run_listeners evs : forall es,
  Forall (fun e => e <> CreateField /\ (forall q, e <> MapDblClick q) /\ e <> HostRender)
    evs ->
  run (es ++ evs) = listeners evs (run es).
Proof.
  induction evs as [|e evs IH]; intros es Hq.
  - by rewrite app_nil_r.
  - apply Forall_cons in Hq as [(H1 & H2 & H3) Hq].
    change (e :: evs) with ([e] ++ evs) at 1. rewrite app_assoc, IH by exact Hq.
    rewrite run_snoc, quiet_step; [done| |done|done|done].
    by destruct (in_step_run es).
Qed.

(** The ring while the handle of edge [i] is in flight: the provisional
    vertex is the only one a drag touches. *)
Lemma drag_handle_ring w h i q (A B : list LatLng) x :
  in_flight w h i -> length A = i + 1 -> vertices (session w) = A ++ x :: B ->
  exists x', vertices (session (world_of (listener (Drag h q) w))) = A ++ x' :: B.
Proof.
  intros Hin HA Hv. cbn [listener world_of new_callback].
  destruct (in_flight_target _ _ _ Hin) as (m & -> & Hr & Hidx).
  unfold on_drag. rewrite Hr. unfold handle_drag.
  assert (Hs : session (follow h q w) = session w) by (unfold follow; by destruct q).
  destruct q as [p|]; [|exists x; by rewrite Hs].
  rewrite Hs. destruct (tempPolyline (session w)) eqn:Hpl;
    [|exists x; change (session (follow h (Some p) w)) with (session w); done].
  rewrite Hidx.
  match goal with |- context [refresh_polyline ?y] => set (w1 := y) end.
  destruct (refresh_polyline_shape w1) as [pl' ->].
  exists p. subst w1. cbn [with_session session set_tempPolyline set_vertices vertices].
  rewrite move_ghost_session. change (session (follow h (Some p) w)) with (session w).
  rewrite Hv, <- HA, insert_app_r_alt by lia.
  by replace (length A - length A) with 0 by lia.
Qed.

Lemma drags_handle_ring qs (A B : list LatLng) : forall w h i x,
  in_flight w h i -> length A = i + 1 -> vertices (session w) = A ++ x :: B ->
  exists x', vertices (session (listeners (map (Drag h) qs) w)) = A ++ x' :: B.
Proof.
  induction qs as [|q qs IH]; intros w h i x Hin HA Hv; [by exists x|].
  destruct (drag_handle w h i q Hin) as (Hin1 & _).
  destruct (drag_handle_ring w h i q A B x Hin HA Hv) as (x1 & Hv1).
  exact (IH _ h i x1 Hin1 HA Hv1).
Qed.

Lemma splice_in_lookup_after {A} (i j : nat) (x : A) (l : list A) :
  i <= j -> i <= length l -> splice_in i x l !! S j = l !! j.
Proof.
  intros Hij Hi. unfold splice_in.
  rewrite lookup_app_r by (rewrite length_take; lia).
  rewrite length_take. replace (S j - i `min` length l) with (S (j - i)) by lia.
  change ((x :: drop i l) !! S (j - i)) with (drop i l !! (j - i)).
  rewrite lookup_drop. f_equal. lia.
Qed.

Lemma dragend_handle_marker w h i p :
  well_formed w -> in_flight w h i ->
  let w1 := world_of (listener (DragEnd h (Some p)) w) in
  vertices (session w1) = <[i + 1 := p]> (vertices (session w)) /\
  vertexMarkers (session w1) = splice_in (i + 1) (fresh w) (vertexMarkers (session w)) /\
  exists mk, get_marker w1 (fresh w) = Some mk /\ position mk = p.
Proof.
  intros Hwf Hin. cbn [listener world_of new_callback].
  destruct (in_flight_target _ _ _ Hin) as (m & Ht & Hr & Hidx). rewrite Ht.
  apply target_Some in Ht as (Hm & _).
  assert (Hne : h <> fresh w) by (pose proof (Hwf _ _ Hm) as Hlt; cbn in Hlt; lia).
  unfold on_dragend. rewrite Hr. unfold handle_dragend. rewrite Hidx.
  set (w0 := hide_ghost h m (follow h (Some p) w)).
  assert (Hs : session w0 = session w)
    by (subst w0; rewrite hide_ghost_session; reflexivity).
  assert (Hf : fresh w0 = fresh w)
    by (subst w0; rewrite hide_ghost_fresh; reflexivity).
  clearbody w0.
  cbn [alloc add_object with_session session fresh].
  match goal with |- context [refresh_polyline ?x] => set (w2 := x) end.
  destruct (refresh_polyline_shape w2) as [pl' ->].
  match goal with |- context [updateEdgeMarkers ?x] => set (w3 := x) end.
  assert (Hvs : vertices (session w3) = <[i + 1 := p]> (vertices (session w)))
    by (subst w3 w2; cbn; rewrite Hs; reflexivity).
  assert (Hvm : vertexMarkers (session w3)
                = splice_in (i + 1) (fresh w) (vertexMarkers (session w)))
    by (subst w3 w2; cbn; rewrite Hs, Hf; reflexivity).
  assert (Hf3 : fresh w3 = S (fresh w)) by (subst w3 w2; cbn; by rewrite Hf).
  assert (He3 : edgeMarkers (session w3) = []) by (subst w3 w2; reflexivity).
  assert (Hk3 : exists mk, objects w3 !! fresh w = Some (AMarker mk) /\ position mk = p).
  { subst w3 w2. unfold dispose_all.
    cbn [with_objects with_session objects session]. rewrite lookup_alter_ne by exact Hne.
    match goal with
    | |- context [foldl _ ?hh ?l !! _] =>
        destruct (disposal_position l hh (fresh w) (circle_vertex p)) as (mk & E & Hp)
    end.
    - cbn [add_object with_session objects fresh]. rewrite Hf.
      by rewrite lookup_insert_eq.
    - exists mk. split; [exact E|by rewrite Hp]. }
  assert (Hsess : session (updateEdgeMarkers w3)
                  = set_edgeMarkers
                      (edge_ids (fresh w3) (edges_drawn (length (vertices (session w3)))))
                      (session w3))
    by (rewrite updateEdgeMarkers_shape at 1; reflexivity).
  rewrite Hsess. cbn [session set_edgeMarkers vertices vertexMarkers].
  split; [exact Hvs|]. split; [exact Hvm|].
  destruct Hk3 as (mk & Hmk & Hp). exists mk. split; [|exact Hp].
  unfold get_marker. rewrite updateEdgeMarkers_old by lia.
  unfold dispose_all. cbn [with_objects objects]. rewrite He3. cbn [foldl].
  by rewrite Hmk.
Qed.

(** *** The registered polygons *)

Lemma fp_updateEdgeMarkers w : fieldPolygons (updateEdgeMarkers w) = fieldPolygons w.
Proof. rewrite updateEdgeMarkers_shape. reflexivity. Qed.

Lemma fp_refresh_polyline w : fieldPolygons (refresh_polyline w) = fieldPolygons w.
Proof. destruct (refresh_polyline_shape w) as [pl ->]. reflexivity. Qed.

Lemma fp_move_ghost m p w : fieldPolygons (move_ghost m p w) = fieldPolygons w.
Proof. unfold move_ghost. by destruct (dragMarker m). Qed.

Lemma fp_hide_ghost id m w : fieldPolygons (hide_ghost id m w) = fieldPolygons w.
Proof. unfold hide_ghost. by destruct (dragMarker m). Qed.

Lemma fp_follow id q w : fieldPolygons (follow id q w) = fieldPolygons w.
Proof. unfold follow. by destruct q. Qed.

Ltac fp_frame :=
  repeat (progress
            (cbn [with_session with_objects add_object alloc fieldPolygons dispose_all
                    world_of];
             rewrite ?fp_updateEdgeMarkers, ?fp_refresh_polyline, ?fp_move_ghost,
               ?fp_hide_ghost, ?fp_follow));
  try reflexivity.

Lemma fp_onMapClick q w : fieldPolygons (onMapClick q w) = fieldPolygons w.
Proof. unfold onMapClick. cbn [alloc]. repeat case_match; fp_frame. Qed.

Lemma fp_on_dragstart id m w : fieldPolygons (on_dragstart id m w) = fieldPolygons w.
Proof. unfold on_dragstart. repeat case_match; reflexivity. Qed.

Lemma fp_on_dragend id m q w : fieldPolygons (on_dragend id m q w) = fieldPolygons w.
Proof.
  unfold on_dragend, vertex_dragend, handle_dragend. cbn [alloc].
  repeat case_match; fp_frame.
Qed.

Lemma fp_vertex_drag id m q w : fieldPolygons (vertex_drag id m q w) = fieldPolygons w.
Proof. unfold vertex_drag. repeat case_match; fp_frame. Qed.

Lemma fp_handle_drag id m q w : fieldPolygons (handle_drag id m q w) = fieldPolygons w.
Proof. unfold handle_drag. repeat case_match; fp_frame. Qed.

Lemma fp_onInputChange id x w :
  fieldPolygons (world_of (onInputChange id x w)) = fieldPolygons w.
Proof. unfold onInputChange, handleDistanceChange. repeat case_match; fp_frame. Qed.

Lemma fp_commit b w : fieldPolygons (commit b w) = fieldPolygons w.
Proof. by destruct (commit_spec b w) as (_ & ? & _). Qed.

Lemma kept_refl l : kept l l.
Proof. intros k g Hg. exists g. by repeat split. Qed.

Lemma kept_trans l1 l2 l3 : kept l1 l2 -> kept l2 l3 -> kept l1 l3.
Proof.
  intros H12 H23 k g Hg. destruct (H12 k g Hg) as (g2 & Hg2 & A1 & A2).
  destruct (H23 k g2 Hg2) as (g3 & Hg3 & B1 & B2). exists g3. split; [done|]. lia.
Qed.

Lemma kept_alter (f : Polygon -> Polygon) k l :
  (forall g, length (path g) <= length (path (f g)) /\
             length (pg_vertexMarkers g) <= length (pg_vertexMarkers (f g))) ->
  kept l (alter f k l).
Proof.
  intros Hf j g Hg. rewrite list_lookup_alter.
  destruct (decide _) as [->|Hne]; [|exists g; by repeat split].
  rewrite Hg. exists (f g). split; [done|apply Hf].
Qed.

Lemma kept_snoc l g : kept l (l ++ [g]).
Proof.
  intros k g0 Hg. exists g0. split; [|done]. by apply lookup_app_l_Some.
Qed.

Lemma kept_addEdgeMarkers k w :
  kept (fieldPolygons w) (fieldPolygons (addEdgeMarkers k w)).
Proof.
  unfold addEdgeMarkers, update_polygon. destruct (fieldPolygons w !! k); [|apply kept_refl].
  cbn [map_polygons fieldPolygons dispose_all with_objects]. by apply kept_alter.
Qed.

Lemma kept_polygon_vertex_drag k i q w :
  kept (fieldPolygons w) (fieldPolygons (polygon_vertex_drag k i q w)).
Proof.
  unfold polygon_vertex_drag. destruct q as [p|]; [|apply kept_refl].
  eapply kept_trans; [|apply kept_addEdgeMarkers].
  unfold update_polygon. cbn [map_polygons fieldPolygons]. apply kept_alter.
  intros g. cbn. by rewrite length_insert.
Qed.

Lemma kept_onPolygonClick k e v q w :
  kept (fieldPolygons w) (fieldPolygons (onPolygonClick k e v q w)).
Proof.
  unfold onPolygonClick. destruct e as [e|]; [|apply kept_refl].
  destruct v; [apply kept_refl|]. destruct q as [p|]; [|apply kept_refl].
  unfold insertAt, on_insert_at.
  set (w1 := update_polygon k (fun g => set_path (splice_in (e + 1) p (path g)) g) w).
  assert (H1 : kept (fieldPolygons w) (fieldPolygons w1)).
  { subst w1. unfold update_polygon. cbn [map_polygons fieldPolygons]. apply kept_alter.
    intros g. cbn. rewrite splice_in_length. lia. }
  destruct (fieldPolygons w1 !! k) as [g|]; [|exact H1].
  destruct (path g !! (e + 1)); [|exact H1]. cbn [alloc].
  eapply kept_trans; [exact H1|].
  unfold update_polygon. cbn [map_polygons add_object fieldPolygons]. apply kept_alter.
  intros g0. cbn. rewrite splice_in_length. lia.
Qed.

Lemma kept_listener e w : kept (fieldPolygons w) (fieldPolygons (world_of (listener e w))).
Proof.
  destruct e; cbn [listener world_of new_callback].
  - apply kept_refl.
  - destruct (mapClickListener _); [rewrite fp_onMapClick|]; apply kept_refl.
  - destruct (mapDblClickListener _); [|apply kept_refl].
    destruct (decide (3 <= length (vertices (session w)))) as [Hn|Hn].
    + destruct (onMapDblClick_closes w Hn) as (_ & _ & _ & _ & _ & _ & g & -> & _).
      apply kept_snoc.
    + unfold onMapDblClick. rewrite decide_False by exact Hn. apply kept_refl.
  - destruct (target w marker); [rewrite fp_on_dragstart|]; apply kept_refl.
  - destruct (target w marker) as [m|]; [|apply kept_refl].
    unfold on_drag. destruct (role m).
    + rewrite fp_vertex_drag, fp_follow. apply kept_refl.
    + rewrite fp_handle_drag, fp_follow. apply kept_refl.
    + rewrite fp_follow. apply kept_refl.
    + rewrite <- (fp_follow marker latLng w) at 1. apply kept_polygon_vertex_drag.
  - destruct (target w marker); [rewrite fp_on_dragend, fp_follow|]; apply kept_refl.
  - rewrite fp_onInputChange. apply kept_refl.
  - destruct (decide _); [apply kept_onPolygonClick|apply kept_refl].
  - apply kept_refl.
Qed.

Lemma kept_run es' : forall es, kept (fieldPolygons (run es)) (fieldPolygons (run (es ++ es'))).
Proof.
  induction es' as [|e es' IH] using rev_ind; intros es.
  - rewrite app_nil_r. apply kept_refl.
  - rewrite app_assoc, run_snoc. eapply kept_trans; [apply IH|].
    unfold step. rewrite fp_commit. apply kept_listener.
Qed.

(** *** A label on the map has a ring to write into *)





Lemma session_update_polygon k f w : session (update_polygon k f w) = session w.
Proof. reflexivity. Qed.








(** *** One vertex marker per vertex *)




























(** *** What holds in every state the component can reach *)

(** X1.  In every state the component can reach, every vertex marker of the
    drawing session, every distance label and every midpoint handle that is
    on the map is held in the session's [vertexMarkers] or [edgeMarkers]
    array: a rebuild, the closing double-click and the clean-up of the
    effect dispose what they supersede before they drop it. *)
Theorem session_visuals_are_tracked (es : list Event) (id : nat) (o : MapObject) :
  objects (run es) !! id = Some o -> shown o = true ->
  (is_session_vertex o = true -> id ∈ vertexMarkers (session (run es))) /\
  (is_edge_visual o = true -> id ∈ edgeMarkers (session (run es))).
Proof. apply tracked_run. Qed.

(** X2.  While drawing mode is off, no vertex marker, distance label or
    midpoint handle of a drawing session is on the map, whatever was drawn,
    dragged or abandoned before. *)
Theorem no_session_visual_outside_drawing (es : list Event) (id : nat) (o : MapObject) :
  isDrawingMode (run es) = false ->
  objects (run es) !! id = Some o ->
  is_session_vertex o || is_edge_visual o = true -> shown o = false.
Proof.
  intros Hd Ho Hk. destruct (shown o) eqn:Hs; [|done]. exfalso.
  destruct (tracked_run es id o Ho Hs) as [H1 H2].
  destruct (in_step_run es) as (_ & Hoff & _). rewrite (Hoff Hd) in H1, H2.
  apply orb_prop in Hk as [Hk|Hk]; [apply H1 in Hk|apply H2 in Hk];
    by apply elem_of_nil in Hk.
Qed.

(** X3.  The drawing session is in step with the drawing mode after every
    event: nothing waits for a render; while drawing mode is off the
    closure is the empty one (no polyline, no vertex, no marker, no
    listener); while it is on both map listeners are registered and the
    temporary polyline exists. *)
Theorem session_in_step_with_mode (es : list Event) : in_step (run es).
Proof. apply in_step_run. Qed.

(** X4.  The host's callback has been called once for every registered
    polygon and once for every render in which the host passed a new
    function while at least one polygon was registered, and never
    otherwise: drags, distance edits, clicks on an edge and new sessions
    call it never.  Without the prop nothing is logged. *)
Theorem host_calls_are_accounted_for (es : list Event) :
  length (hostCalls (run es))
    = (if onAreaUpdate then length (fieldPolygons (run es)) + heard es else 0).
Proof. by destruct (accounted_run es) as [_ H]. Qed.

(** X5.  Choosing "field" again while a ring is being drawn changes
    nothing: the state already holds [true], no effect runs, and the ring
    drawn so far stays. *)
Theorem create_field_while_drawing (es : list Event) :
  isDrawingMode (run es) = true -> run (es ++ [CreateField]) = run es.
Proof.
  intros Hd. rewrite run_snoc. unfold step. cbn [listener world_of new_callback].
  destruct (in_step_run es) as (Hr & _).
  by rewrite <- Hd, setIsDrawingMode_same, commit_idle.
Qed.

(** X6.  While drawing mode is off, a click or a double-click on the map
    surface, the start of any drag and any input into a label do nothing
    at all. *)
Theorem idle_component_ignores (es : list Event) :
  isDrawingMode (run es) = false ->
  (forall q, run (es ++ [MapClick q]) = run es) /\
  (forall q, run (es ++ [MapDblClick q]) = run es) /\
  (forall id, run (es ++ [DragStart id]) = run es) /\
  (forall id x, run (es ++ [InputChange id x]) = run es).
Proof.
  intros Hd. destruct (in_step_run es) as (Hr & Hoff & _).
  pose proof (Hoff Hd) as Hs. pose proof (tracked_run es) as Ht.
  assert (Hno : forall id o, objects (run es) !! id = Some o -> shown o = true ->
                             is_session_vertex o = false /\ is_edge_visual o = false).
  { intros id o Ho Hsh. destruct (Ht id o Ho Hsh) as [H1 H2]. rewrite Hs in H1, H2.
    split.
    - destruct (is_session_vertex o); [|done]. by apply elem_of_nil in H1.
    - destruct (is_edge_visual o); [|done]. by apply elem_of_nil in H2. }
  repeat split; intros; rewrite run_snoc; unfold step; cbn [listener world_of new_callback].
  - rewrite Hs. cbn. by apply commit_idle.
  - rewrite Hs. cbn. by apply commit_idle.
  - destruct (target (run es) id) as [m|] eqn:Hm; [|by apply commit_idle].
    apply target_Some in Hm as (Ho & Hon & _).
    destruct (Hno _ _ Ho Hon) as [H1 H2]. cbn in H1, H2. unfold on_dragstart.
    destruct (role m); try done; by apply commit_idle.
  - unfold onInputChange.
    destruct (get_overlay (run es) id) as [o|] eqn:Ho; [|by apply commit_idle].
    destruct (div o) as [d|] eqn:Hdiv; [|by apply commit_idle]. exfalso.
    unfold get_overlay in Ho.
    destruct (objects (run es) !! id) as [[m|o']|] eqn:E; try done. injection Ho as ->.
    destruct (Hno _ _ E) as [_ H2]; [cbn; by rewrite Hdiv|done].
Qed.

(** X7.  Choosing "field" while drawing mode is off starts a session from
    nothing: a fresh empty polyline on the map, empty vertex and marker
    arrays, both listeners registered.  The registered polygons, the
    objects on the map and the host's log are as before. *)
Theorem new_session_starts_empty (es : list Event) :
  isDrawingMode (run es) = false ->
  let w' := run (es ++ [CreateField]) in
  isDrawingMode w' = true /\ session w' = startDrawing /\
  objects w' = objects (run es) /\ fieldPolygons w' = fieldPolygons (run es) /\
  hostCalls w' = hostCalls (run es).
Proof.
  intros Hd w'. subst w'. rewrite run_snoc. unfold step. cbn [listener world_of new_callback].
  destruct (in_step_run es) as ([R1 R2] & Hoff & _). pose proof (Hoff Hd) as Hs.
  destruct (commit_spec false (setIsDrawingMode true (run es)))
    as (C1 & C2 & _ & _ & _ & C6 & C7).
  cbn in C1, C2, C6, C7. rewrite <- R1, Hd in C6. cbn in C6.
  rewrite bool_decide_true in C7 by exact R2.
  repeat split; try done.
  unfold commit. cbn [setIsDrawingMode isDrawingMode drawing_committed].
  rewrite <- R1, Hd. cbn [Bool.eqb]. unfold drawing_effect.
  cbn [setIsDrawingMode session]. rewrite Hs. cbn.
  rewrite decide_True by exact R2. reflexivity.
Qed.

Lemma totalArea_snoc F g :
  totalArea (F ++ [g]) = (totalArea F + computeArea (path g) / 10000)%float.
Proof. unfold totalArea. by rewrite foldl_app. Qed.

(** X8.  A double-click while drawing a ring of three vertices or more,
    followed by the render: drawing mode is off, the closure is empty
    again, one polygon with the ring as its path and one marker per vertex
    has joined the registered ones, and the host (if it passed the
    callback) hears one number, the total it would have computed for the
    polygons registered before plus the area of the ring in hectares. *)
Theorem closing_registers_and_reports (es : list Event) (q : option LatLng) :
  isDrawingMode (run es) = true ->
  3 <= length (vertices (session (run es))) ->
  let w := run es in
  let w' := run (es ++ [MapDblClick q]) in
  isDrawingMode w' = false /\ session w' = emptySession /\
  (exists g, fieldPolygons w' = fieldPolygons w ++ [g] /\
             path g = vertices (session w) /\
             length (pg_vertexMarkers g) = length (vertices (session w))) /\
  hostCalls w'
    = (if onAreaUpdate
       then hostCalls w ++
              [(totalArea (fieldPolygons w)
                + computeArea (vertices (session w)) / 10000)%float]
       else hostCalls w).
Proof.
  intros Hd Hn w w'. subst w w'. rewrite run_snoc.
  pose proof (in_step_run es) as Hin. destruct Hin as ([R1 R2] & _ & Hon).
  destruct (Hon Hd) as (_ & Hl & _).
  pose proof (in_step_run (es ++ [MapDblClick q])) as (_ & Hoff' & _).
  rewrite run_snoc in Hoff'.
  unfold step in *. cbn [listener world_of new_callback] in *. rewrite Hl in *.
  destruct (onMapDblClick_closes (run es) Hn)
    as (_ & Hdm & Hf & Hh & _ & Ha & g & E1 & E2 & E3).
  destruct (commit_spec false (onMapDblClick (run es)))
    as (C1 & C2 & _ & _ & _ & _ & C7).
  rewrite Hdm in C1. split; [exact C1|]. split; [by apply Hoff'|].
  split.
  - exists g. rewrite C2. split; [exact E1|]. split; [exact E2|exact E3].
  - rewrite C7, Hf, Ha, bool_decide_false by lia. cbn [andb].
    rewrite Hh, E1, length_app. simpl. rewrite bool_decide_true, andb_true_r by lia.
    rewrite totalArea_snoc, E2. by destruct onAreaUpdate.
Qed.

(** X9.  Every label the component ever made, at any later time, shows the
    text for the distance between the two endpoints its closure captured
    and is anchored at their mean.  While it is on the map, the unit beside
    its input is "km" whenever that distance is not below 1000 (NaN
    included), and "m" when the distance is a non-negative number below
    1000: the test [content.includes('km')] of [onAdd] recovers the branch
    the text was built in. *)
Theorem labels_show_their_edge (es : list Event) (id : nat) (o : DistanceOverlay) :
  get_overlay (run es) id = Some o ->
  let d := computeDistanceBetween (edge_p1 o) (edge_p2 o) in
  content o = distanceText d /\
  ov_position o = mean_point (edge_p1 o) (edge_p2 o) /\
  forall dv, div o = Some dv ->
    ((d <? 1000)%float = false -> unit dv = "km") /\
    (forall q, JS.exact d = Some q -> (0 <= q)%Q -> (d <? 1000)%float = true ->
               unit dv = "m").
Proof.
  intros Ho d. unfold get_overlay in Ho.
  destruct (objects (run es) !! id) as [[m|o']|] eqn:E; try done. injection Ho as ->.
  destruct (faithful_run es _ _ E) as (_ & H1 & H2 & H3).
  split; [exact H1|]. split; [exact H2|]. intros dv Hdv.
  rewrite (H3 dv Hdv), H1. fold d. destruct (distanceText_unit d) as [Hkm Hm]. split.
  - intros Hge. by rewrite Hkm.
  - intros q Hq Hpos Hlt. by rewrite (Hm q Hq Hpos Hlt).
Qed.

(** X10.  A distance edit when no vertex marker is held at the index
    [k = (i + 1) mod n] the label addresses: the ring entry is overwritten
    first, with the point the constructor of the Maps library makes of the
    scaled coordinates, then [vertexMarkers[k].setPosition] throws, so the
    listener ends there.  The new point is in the ring, while every object
    on the map, the session's marker arrays and the polyline are as they
    were: nothing is redrawn. *)
Theorem distance_edit_without_marker (w : World) (id : nat) (o : DistanceOverlay)
    (d : Div) (value : float) (k : nat) :
  get_overlay w id = Some o -> div o = Some d ->
  JS.isNaN value = false ->
  vertices (session w) <> [] ->
  k = (edge_i o + 1) mod length (vertices (session w)) ->
  vertexMarkers (session w) !! k = None ->
  let desired := if String.eqb (unit d) "km" then (value * 1000)%float else value in
  exists w',
    listener (InputChange id value) w = Threw w' /\
    vertices (session w')
      = <[k := scaled_far_end (edge_p1 o) (edge_p2 o) desired]> (vertices (session w)) /\
    objects w' = objects w /\
    tempPolyline (session w') = tempPolyline (session w) /\
    vertexMarkers (session w') = vertexMarkers (session w) /\
    edgeMarkers (session w') = edgeMarkers (session w).
Proof.
  intros Ho Hd Hnan Hne -> Hk desired. cbn [listener]. unfold onInputChange.
  rewrite Ho, Hd, Hnan. fold desired. unfold handleDistanceChange. cbv zeta.
  rewrite decide_False by (by destruct (vertices (session w))).
  cbn [with_session session vertexMarkers set_vertices]. rewrite Hk.
  eexists. split; [reflexivity|]. done.
Qed.

(** X11.  In every state the component can reach, the session's arrays
    hold live objects of the right kind: no vertex marker is listed twice,
    every entry of [vertexMarkers] is a draggable vertex marker on the map,
    and every entry of [edgeMarkers] is a label or a midpoint handle on the
    map.  With X1, the arrays hold exactly the session's visuals that are
    shown. *)
Theorem session_arrays_hold_live_objects (es : list Event) :
  let w := run es in
  NoDup (vertexMarkers (session w)) /\
  (forall id, id ∈ vertexMarkers (session w) ->
     exists m, get_marker w id = Some m /\ role m = SessionVertex /\
               onMap m = true /\ draggable m = true) /\
  (forall id, id ∈ edgeMarkers (session w) ->
     exists o, objects w !! id = Some o /\ is_edge_visual o = true /\ shown o = true).
Proof.
  destruct (listed_run es) as (_ & Hnd & HV & HE & _).
  split; [exact Hnd|]. split; [|exact HE].
  intros id Hin. destruct (HV id Hin) as (m & Hm & H). exists m.
  unfold get_marker. by rewrite Hm.
Qed.

(** X12.  No registered polygon ever carries an edge marker: the loop of
    its [addEdgeMarkers] creates nothing, so the property it sets is the
    empty array after registration, after every vertex drag and after
    every insertion. *)
Theorem polygons_have_no_edge_markers (es : list Event) (k : nat) (g : Polygon) :
  fieldPolygons (run es) !! k = Some g -> pg_edgeMarkers g = [].
Proof. destruct (listed_run es) as (_ & _ & _ & _ & _ & HP). apply HP. Qed.

(** X13.  Dragging the vertex marker at position [k] of [vertexMarkers]
    to [p], in any state the component can reach: vertex [k] of the ring
    becomes [p] and no other vertex changes, the marker arrays keep their
    vertex markers, the marker stands at [p], the polyline shows the new
    ring (closed from three vertices on), and the edge markers are rebuilt
    for it. *)
Theorem vertex_drag_moves_its_vertex (es : list Event) (k id : nat) (p : LatLng) :
  vertexMarkers (session (run es)) !! k = Some id ->
  let w := run es in
  let w' := run (es ++ [Drag id (Some p)]) in
  vertices (session w') = <[k := p]> (vertices (session w)) /\
  vertexMarkers (session w') = vertexMarkers (session w) /\
  (exists m, get_marker w' id = Some m /\ position m = p) /\
  (exists pl, tempPolyline (session w') = Some pl /\
              pl_path pl = preview_path (vertices (session w'))) /\
  length (edgeMarkers (session w')) = 2 * edges_drawn (length (vertices (session w))).
Proof.
  intros Hk w w'. subst w w'.
  destruct (listed_vertex_target _ k id (listed_run es) Hk) as (m & Ht & Hm & Hr & Hi & Hlt).
  destruct (drawing_when_listed es k id Hk) as (pl & Hpl).
  rewrite run_snoc, quiet_step; [|by destruct (in_step_run es)|done|done|done].
  cbn [listener world_of new_callback]. rewrite Ht. unfold on_drag. rewrite Hr. unfold vertex_drag.
  change (session (follow id (Some p) (run es))) with (session (run es)). rewrite Hi.
  match goal with |- context [refresh_polyline ?y] => set (w1 := y) end.
  assert (Hs1 : session w1 = set_vertices (<[k := p]> (vertices (session (run es))))
                               (session (run es))).
  { subst w1. by rewrite move_ghost_session. }
  assert (Hf1 : fresh w1 = fresh (run es)) by (subst w1; by rewrite move_ghost_fresh).
  assert (Hm1 : exists m1, objects w1 !! id = Some (AMarker m1) /\ position m1 = p).
  { subst w1. apply (move_ghost_position _ _ _ _ (set_position p m)); [|done].
    cbn [with_session follow with_objects objects]. by rewrite lookup_alter_eq, Hm. }
  clearbody w1.
  assert (Hs2 : session (updateEdgeMarkers (refresh_polyline w1))
               = set_edgeMarkers
                   (edge_ids (fresh (refresh_polyline w1))
                      (edges_drawn (length (vertices (session (refresh_polyline w1))))))
                   (session (refresh_polyline w1)))
    by (rewrite updateEdgeMarkers_shape at 1; reflexivity).
  rewrite !Hs2.
  cbn [session set_edgeMarkers vertices vertexMarkers tempPolyline edgeMarkers].
  unfold refresh_polyline at 1 2 3 4 5 6. cbn [with_session session fresh].
  unfold setPath. rewrite Hs1. cbn [set_vertices tempPolyline vertices vertexMarkers].
  rewrite Hpl. cbn [set_tempPolyline tempPolyline vertices vertexMarkers].
  split; [done|]. split; [done|]. split; [|split].
  - destruct Hm1 as (m1 & Hm1 & Hp1). unfold get_marker.
    rewrite updateEdgeMarkers_old
      by (unfold refresh_polyline; cbn [with_session fresh]; lia).
    unfold dispose_all, refresh_polyline. cbn [with_objects with_session objects].
    match goal with
    | |- context [foldl _ (objects w1) ?l !! id] =>
        destruct (disposal_position l (objects w1) id m1 Hm1) as (m' & E' & Hp')
    end.
    exists m'. rewrite E'. split; [done|congruence].
  - eexists. split; [reflexivity|reflexivity].
  - rewrite edge_ids_length, vertices_refresh_polyline, Hs1.
    cbn [set_vertices vertices]. by rewrite length_insert.
Qed.

(** X14.  A vertex marker of the session is picked up and put down.  At
    [dragstart] a red pin, not draggable, appears where the marker stands
    and the marker becomes fully transparent; at [dragend], with or
    without a geo-point, the pin is taken off the map and the marker is
    opaque again.  Neither listener touches the ring: the session is as
    it was. *)
Theorem drag_ghost_comes_and_goes (es : list Event) (k id : nat) (q : option LatLng) :
  vertexMarkers (session (run es)) !! k = Some id ->
  let w := run es in
  let w1 := run (es ++ [DragStart id]) in
  let w2 := run (es ++ [DragStart id; DragEnd id q]) in
  exists m, get_marker w id = Some m /\
    get_marker w1 (fresh w) = Some (drag_ghost (position m)) /\
    (exists m1, get_marker w1 id = Some m1 /\ opacity m1 = 0%float /\
                dragMarker m1 = Some (fresh w)) /\
    is_shown w2 (fresh w) = false /\
    (exists m2, get_marker w2 id = Some m2 /\ opacity m2 = 1%float /\
                dragMarker m2 = None /\ onMap m2 = true) /\
    session w2 = session w.
Proof.
  intros Hk w w1 w2. subst w w1 w2.
  destruct (listed_vertex_target _ k id (listed_run es) Hk)
    as (m & Ht & Hm & Hr & _ & Hlt).
  pose proof Ht as Ht'. apply target_Some in Ht' as (_ & Hon & Hdr).
  assert (Hne : id <> fresh (run es)) by lia.
  exists m. split; [unfold get_marker; by rewrite Hm|].
  rewrite !run_listeners by (repeat constructor; done).
  unfold listeners. cbn [foldl listener world_of]. rewrite Ht.
  unfold on_dragstart. rewrite Hr. unfold vertex_dragstart, show_ghost. cbn [alloc].
  set (f := fun m0 => set_opacity 0 (set_dragMarker (Some (fresh (run es))) m0)).
  set (w1 := with_objects (alter (update_marker f) id)
               (add_object (AMarker (drag_ghost (position m))) (run es))).
  assert (H1 : objects w1 !! id = Some (AMarker (f m))).
  { subst w1. cbn [with_objects add_object objects].
    by rewrite lookup_alter_eq, lookup_insert_ne, Hm. }
  assert (H2 : objects w1 !! fresh (run es) = Some (AMarker (drag_ghost (position m)))).
  { subst w1. cbn [with_objects add_object objects].
    by rewrite lookup_alter_ne, lookup_insert_eq. }
  assert (Ht1 : target w1 id = Some (f m)).
  { unfold target, get_marker. rewrite H1. cbn. by rewrite Hon, Hdr. }
  split; [unfold get_marker; by rewrite H2|].
  split; [exists (f m); unfold get_marker; by rewrite H1|].
  rewrite Ht1. unfold on_dragend. cbn [f role set_opacity set_dragMarker]. rewrite Hr.
  unfold vertex_dragend, hide_ghost. cbn [f dragMarker set_opacity set_dragMarker].
  set (w1' := follow id q w1).
  assert (H1' : exists m', objects w1' !! id = Some (AMarker m') /\ onMap m' = true).
  { subst w1'. unfold follow. destruct q as [p|].
    - exists (set_position p (f m)). cbn [with_objects objects].
      by rewrite lookup_alter_eq, H1.
    - by exists (f m). }
  assert (H2' : objects w1' !! fresh (run es) = Some (AMarker (drag_ghost (position m)))).
  { subst w1'. unfold follow. destruct q as [p|]; [|exact H2].
    cbn [with_objects objects]. by rewrite lookup_alter_ne. }
  assert (Hs' : session w1' = session (run es)) by (subst w1'; by destruct q).
  clearbody w1'. destruct H1' as (m' & H1' & Hon').
  split; [|split; [|exact Hs']].
  - unfold is_shown. cbn [with_objects objects].
    by rewrite lookup_alter_ne, lookup_alter_eq, H2'.
  - eexists. unfold get_marker. cbn [with_objects objects].
    rewrite lookup_alter_eq, lookup_alter_ne, H1' by done. cbn.
    split; [reflexivity|]. done.
Qed.

(** X15.  The drag listener of a polygon's vertex marker writes to the
    index it captured when the marker was made.  After a click on edge [e]
    has inserted a vertex before it, the marker made for vertex [j] stands
    at position [j + 1] of the marker array, still on its vertex, which is
    now entry [j + 1] of the path; dragging it to [q] overwrites entry [j]
    (the inserted vertex or the neighbour before) and leaves the marker's
    own vertex where it was. *)
Theorem polygon_marker_keeps_captured_index (w : World) (k e j id : nat) (g : Polygon)
    (m : Marker) (p q : LatLng) :
  well_formed w ->
  fieldPolygons w !! k = Some g ->
  pg_vertexMarkers g !! j = Some id ->
  target w id = Some m -> role m = PolygonVertex k j ->
  e < j -> j < length (path g) ->
  let w1 := world_of (listener (PolygonClick k (Some e) None (Some p)) w) in
  let w2 := world_of (listener (Drag id (Some q)) w1) in
  exists g2, fieldPolygons w2 !! k = Some g2 /\
    path g2 = <[j := q]> (splice_in (e + 1) p (path g)) /\
    pg_vertexMarkers g2 !! S j = Some id /\
    path g2 !! S j = path g !! j /\
    exists m2, get_marker w2 id = Some m2 /\ position m2 = q.
Proof.
  intros Hwf Hk Hj Ht Hr Hej Hjl w1 w2. subst w2 w1.
  pose proof (lookup_lt_Some _ _ _ Hk) as Hkl.
  pose proof (lookup_lt_Some _ _ _ Hj) as Hjm.
  cbn [listener world_of new_callback]. rewrite decide_True by exact Hkl.
  destruct (onPolygonClick_edge w k g e p Hk) as (Hg1 & Hobj & _); [lia|].
  set (w1 := onPolygonClick k (Some e) None (Some p) w) in *.
  pose proof Ht as Ht'. apply target_Some in Ht' as (Hm & Hon & Hdr).
  assert (Hne : fresh w <> id) by (pose proof (Hwf _ _ Hm) as Hlt; cbn in Hlt; lia).
  assert (Ht1 : target w1 id = Some m).
  { unfold target, get_marker. rewrite Hobj, lookup_insert_ne, Hm by exact Hne.
    by rewrite Hon, Hdr. }
  rewrite Ht1. unfold on_drag. rewrite Hr. unfold polygon_vertex_drag.
  set (w1' := follow id (Some q) w1).
  assert (Hg1' : fieldPolygons w1' !! k
                 = Some (mkPolygon (splice_in (e + 1) p (path g))
                           (splice_in (e + 1) (fresh w) (pg_vertexMarkers g))
                           (pg_edgeMarkers g))) by exact Hg1.
  assert (Hm1' : objects w1' !! id = Some (AMarker (set_position q m))).
  { subst w1'. cbn [follow with_objects objects].
    by rewrite lookup_alter_eq, Hobj, lookup_insert_ne, Hm. }
  clearbody w1'. unfold addEdgeMarkers, update_polygon.
  cbn [map_polygons fieldPolygons].
  rewrite list_lookup_alter_eq, Hg1'. cbn [fmap option_fmap option_map].
  cbn [dispose_all with_objects map_polygons fieldPolygons objects set_path
         pg_edgeMarkers].
  rewrite list_lookup_alter_eq, list_lookup_alter_eq, Hg1'.
  cbn [fmap option_fmap option_map].
  eexists. split; [reflexivity|].
  cbn [set_path set_pg_edgeMarkers path pg_vertexMarkers].
  split; [reflexivity|]. split; [|split].
  - rewrite splice_in_lookup_after by lia. exact Hj.
  - rewrite list_lookup_insert_ne by lia. apply splice_in_lookup_after; lia.
  - unfold get_marker, dispose_all. cbn [map_polygons with_objects objects].
    match goal with
    | |- context [foldl _ ?hh ?l !! _] =>
        destruct (disposal_position l hh id (set_position q m) Hm1') as (m2 & E & Hp)
    end.
    exists m2. by rewrite E.
Qed.

(** X16.  A midpoint handle is picked up, dragged along any path and
    dropped at [p], in any state the component can reach: [p] is inserted
    into the ring right after vertex [i], the other vertices keep their
    order, and a new vertex marker standing at [p] takes the same place in
    [vertexMarkers]. *)
Theorem handle_drop_inserts_vertex (es : list Event) (h i : nat) (m : Marker)
    (qs : list (option LatLng)) (p : LatLng) :
  target (run es) h = Some m -> role m = EdgeHandle i ->
  i < length (vertices (session (run es))) ->
  let w := run es in
  let w' := run (es ++ DragStart h :: map (Drag h) qs ++ [DragEnd h (Some p)]) in
  vertices (session w') = splice_in (i + 1) p (vertices (session w)) /\
  exists id mk,
    vertexMarkers (session w') = splice_in (i + 1) id (vertexMarkers (session w)) /\
    get_marker w' id = Some mk /\ position mk = p /\
    role mk = SessionVertex /\ onMap mk = true.
Proof.
  intros Ht Hr Hi w w'.
  pose proof (listed_run (es ++ DragStart h :: map (Drag h) qs ++ [DragEnd h (Some p)]))
    as (Hwf' & _ & HV' & _).
  fold w' in Hwf', HV'.
  assert (Hw' : w' = world_of (listener (DragEnd h (Some p))
                         (listeners (map (Drag h) qs)
                            (world_of (listener (DragStart h) w))))).
  { subst w' w. rewrite run_listeners.
    - unfold listeners. cbn [foldl]. by rewrite foldl_app.
    - constructor; [done|]. apply Forall_app. split; [|by repeat constructor].
      apply Forall_forall. intros e [q [-> _]]%list_elem_of_fmap. done. }
  clearbody w'. subst w'.
  destruct (dragstart_handle w h m i (well_formed_run es) Ht Hr) as (Hin & Hv & Hm).
  set (w1 := world_of (listener (DragStart h) w)) in *.
  set (A := take (i + 1) (vertices (session w))).
  set (B := drop (i + 1) (vertices (session w))).
  assert (HA : length A = i + 1) by (subst A w; rewrite length_take; lia).
  destruct (drags_handle qs w1 h i Hin) as (Hin2 & _ & Hm2).
  destruct (drags_handle_ring qs A B w1 h i (position m) Hin HA Hv) as (x' & Hv2).
  set (w2 := listeners (map (Drag h) qs) w1) in *.
  assert (Hwf2 : well_formed w2).
  { assert (E : w2 = run (es ++ DragStart h :: map (Drag h) qs)).
    { rewrite run_listeners; [reflexivity|]. constructor; [done|].
      apply Forall_forall. intros e [q [-> _]]%list_elem_of_fmap. done. }
    rewrite E. apply well_formed_run. }
  destruct (dragend_handle_marker w2 h i p Hwf2 Hin2) as (Hv3 & Hm3 & mk & Hmk & Hp).
  split.
  - rewrite Hv3, Hv2, <- HA, insert_app_r_alt by lia.
    replace (length A - length A) with 0 by lia. rewrite HA. reflexivity.
  - exists (fresh w2), mk. rewrite Hm3, Hm2, Hm. split; [done|]. split; [exact Hmk|].
    split; [exact Hp|].
    destruct (HV' (fresh w2)) as (mk' & Hmk' & Hr' & Hon' & _).
    { rewrite Hm3. apply splice_in_elem. }
    unfold get_marker in Hmk. rewrite Hmk' in Hmk. injection Hmk as <-. done.
Qed.

(** X17.  A click on the surface at [p] while drawing mode is on: [p] is
    appended to the ring, a new circle marker standing at [p] is appended
    to [vertexMarkers], the polyline shows the new ring (closed from three
    vertices on), and one label and one handle per edge of the new ring
    are in [edgeMarkers]. *)
Theorem click_appends_vertex (es : list Event) (p : LatLng) :
  isDrawingMode (run es) = true ->
  let w := run es in
  let w' := run (es ++ [MapClick (Some p)]) in
  vertices (session w') = vertices (session w) ++ [p] /\
  vertexMarkers (session w') = vertexMarkers (session w) ++ [fresh w] /\
  get_marker w' (fresh w) = Some (circle_vertex p) /\
  (exists pl, tempPolyline (session w') = Some pl /\
              pl_path pl = preview_path (vertices (session w'))) /\
  length (edgeMarkers (session w')) = 2 * edges_drawn (S (length (vertices (session w)))).
Proof.
  intros Hd w w'. subst w w'.
  destruct (in_step_run es) as (Hr & _ & Hon). destruct (Hon Hd) as (Hl & _ & Hp).
  unfold has_polyline in Hp.
  destruct (tempPolyline (session (run es))) as [pl|] eqn:Hpl; [|done].
  rewrite run_snoc, quiet_step by done.
  cbn [listener world_of new_callback]. rewrite Hl. unfold onMapClick. rewrite Hpl.
  cbn [alloc add_object with_session].
  match goal with |- context [refresh_polyline ?y] => set (w1 := y) end.
  assert (Hs2 : session (updateEdgeMarkers (refresh_polyline w1))
               = set_edgeMarkers
                   (edge_ids (fresh (refresh_polyline w1))
                      (edges_drawn (length (vertices (session (refresh_polyline w1))))))
                   (session (refresh_polyline w1)))
    by (rewrite updateEdgeMarkers_shape at 1; reflexivity).
  rewrite !Hs2.
  cbn [session set_edgeMarkers vertices vertexMarkers tempPolyline edgeMarkers].
  rewrite vertices_refresh_polyline, vertexMarkers_refresh_polyline.
  split; [reflexivity|]. split; [reflexivity|]. split; [|split].
  - unfold get_marker. rewrite updateEdgeMarkers_old
      by (unfold refresh_polyline; cbn [with_session fresh]; subst w1; cbn; lia).
    unfold dispose_all. cbn [with_objects objects].
    rewrite disposal_elsewhere.
    + destruct (refresh_polyline_shape w1) as [pl' ->]. subst w1. cbn.
      by rewrite lookup_insert_eq.
    + rewrite edgeMarkers_refresh_polyline. subst w1. cbn. intros Hin.
      pose proof (listed_below _ _ (listed_run es) (or_intror Hin)). lia.
  - unfold refresh_polyline, setPath. subst w1.
    cbn [with_session add_object session set_vertexMarkers set_vertices tempPolyline].
    rewrite Hpl.
    eexists. split; reflexivity.
  - rewrite edge_ids_length. subst w1. cbn. rewrite length_app. simpl.
    by replace (length (vertices (session (run es))) + 1)
         with (S (length (vertices (session (run es))))) by lia.
Qed.

(** X18.  Events that carry no geo-point, or do not hit an edge, are
    ignored in every state: a click on the surface and a drag of any
    marker without a geo-point, and a click on a polygon that has no
    geo-point, hits no edge, or hits a vertex.  (The end of a drag without
    a geo-point is not among them.) *)
Theorem pointless_events_are_ignored (es : list Event) :
  run (es ++ [MapClick None]) = run es /\
  (forall id, run (es ++ [Drag id None]) = run es) /\
  (forall k e v, run (es ++ [PolygonClick k e v None]) = run es) /\
  (forall k v q, run (es ++ [PolygonClick k None v q]) = run es) /\
  (forall k e v q, run (es ++ [PolygonClick k e (Some v) q]) = run es).
Proof.
  destruct (in_step_run es) as (Hr & _).
  repeat split; intros; rewrite run_snoc; unfold step; cbn [listener world_of new_callback].
  - unfold onMapClick. destruct (mapClickListener _); by apply commit_idle.
  - destruct (target (run es) id) as [m|]; [|by apply commit_idle].
    unfold on_drag, follow, vertex_drag, handle_drag, polygon_vertex_drag.
    destruct (role m); by apply commit_idle.
  - unfold onPolygonClick. destruct (decide _); [|by apply commit_idle].
    destruct e, v; by apply commit_idle.
  - unfold onPolygonClick. destruct (decide _); by apply commit_idle.
  - unfold onPolygonClick. destruct (decide _); [|by apply commit_idle].
    destruct e; by apply commit_idle.
Qed.

(** X19.  A registered polygon is never removed, moved to another place of
    the list, or shortened: whatever events follow, the polygon at index
    [k] is still at index [k], with at least as many path vertices and at
    least as many vertex markers. *)
Theorem polygons_are_never_dropped (es es' : list Event) (k : nat) (g : Polygon) :
  fieldPolygons (run es) !! k = Some g ->
  exists g', fieldPolygons (run (es ++ es')) !! k = Some g' /\
             length (path g) <= length (path g') /\
             length (pg_vertexMarkers g) <= length (pg_vertexMarkers g').
Proof. apply kept_run. Qed.

(** X20.  What happens in the drawing session stays there: a click on the
    surface, the start and the end of any drag, a value entered into a
    label and the choice of "field" leave every registered polygon, path
    and markers, exactly as it was. *)
Theorem session_events_keep_polygons (es : list Event) :
  fieldPolygons (run (es ++ [CreateField])) = fieldPolygons (run es) /\
  (forall q, fieldPolygons (run (es ++ [MapClick q])) = fieldPolygons (run es)) /\
  (forall id, fieldPolygons (run (es ++ [DragStart id])) = fieldPolygons (run es)) /\
  (forall id q, fieldPolygons (run (es ++ [DragEnd id q])) = fieldPolygons (run es)) /\
  (forall id x, fieldPolygons (run (es ++ [InputChange id x])) = fieldPolygons (run es)).
Proof.
  repeat split; intros; rewrite run_snoc; unfold step; rewrite fp_commit;
    cbn [listener world_of new_callback].
  - reflexivity.
  - destruct (mapClickListener _); [apply fp_onMapClick|reflexivity].
  - destruct (target _ _); [apply fp_on_dragstart|reflexivity].
  - destruct (target _ _); [by rewrite fp_on_dragend, fp_follow|reflexivity].
  - apply fp_onInputChange.
Qed.

End Component.

(** ** The component run with the stand-ins *)

Local Abbreviation play :=
  (run Standin.LatLng_new Standin.computeDistanceBetween Standin.computeArea
     Standin.Math_atan2 Standin.ToString_fraction true).

Local Abbreviation hear :=
  (listener Standin.LatLng_new Standin.computeDistanceBetween Standin.Math_atan2
     Standin.ToString_fraction).

Local Abbreviation rebuild :=
  (updateEdgeMarkers Standin.computeDistanceBetween Standin.Math_atan2
     Standin.ToString_fraction).



(** C1, where the equality is lost.  The midpoint handle of edge 0 of the
    triangle is picked up and the drag ends without a geo-point: the
    provisional vertex stays in the ring without a marker of its own, and
    after one more click the ring has five vertices, four vertex markers
    and ten edge markers. *)
Lemma abandoned_drag_leaves_vertex_unmarked :
  let w := play (Scenario.abandoned_drag ++ [MapClick (Some Scenario.c)]) in
  length (vertices (session w)) = 5 /\
  length (vertexMarkers (session w)) = 4 /\
  length (edgeMarkers (session w)) = 10.
Proof. vm_compute. done. Qed.

(** C2, the code at the failing input.  Two clicks on the same point give an
    edge of length 0; submitting 5 in its label returns normally, but the
    ratio is [5 / 0], both coordinates of the far vertex become NaN, and its
    marker is moved there: the edit is not a no-op. *)
Lemma degenerate_edit_writes_nan :
  Standin.computeDistanceBetween Scenario.a Scenario.a = 0%float /\
  vertices (session (play Scenario.same_point_twice)) = [Scenario.a; Scenario.a] /\
  exists w',
    hear (InputChange 2 5) (play Scenario.same_point_twice) = Returned w' /\
    vertices (session w') = [Scenario.a; mkLatLng nan nan] /\
    position <$> get_marker w' 1 = Some (mkLatLng nan nan).
Proof.
  split; [reflexivity|]. split; [vm_compute; reflexivity|].
  eexists. split; [vm_compute; reflexivity|]. split; vm_compute; reflexivity.
Qed.

(** C3, witness: the double-click that closes the triangle. *)
Lemma double_click_closes_ring_witness :
  well_formed (play Scenario.triangle) /\
  mapDblClickListener (session (play Scenario.triangle)) = true /\
  3 <= length (vertices (session (play Scenario.triangle))) /\
  exists g,
    fieldPolygons (world_of (hear (MapDblClick (Some Scenario.c)) (play Scenario.triangle)))
      = fieldPolygons (play Scenario.triangle) ++ [g] /\
    path g = vertices (session (play Scenario.triangle)).
Proof.
  assert (H1 : well_formed (play Scenario.triangle)) by apply well_formed_run.
  assert (H2 : mapDblClickListener (session (play Scenario.triangle)) = true)
    by (vm_compute; reflexivity).
  assert (H3 : 3 <= length (vertices (session (play Scenario.triangle))))
    by (vm_compute; lia).
  split; [exact H1|]. split; [exact H2|]. split; [exact H3|].
  exact (proj1 (proj1 (double_click_closes_ring Standin.LatLng_new _ _ _ _
                         (Some Scenario.c) H1 H2) H3)).
Defined.



(** C5, witness, scenario 3 of the specification: a click in the middle of
    edge 0 of the closed triangle makes the ring four vertices long, with
    four vertex markers. *)
Lemma edge_click_inserts_vertex_witness :
  exists g',
    fieldPolygons (world_of (hear Scenario.edge_click (play Scenario.closed_triangle))) !! 0
      = Some g' /\
    path g' = [Scenario.a; Scenario.ab; Scenario.b; Scenario.c] /\
    length (pg_vertexMarkers g') = 4.
Proof.
  pose proof (edge_click_inserts_vertex Standin.LatLng_new
              Standin.computeDistanceBetween Standin.Math_atan2
                Standin.ToString_fraction (play Scenario.closed_triangle) 0) as T.
  edestruct T with (e := 0) (p := Scenario.ab)
    as (g' & id & m & E1 & E2 & _ & _ & E5 & _).
  - vm_compute. reflexivity.
  - vm_compute. lia.
  - vm_compute. reflexivity.
  - exists g'. split; [exact E1|]. split; [exact E2|]. rewrite E5, E2. reflexivity.
Defined.

(** C6, the code at the failing input.  The handle of edge 0 is picked up
    and the drag ends without a geo-point: the provisional vertex stays in
    the ring, which is not put back to its three vertices although the
    handle still holds them as [originalVertices], and no marker is made
    for it. *)
Lemma abandoned_drag_leaves_vertex :
  vertices (session (play Scenario.triangle)) = [Scenario.a; Scenario.b; Scenario.c] /\
  vertices (session (play Scenario.abandoned_drag))
    = [Scenario.a; Scenario.ab; Scenario.b; Scenario.c] /\
  length (vertexMarkers (session (play Scenario.abandoned_drag))) = 3 /\
  (originalVertices <$> get_marker (play Scenario.abandoned_drag) 8)
    = Some (Some [Scenario.a; Scenario.b; Scenario.c]).
Proof. vm_compute. repeat split; reflexivity. Qed.

(** C7, the code at the failing input.  Registering the triangle calls the
    host once.  Dragging a vertex of the registered ring changes the total
    area, and the host is not called again. *)
Lemma vertex_insertion_not_reported :
  exists before after : float,
    hostCalls (play Scenario.closed_triangle) = [before] /\
    hostCalls (play (Scenario.closed_triangle ++ [Scenario.vertex_drag])) = [before] /\
    path <$> fieldPolygons (play (Scenario.closed_triangle ++ [Scenario.vertex_drag]))
      = [[mkLatLng 0 (-1); Scenario.b; Scenario.c]] /\
    totalArea Standin.computeArea
      (fieldPolygons (play (Scenario.closed_triangle ++ [Scenario.vertex_drag]))) = after /\
    (before =? after)%float = false.
Proof.
  eexists _, _. split; [vm_compute; reflexivity|]. split; [vm_compute; reflexivity|].
  split; [vm_compute; reflexivity|]. split; [vm_compute; reflexivity|].
  vm_compute. reflexivity.
Qed.

(** C8, witness: an edge of 250.5 m. *)
Lemma distance_label_format_witness :
  exists n : Z,
    distanceText Standin.ToString_fraction 250.5 = (pretty n ++ "m")%string.
Proof.
  pose proof (distance_label_format Standin.ToString_fraction 250.5) as T.
  edestruct T as [Hm _].
  - reflexivity.
  - vm_compute. discriminate.
  - destruct Hm as (n & _ & _ & E); [vm_compute; reflexivity|].
    exists n. exact E.
Defined.

(** C9, witness: the label of edge 0 of the triangle. *)
Lemma labels_are_horizontal_witness :
  exists o, get_overlay (play Scenario.triangle) 7 = Some o /\ angle o = 0%float.
Proof.
  destruct (get_overlay (play Scenario.triangle) 7) as [o|] eqn:E;
    [|vm_compute in E; discriminate].
  exists o. split; [reflexivity|].
  exact (proj1 (labels_are_horizontal _ _ _ _ _ _ _ _ _ E)).
Defined.

(** C10, witness.  For the edge from longitude 179 to longitude -179 on the
    equator the anchor is (0, 0): the mean of the coordinates, on the other
    side of the globe from the middle of the short great-circle segment. *)
Lemma edge_anchor_is_arithmetic_mean_witness :
  exists label o,
    edgeMarkers (session (rebuild (play Scenario.across_antimeridian))) !! 0 = Some label /\
    get_overlay (rebuild (play Scenario.across_antimeridian)) label = Some o /\
    ov_position o = mkLatLng 0 0.
Proof.
  pose proof (edge_anchor_is_arithmetic_mean Standin.computeDistanceBetween
                Standin.Math_atan2 Standin.ToString_fraction
                (play Scenario.across_antimeridian) 0 Scenario.east Scenario.west) as T.
  destruct T as (label & handle & o & m & E1 & _ & E3 & _ & _ & _ & _ & E8 & _).
  - vm_compute. lia.
  - vm_compute. reflexivity.
  - vm_compute. reflexivity.
  - exists label, o. split; [exact E1|]. split; [exact E3|]. rewrite E8. reflexivity.
Defined.

(** X1, witness: the first vertex marker of the triangle being drawn. *)
Lemma session_visuals_are_tracked_witness :
  0 ∈ vertexMarkers (session (play Scenario.triangle)).
Proof.
  destruct (objects (play Scenario.triangle) !! 0) as [o|] eqn:E;
    [|vm_compute in E; discriminate].
  refine (proj1 (session_visuals_are_tracked _ _ _ _ _ _ Scenario.triangle 0 o E _) _).
  - vm_compute in E. injection E as <-. reflexivity.
  - vm_compute in E. injection E as <-. reflexivity.
Defined.

(** X2, witness: the label of edge 0 after the triangle has been closed. *)
Lemma no_session_visual_outside_drawing_witness :
  is_shown (play Scenario.closed_triangle) 7 = false.
Proof.
  unfold is_shown.
  destruct (objects (play Scenario.closed_triangle) !! 7) as [o|] eqn:E;
    [|reflexivity].
  refine (no_session_visual_outside_drawing _ _ _ _ _ _ Scenario.closed_triangle 7 o _ E _).
  - vm_compute. reflexivity.
  - vm_compute in E. injection E as <-. reflexivity.
Defined.

(** X5, witness: the triangle being drawn survives a second "field". *)
Lemma create_field_while_drawing_witness :
  play (Scenario.triangle ++ [CreateField]) = play Scenario.triangle.
Proof. apply create_field_while_drawing. vm_compute. reflexivity. Defined.

(** X6, witness: a click on the surface after the triangle was closed. *)
Lemma idle_component_ignores_witness :
  play (Scenario.closed_triangle ++ [MapClick (Some Scenario.a)])
    = play Scenario.closed_triangle.
Proof.
  refine (proj1 (idle_component_ignores _ _ _ _ _ _ Scenario.closed_triangle _) _).
  vm_compute. reflexivity.
Defined.

(** X7, witness: a second session after the triangle was closed. *)
Lemma new_session_starts_empty_witness :
  vertices (session (play (Scenario.closed_triangle ++ [CreateField]))) = [] /\
  length (fieldPolygons (play (Scenario.closed_triangle ++ [CreateField]))) = 1.
Proof.
  destruct (new_session_starts_empty Standin.LatLng_new
            Standin.computeDistanceBetween Standin.computeArea
              Standin.Math_atan2 Standin.ToString_fraction true Scenario.closed_triangle)
    as (_ & Hs & _ & Hf & _).
  - vm_compute. reflexivity.
  - rewrite Hs, Hf. split; [reflexivity|]. vm_compute. reflexivity.
Defined.

(** X8, witness: closing the triangle reports its area as the first total. *)
Lemma closing_registers_and_reports_witness :
  hostCalls (play (Scenario.triangle ++ [MapDblClick (Some Scenario.c)]))
    = [(0 + Standin.computeArea [Scenario.a; Scenario.b; Scenario.c] / 10000)%float].
Proof.
  destruct (closing_registers_and_reports Standin.LatLng_new Standin.computeDistanceBetween
              Standin.computeArea Standin.Math_atan2 Standin.ToString_fraction true
              Scenario.triangle (Some Scenario.c))
    as (_ & _ & _ & H).
  - vm_compute. reflexivity.
  - vm_compute. lia.
  - rewrite H. vm_compute. reflexivity.
Defined.

(** X9, witness: the edge of one degree of longitude is labelled in
    kilometres. *)
Lemma labels_show_their_edge_witness :
  exists o dv, get_overlay (play Scenario.one_edge) 2 = Some o /\
               div o = Some dv /\ unit dv = "km".
Proof.
  destruct (get_overlay (play Scenario.one_edge) 2) as [o|] eqn:E;
    [|vm_compute in E; discriminate].
  destruct (div o) as [dv|] eqn:Hd;
    [|vm_compute in E; injection E as <-; vm_compute in Hd; discriminate].
  exists o, dv. split; [reflexivity|]. split; [exact Hd|].
  destruct (labels_show_their_edge _ _ _ _ _ _ _ _ _ E) as (_ & _ & H).
  apply (H dv Hd). vm_compute in E. injection E as <-. vm_compute. reflexivity.
Defined.

(** X10, witness: after the abandoned drag the ring has four vertices and
    three markers; the label of edge 2 addresses vertex 3. *)
Lemma distance_edit_without_marker_witness :
  exists w', hear (InputChange 11 5) (play Scenario.abandoned_drag) = Threw w' /\
             length (vertices (session w')) = 4.
Proof.
  pose proof (distance_edit_without_marker Standin.LatLng_new
              Standin.computeDistanceBetween Standin.Math_atan2
                Standin.ToString_fraction (play Scenario.abandoned_drag) 11) as T.
  edestruct T with (value := 5%float) (k := 3) as (w' & H & Hv & _).
  - vm_compute. reflexivity.
  - vm_compute. reflexivity.
  - reflexivity.
  - vm_compute. discriminate.
  - vm_compute. reflexivity.
  - vm_compute. reflexivity.
  - exists w'. split; [exact H|]. rewrite Hv, length_insert. vm_compute. reflexivity.
Defined.

(** X12, witness: the closed triangle. *)
Lemma polygons_have_no_edge_markers_witness :
  exists g, fieldPolygons (play Scenario.closed_triangle) !! 0 = Some g /\
            pg_edgeMarkers g = [].
Proof.
  destruct (fieldPolygons (play Scenario.closed_triangle) !! 0) as [g|] eqn:E;
    [|vm_compute in E; discriminate].
  exists g. split; [reflexivity|].
  exact (polygons_have_no_edge_markers _ _ _ _ _ _ _ _ _ E).
Defined.

(** X13, witness: the second vertex of the triangle is dragged onto the
    middle of the first edge. *)
Lemma vertex_drag_moves_its_vertex_witness :
  vertices (session (play (Scenario.triangle ++ [Drag 1 (Some Scenario.ab)])))
    = [Scenario.a; Scenario.ab; Scenario.c].
Proof.
  destruct (vertex_drag_moves_its_vertex Standin.LatLng_new
            Standin.computeDistanceBetween Standin.computeArea
              Standin.Math_atan2 Standin.ToString_fraction true
              Scenario.triangle 1 1 Scenario.ab) as (H & _).
  - vm_compute. reflexivity.
  - rewrite H. vm_compute. reflexivity.
Defined.

(** X14, witness: the first vertex marker of the triangle is picked up and
    put down without a geo-point. *)
Lemma drag_ghost_comes_and_goes_witness :
  is_shown (play (Scenario.triangle ++ [DragStart 0; DragEnd 0 None]))
    (fresh (play Scenario.triangle)) = false.
Proof.
  destruct (drag_ghost_comes_and_goes Standin.LatLng_new
            Standin.computeDistanceBetween Standin.computeArea
              Standin.Math_atan2 Standin.ToString_fraction true
              Scenario.triangle 0 0 None) as (m & _ & _ & _ & H & _).
  - vm_compute. reflexivity.
  - exact H.
Defined.

(** X15, witness: after a click in the middle of edge 0 of the closed
    triangle, dragging the marker made for vertex 1 overwrites the inserted
    vertex and leaves vertex [b], on which the marker stood, in place. *)
Lemma polygon_marker_keeps_captured_index_witness :
  exists g2,
    fieldPolygons
      (world_of (hear (Drag 14 (Some Scenario.c))
                   (world_of (hear Scenario.edge_click (play Scenario.closed_triangle))))) !! 0
      = Some g2 /\
    path g2 = [Scenario.a; Scenario.c; Scenario.b; Scenario.c].
Proof.
  pose proof (polygon_marker_keeps_captured_index Standin.LatLng_new Standin.computeDistanceBetween
                Standin.Math_atan2 Standin.ToString_fraction
                (play Scenario.closed_triangle) 0 0 1 14) as T.
  edestruct T with (p := Scenario.ab) (q := Scenario.c) as (g2 & E1 & E2 & _).
  - apply well_formed_run.
  - vm_compute. reflexivity.
  - vm_compute. reflexivity.
  - vm_compute. reflexivity.
  - reflexivity.
  - lia.
  - vm_compute. lia.
  - exists g2. split; [exact E1|]. rewrite E2. reflexivity.
Defined.

(** X16, witness: the handle of edge 0 of the triangle is dragged over
    [c] and dropped in the middle of the edge. *)
Lemma handle_drop_inserts_vertex_witness :
  vertices
    (session (play (Scenario.triangle ++
                      DragStart 8 :: map (Drag 8) [Some Scenario.c]
                        ++ [DragEnd 8 (Some Scenario.ab)])))
    = [Scenario.a; Scenario.ab; Scenario.b; Scenario.c].
Proof.
  pose proof (handle_drop_inserts_vertex Standin.LatLng_new
              Standin.computeDistanceBetween Standin.computeArea
                Standin.Math_atan2 Standin.ToString_fraction true
                Scenario.triangle 8 0) as T.
  edestruct T with (qs := [Some Scenario.c]) (p := Scenario.ab) as (H & _).
  - vm_compute. reflexivity.
  - reflexivity.
  - vm_compute. lia.
  - rewrite H. vm_compute. reflexivity.
Defined.

(** X17, witness: a fourth click while the triangle is being drawn. *)
Lemma click_appends_vertex_witness :
  vertices (session (play (Scenario.triangle ++ [MapClick (Some Scenario.ab)])))
    = [Scenario.a; Scenario.b; Scenario.c; Scenario.ab].
Proof.
  destruct (click_appends_vertex Standin.LatLng_new
            Standin.computeDistanceBetween Standin.computeArea
              Standin.Math_atan2 Standin.ToString_fraction true
              Scenario.triangle Scenario.ab) as (H & _).
  - vm_compute. reflexivity.
  - rewrite H. vm_compute. reflexivity.
Defined.

(** X19, witness: the closed triangle is still the first polygon, with its
    three vertices, after a second ring has been drawn next to it. *)
Lemma polygons_are_never_dropped_witness :
  exists g', fieldPolygons (play (Scenario.closed_triangle ++ Scenario.triangle)) !! 0
               = Some g' /\ 3 <= length (path g').
Proof.
  pose proof (polygons_are_never_dropped Standin.LatLng_new
              Standin.computeDistanceBetween Standin.computeArea
                Standin.Math_atan2 Standin.ToString_fraction true
                Scenario.closed_triangle Scenario.triangle 0) as T.
  edestruct T as (g' & E & H & _).
  - vm_compute. reflexivity.
  - exists g'. split; [exact E|]. exact H.
Defined.

(** ** Examples *)

(** A length just under a kilometre is still labelled in metres, and reads
    "1000m". *)
Example label_just_below_a_kilometre :
  distanceText Standin.ToString_fraction 999.75 = "1000m".
Proof. reflexivity. Qed.

Example label_in_kilometres :
  distanceText Standin.ToString_fraction 1500 = "1.50km".
Proof. reflexivity. Qed.

(** Scenario 1 of the specification: three clicks and a double-click
    register the ring that was clicked. *)
Example scenario_1 :
  path <$> fieldPolygons (play Scenario.closed_triangle)
    = [[Scenario.a; Scenario.b; Scenario.c]].
Proof. vm_compute. reflexivity. Qed.

(** Scenario 2: a double-click after two clicks registers nothing and the
    session keeps listening. *)
Example scenario_2 :
  fieldPolygons (play (Scenario.one_edge ++ [MapDblClick (Some Scenario.b)])) = [] /\
  mapClickListener (session (play (Scenario.one_edge ++ [MapDblClick (Some Scenario.b)])))
    = true.
Proof. vm_compute. split; reflexivity. Qed.
